(** * Reshape engine of the air-quality formatter

    A shallow embedding of [Cleaning_Air_Data/format_by_location.py]:
    the sheet-name sanitizer, the pollutant label helper, the grouping
    configurator, the long projection, the wide pivot and the per-group
    sheet split, with the properties the specification states about them.

    Conventions of the embedding.
    - A Python [str] of characters with codes below 256 is a [string],
      one [ascii] per character; [len] is [String.length] and the
      characters are compared by their codes.
    - A float is an exact rational ([Q]) and its arithmetic is exact;
      [round(3)] is the rounding of the exact value to the nearest
      thousandth, ties to even.  The float rounding of numpy multiplies by
      1000 in floating point first and can differ from it by one
      thousandth where that product falls on a tie.
    - A pandas DataFrame is a list of column labels and a list of rows,
      every row holding one cell per label.  The labels of a frame read
      by [pd.read_csv] are pairwise distinct.
    - [raise] is a result in a sum, option or [outcome] type; the one
      in-place mutation of a frame ([ensure_date]) is threaded as explicit
      state. *)

From Stdlib Require Import List String Ascii Bool Arith ZArith QArith Qround.
From Stdlib Require Import Lia Permutation Sorted DecimalString.
Import ListNotations.

Local Close Scope Q_scope.
Local Open Scope string_scope.
Local Open Scope list_scope.
Local Open Scope nat_scope.

(** ** Sorting *)

(** Insertion of [x] into a list ascending for [leb], before the first
    element that is not below it. *)
Fixpoint insert_by {A : Type} (leb : A -> A -> bool) (x : A) (l : list A) : list A :=
  match l with
  | [] => [x]
  | y :: t => if leb x y then x :: l else y :: insert_by leb x t
  end.

Fixpoint sort_by {A : Type} (leb : A -> A -> bool) (l : list A) : list A :=
  match l with
  | [] => []
  | x :: t => insert_by leb x (sort_by leb t)
  end.

(** ** Python strings *)

Module PyStr.

(** [s.replace(old, new)] for one-character [old] and [new]. *)
Fixpoint replace (old new : ascii) (s : string) : string :=
  match s with
  | EmptyString => EmptyString
  | String c r => String (if Ascii.eqb c old then new else c) (replace old new r)
  end.

(** [s[:n]] *)
Definition slice_to (n : nat) (s : string) : string := substring 0 n s.

(** [sep.join(parts)] *)
Fixpoint join (sep : string) (parts : list string) : string :=
  match parts with
  | [] => ""
  | [p] => p
  | p :: rest => (p ++ sep ++ join sep rest)%string
  end.

(** Characters removed by [str.strip()]: the white space of Python below
    code 256, which is tab to carriage return, the four separators, the
    blank, next line and the no-break space. *)
Definition is_space (c : ascii) : bool :=
  let n := nat_of_ascii c in
  ((9 <=? n) && (n <=? 13)) || ((28 <=? n) && (n <=? 32))
  || (n =? 133) || (n =? 160).

Fixpoint lstrip (s : string) : string :=
  match s with
  | EmptyString => EmptyString
  | String c r => if is_space c then lstrip r else s
  end.

Fixpoint rstrip (s : string) : string :=
  match s with
  | EmptyString => EmptyString
  | String c r =>
      match rstrip r with
      | EmptyString => if is_space c then EmptyString else String c EmptyString
      | r' => String c r'
      end
  end.

Definition strip (s : string) : string := rstrip (lstrip s).

(** [str.lower()] on one character below code 256: the letters A to Z
    and the accented capitals from code 192 to 222, the multiplication
    sign at 215 apart, move up by 32. *)
Definition lower_char (c : ascii) : ascii :=
  let n := nat_of_ascii c in
  if ((65 <=? n) && (n <=? 90))
     || ((192 <=? n) && (n <=? 222) && negb (n =? 215))
  then ascii_of_nat (n + 32) else c.

Fixpoint lower (s : string) : string :=
  match s with
  | EmptyString => EmptyString
  | String c r => String (lower_char c) (lower r)
  end.

(** [s.split(",")]: the pieces between the commas, never an empty list. *)
Fixpoint split_comma (s : string) : list string :=
  match s with
  | EmptyString => [""]
  | String c r =>
      if Ascii.eqb c "," then "" :: split_comma r
      else match split_comma r with
           | [] => [String c ""]
           | p :: ps => String c p :: ps
           end
  end.

(** Truth value of a string or [None]: [not s]. *)
Definition falsy (s : option string) : bool :=
  match s with
  | None => true
  | Some EmptyString => true
  | Some _ => false
  end.

Definition mem (x : string) (l : list string) : bool :=
  existsb (String.eqb x) l.

(** [sorted(l)] on strings: ascending by character codes. *)
Definition sorted (l : list string) : list string := sort_by String.leb l.

End PyStr.

(** ** Sheet names *)

(** [safe_sheet_name]; the argument is [None] or a string. *)
Definition safe_sheet_name (s : option string) : string :=
  if PyStr.falsy s then "Sheet1"
  else
    match s with
    | None => "Sheet1"
    | Some s =>
        let s := PyStr.replace "/" "-" s in
        let s := PyStr.replace ":" "-" s in
        let s := PyStr.replace "\" "-" s in
        let s := PyStr.replace "*" "-" s in
        let s := PyStr.replace "?" "-" s in
        let s := PyStr.replace "[" "(" s in
        let s := PyStr.replace "]" ")" s in
        if 31 <? String.length s then PyStr.slice_to 31 s else s
    end.

(** The fixed mapping of the sanitation rule, one character at a time,
    as the specification words it. *)
Definition sheet_char_spec (c : ascii) : ascii :=
  if Ascii.eqb c "/" || Ascii.eqb c ":" || Ascii.eqb c "\" then "-"%char
  else if Ascii.eqb c "*" || Ascii.eqb c "?" then "-"%char
  else if Ascii.eqb c "[" then "("%char
  else if Ascii.eqb c "]" then ")"%char
  else c.

Fixpoint map_string (f : ascii -> ascii) (s : string) : string :=
  match s with
  | EmptyString => EmptyString
  | String c r => String (f c) (map_string f r)
  end.

(** ** Pollutant labels *)

(** A Python [dict] with string keys, in insertion order. *)
Definition dict := list (string * string).

Fixpoint dict_set (d : dict) (k v : string) : dict :=
  match d with
  | [] => [(k, v)]
  | (k', v') :: t =>
      if String.eqb k k' then (k', v) :: t else (k', v') :: dict_set t k v
  end.

Fixpoint dict_get (d : dict) (k : string) : option string :=
  match d with
  | [] => None
  | (k', v) :: t => if String.eqb k k' then Some v else dict_get t k
  end.

Definition abc : string := "ABCDEFGHIJKLMNOPQRSTUVWXYZ".

(** [f"Pollutant {letter} ({p})"] *)
Definition letter_label (letter : ascii) (p : string) : string :=
  ("Pollutant " ++ String letter (" (" ++ p ++ ")"))%string.

(** The loop of [label_style_map] over [enumerate(sorted(pollutants))],
    started at index [i] with the dictionary [out].  [abc[i]] past the
    last letter raises [IndexError]: the result is [None]. *)
Fixpoint label_loop (use_abc : bool) (i : nat) (ps : list string) (out : dict)
  : option dict :=
  match ps with
  | [] => Some out
  | p :: rest =>
      if use_abc then
        match String.get i abc with
        | Some letter => label_loop use_abc (S i) rest (dict_set out p (letter_label letter p))
        | None => None
        end
      else label_loop use_abc (S i) rest (dict_set out p p)
  end.

Definition label_style_map (pollutants : list string) (use_abc : bool) : option dict :=
  label_loop use_abc 0 (PyStr.sorted pollutants) [].

(** ** Cells and frames *)

(** A [datetime.date], as the integer [yyyymmdd]; equality and order are
    those of the calendar. *)
Definition Date := Z.

(** One cell of a frame: text, a number, a date, or missing
    ([NaN], [NaT], [None]). *)
Inductive cell : Type :=
| CStr (s : string)
| CNum (q : Q)
| CDate (d : Date)
| CNaN.

(** The conversions of pandas and Python that the program calls on single
    values and whose tables are not part of the program. *)
Class Pandas : Type := {
  (** [pd.to_datetime(text, errors="coerce")], then [.date] *)
  parse_datetime : string -> option Date;
  (** [pd.to_datetime(number, errors="coerce")], then [.date] *)
  epoch_date : Q -> option Date;
  (** [pd.to_numeric(text, errors="coerce")] *)
  parse_number : string -> option Q;
  (** [str(number)] *)
  repr_num : Q -> string;
  (** [str(date)] *)
  repr_date : Date -> string
}.

(** [pd.notna] *)
Definition notna (c : cell) : bool :=
  match c with CNaN => false | _ => true end.

(** Equality of two present key values; with a missing value on either
    side the answer is [false].  [groupby] and [pivot_table] leave out the
    rows with a missing key value before they compare keys, so that they
    compare present values only. *)
Definition cell_eqb (a b : cell) : bool :=
  match a, b with
  | CStr s, CStr t => String.eqb s t
  | CNum p, CNum q => Qeq_bool p q
  | CDate d, CDate e => Z.eqb d e
  | _, _ => false
  end.

(** Order of two key values of one column; values of different kinds are
    ranked numbers, dates, text, missing. *)
Definition cell_rank (a : cell) : nat :=
  match a with CNum _ => 0 | CDate _ => 1 | CStr _ => 2 | CNaN => 3 end.

Definition cell_leb (a b : cell) : bool :=
  match a, b with
  | CStr s, CStr t => String.leb s t
  | CNum p, CNum q => Qle_bool p q
  | CDate d, CDate e => Z.leb d e
  | _, _ => cell_rank a <=? cell_rank b
  end.

(** A key is the tuple of the values of the grouping columns. *)
Definition key := list cell.

Fixpoint key_eqb (k1 k2 : key) : bool :=
  match k1, k2 with
  | [], [] => true
  | a :: k1', b :: k2' => cell_eqb a b && key_eqb k1' k2'
  | _, _ => false
  end.

Fixpoint key_leb (k1 k2 : key) : bool :=
  match k1, k2 with
  | [], _ => true
  | _ :: _, [] => false
  | a :: k1', b :: k2' => if cell_eqb a b then key_leb k1' k2' else cell_leb a b
  end.

Definition has_missing (k : key) : bool := existsb (fun c => negb (notna c)) k.

Definition row := list cell.

Record DataFrame : Type := mkDataFrame {
  columns : list string;
  rows : list row
}.

(** Every row has one cell per column and no label occurs twice. *)
Definition wf_frame (df : DataFrame) : Prop :=
  NoDup (columns df) /\ Forall (fun r => List.length r = List.length (columns df)) (rows df).

(** Position of the first column labelled [c]. *)
Fixpoint index_of (c : string) (cols : list string) : option nat :=
  match cols with
  | [] => None
  | x :: t => if String.eqb c x then Some 0 else option_map S (index_of c t)
  end.

(** [c in df.columns] *)
Definition has_column (df : DataFrame) (c : string) : bool :=
  PyStr.mem c (columns df).

(** The cell of row [r] under the label [c]. *)
Definition cell_at (cols : list string) (r : row) (c : string) : cell :=
  match index_of c cols with
  | Some i => nth i r CNaN
  | None => CNaN
  end.

Fixpoint set_nth (i : nat) (r : row) (v : cell) {struct r} : row :=
  match r, i with
  | [], _ => []
  | _ :: t, 0 => v :: t
  | x :: t, S j => x :: set_nth j t v
  end.

(** [df[c] = series], the series given row by row as a function of the
    row before the assignment: an existing column is overwritten in
    place, a new one is appended. *)
Definition assign_cols (cols : list string) (c : string) : list string :=
  match index_of c cols with
  | Some _ => cols
  | None => cols ++ [c]
  end.

Definition assign_row (cols : list string) (c : string) (f : row -> cell) (r : row) : row :=
  match index_of c cols with
  | Some i => set_nth i r (f r)
  | None => r ++ [f r]
  end.

Definition assign (df : DataFrame) (c : string) (f : row -> cell) : DataFrame :=
  mkDataFrame (assign_cols (columns df) c) (map (assign_row (columns df) c f) (rows df)).

(** [df[ordered]] for labels that all exist. *)
Definition select (df : DataFrame) (ordered : list string) : DataFrame :=
  mkDataFrame ordered (map (fun r => map (cell_at (columns df) r) ordered) (rows df)).

(** [coalesce]: the first candidate that is a column, if any. *)
Fixpoint coalesce (df : DataFrame) (candidates : list string) : option string :=
  match candidates with
  | [] => None
  | c :: rest => if has_column df c then Some c else coalesce df rest
  end.

(** [pick_first], the same search under its second name. *)
Fixpoint pick_first (df : DataFrame) (names : list string) : option string :=
  match names with
  | [] => None
  | n :: rest => if has_column df n then Some n else pick_first df rest
  end.

(** [round(3)] on the exact value: to the nearest thousandth, ties to the
    even one. *)
Definition rint (q : Q) : Z :=
  let f := Qfloor q in
  match Qcompare (q - inject_Z f)%Q (1 # 2)%Q with
  | Lt => f
  | Gt => (f + 1)%Z
  | Eq => if Z.even f then f else (f + 1)%Z
  end.

Definition round3 (q : Q) : Q := Qmake (rint (q * inject_Z 1000)%Q) 1000.

Section Frames.

Context {P : Pandas}.

(** [str(k)] *)
Definition py_str (c : cell) : string :=
  match c with
  | CStr s => s
  | CNum q => repr_num q
  | CDate d => repr_date d
  | CNaN => "nan"
  end.

(** One element of [pd.to_datetime(col, errors="coerce").dt.date] *)
Definition to_date (c : cell) : cell :=
  match c with
  | CStr s => match parse_datetime s with Some d => CDate d | None => CNaN end
  | CNum q => match epoch_date q with Some d => CDate d | None => CNaN end
  | CDate d => CDate d
  | CNaN => CNaN
  end.

(** One element of [pd.to_numeric(col, errors="coerce").round(3)] *)
Definition to_numeric_round3 (c : cell) : cell :=
  match c with
  | CStr s => match parse_number s with Some q => CNum (round3 q) | None => CNaN end
  | CNum q => CNum (round3 q)
  | CDate _ => CNaN
  | CNaN => CNaN
  end.

(** [ensure_date]: overwrites the date column of the frame it is given. *)
Definition ensure_date (df : DataFrame) (date_col : string) : DataFrame :=
  assign df date_col (fun r => to_date (cell_at (columns df) r date_col)).

End Frames.

(** ** The grouping configurator *)

(** The [ValueError]s of [choose_grouping]. *)
Inductive ConfigError : Type :=
| DateColumnNotFound
| ValueColumnNotFound
| InvalidGroupingChoice
| ColumnForChoiceNotFound (choice : string)
| CoordinatesNotFound
| NoCustomColumns
| ColumnsNotFound (missing : list string).

(** What the user types into the dialogs of [choose_grouping]; [None] is
    a cancelled dialog.  Each dialog is shown at most once. *)
Record Answers : Type := mkAnswers {
  date_answer : option string;
  value_answer : option string;
  grouping_answer : option string;
  custom_answer : option string
}.

(** A computation on the frame the caller passed in: it may overwrite the
    frame and ends in an error or a value. *)
Definition Config (A : Type) : Type := DataFrame -> (ConfigError + A) * DataFrame.

Definition ret {A : Type} (a : A) : Config A := fun df => (inr a, df).

Definition raise {A : Type} (e : ConfigError) : Config A := fun df => (inl e, df).

Definition bind {A B : Type} (m : Config A) (k : A -> Config B) : Config B :=
  fun df =>
    match m df with
    | (inl e, df') => (inl e, df')
    | (inr a, df') => k a df'
    end.

Definition frame : Config DataFrame := fun df => (inr df, df).

Definition mutate (f : DataFrame -> DataFrame) : Config unit := fun df => (inr tt, f df).

Notation "x <- m ;; k" := (bind m (fun x => k))
  (at level 61, m at next level, right associativity).

(** [ask_choice], as a function of the text typed into its dialog. *)
Definition ask_choice (answer : option string) (choices : list string) : option string :=
  match answer with
  | None => None
  | Some s =>
      if PyStr.falsy (Some s) then None
      else
        let s := PyStr.lower (PyStr.strip s) in
        if PyStr.mem s (map PyStr.lower choices) then Some s else None
  end.

Definition GROUP_MAP (k : string) : list string :=
  if String.eqb k "state" then ["State Name"; "State"]
  else if String.eqb k "city" then ["City Name"; "City"]
  else if String.eqb k "county" then ["County Name"; "County"]
  else if String.eqb k "site" then ["Site Num"; "Site Number"]
  else if String.eqb k "cbsa" then ["CBSA Name"; "CBSA"; "CBSA Name (2018)"; "CBSA Code"]
  else if String.eqb k "coordinates" then
    ["Latitude"; "Site Latitude"; "Lat"; "Longitude"; "Site Longitude"; "Lon"; "Long"]
  else [].

(** [[c.strip() for c in cols.split(",") if c.strip()]] *)
Definition custom_parts (cols : string) : list string :=
  map PyStr.strip
    (filter (fun c => negb (PyStr.falsy (Some (PyStr.strip c)))) (PyStr.split_comma cols)).

Section Configurator.

Context {P : Pandas}.

Definition detect_date (a : Answers) : Config string :=
  df <- frame ;;
  match coalesce df ["Date"; "Date Local"; "Date Observed"; "Date GMT"] with
  | Some c => ret c
  | None =>
      match date_answer a with
      | None => raise DateColumnNotFound
      | Some d =>
          if PyStr.falsy (Some d) || negb (has_column df d)
          then raise DateColumnNotFound else ret d
      end
  end.

Definition detect_value (a : Answers) : Config string :=
  df <- frame ;;
  if has_column df "Arithmetic Mean" then ret "Arithmetic Mean"
  else
    match value_answer a with
    | None => raise ValueColumnNotFound
    | Some v =>
        if PyStr.falsy (Some v) || negb (has_column df v)
        then raise ValueColumnNotFound else ret v
    end.

Definition detect_groups (a : Answers) : Config (list string) :=
  df <- frame ;;
  match ask_choice (grouping_answer a)
          ["state"; "city"; "county"; "site"; "cbsa"; "coordinates"; "custom"] with
  | None => raise InvalidGroupingChoice
  | Some choice =>
      if PyStr.mem choice ["state"; "city"; "county"; "site"; "cbsa"] then
        match coalesce df (GROUP_MAP choice) with
        | None => raise (ColumnForChoiceNotFound choice)
        | Some col => ret [col]
        end
      else if String.eqb choice "coordinates" then
        match coalesce df (firstn 3 (GROUP_MAP "coordinates")),
              coalesce df (skipn 3 (GROUP_MAP "coordinates")) with
        | Some lat_col, Some lon_col => ret [lat_col; lon_col]
        | _, _ => raise CoordinatesNotFound
        end
      else if String.eqb choice "custom" then
        match custom_answer a with
        | None => raise NoCustomColumns
        | Some cols =>
            if PyStr.falsy (Some cols) then raise NoCustomColumns
            else
              let parts := custom_parts cols in
              let missing := filter (fun c => negb (has_column df c)) parts in
              match missing with
              | [] => ret parts
              | _ :: _ => raise (ColumnsNotFound missing)
              end
        end
      else ret []
  end.

(** [choose_grouping]: run on the caller's frame, it yields the error or
    the triple (date column, value column, grouping columns), and the
    frame as the call leaves it; the frame it returns is that same
    object. *)
Definition choose_grouping (a : Answers) : Config (string * string * list string) :=
  date_col <- detect_date a ;;
  _ <- mutate (fun df => ensure_date df date_col) ;;
  val_col <- detect_value a ;;
  group_cols <- detect_groups a ;;
  ret (date_col, val_col, group_cols).

End Configurator.

(** ** The long projection *)

Definition LONG_BASE_sample_id : list string := ["Sample ID"; "SampleID"; "Sample_Id"].
Definition LONG_BASE_pollutant_name : list string := ["Pollutant Name"; "Pollutant"].
Definition LONG_BASE_sample_duration : list string :=
  ["Sample Duration"; "Sample_Duration"; "Duration"].

(** [if col: ordered.append(col)] *)
Definition append_if (ordered : list string) (col : option string) : list string :=
  match col with
  | Some c => ordered ++ [c]
  | None => ordered
  end.

(** The loop of [make_long_df] over [group_cols]: a grouping column is
    appended unless it is already listed or is no column of the frame. *)
Definition add_group_cols (df : DataFrame) (ordered group_cols : list string) : list string :=
  fold_left
    (fun ordered c =>
       if negb (PyStr.mem c ordered) && has_column df c
       then ordered ++ [c] else ordered)
    group_cols ordered.

Section Projection.

Context {P : Pandas}.

(** [make_long_df]; [None] is the [KeyError] of reading a column that the
    frame does not have. *)
Definition make_long_df (df : DataFrame) (date_col value_col : string)
    (group_cols : list string) : option DataFrame :=
  if negb (has_column df date_col) then None
  else
    let df := assign df "Date" (fun r => to_date (cell_at (columns df) r date_col)) in
    let sid_col := pick_first df LONG_BASE_sample_id in
    let pol_col := pick_first df LONG_BASE_pollutant_name in
    let dur_col := pick_first df LONG_BASE_sample_duration in
    if negb (has_column df value_col) then None
    else
      let df := assign df value_col
                  (fun r => to_numeric_round3 (cell_at (columns df) r value_col)) in
      let ordered := append_if (append_if (append_if [] sid_col) pol_col) dur_col in
      let ordered := ordered ++ ["Date"; value_col] in
      let ordered := add_group_cols df ordered group_cols in
      let ordered := filter (has_column df) ordered in
      Some (select df ordered).

End Projection.

(** ** Grouping *)

Definition key_of (cols : list string) (keys : list string) (r : row) : key :=
  map (cell_at cols r) keys.

(** The row joins the group whose key it matches, or opens a new one. *)
Fixpoint add_to_group (k : key) (r : row) (gs : list (key * list row))
  : list (key * list row) :=
  match gs with
  | [] => [(k, [r])]
  | (k', rs) :: t =>
      if key_eqb k k' then (k', rs ++ [r]) :: t
      else (k', rs) :: add_to_group k r t
  end.

(** [df.groupby(keys)] with the defaults of pandas ([dropna=True],
    [sort=True]): the rows whose key has a missing component belong to no
    group; the groups come ascending by key and each keeps its rows in
    the order of the frame.  [None] is the [KeyError] of an unknown
    label. *)
Definition group_rows (kf : row -> key) (rs : list row) : list (key * list row) :=
  fold_left (fun gs r => add_to_group (kf r) r gs) rs [].

Definition groupby (df : DataFrame) (keys : list string) : option (list (key * DataFrame)) :=
  if forallb (has_column df) keys then
    let kf := key_of (columns df) keys in
    let kept := filter (fun r => negb (has_missing (kf r))) (rows df) in
    let gs := sort_by (fun a b => key_leb (fst a) (fst b)) (group_rows kf kept) in
    Some (map (fun g => (fst g, mkDataFrame (columns df) (snd g))) gs)
  else None.

(** ** The wide pivot *)

(** The numbers of a column, the missing ones left out. *)
Definition numeric_values (cols : list string) (values : string) (rs : list row) : list Q :=
  flat_map (fun r => match cell_at cols r values with CNum q => [q] | _ => [] end) rs.

(** [aggfunc="mean"]: the sum over the count, missing for no numbers. *)
Definition mean (l : list Q) : option Q :=
  match l with
  | [] => None
  | _ :: _ => Some (fold_left Qplus l 0%Q / inject_Z (Z.of_nat (List.length l)))%Q
  end.

(** A missing cell for no number, else the mean. *)
Definition mean_cell (l : list Q) : cell :=
  match mean l with
  | Some m => CNum m
  | None => CNaN
  end.

(** The first occurrence of each value. *)
Fixpoint dedup {A : Type} (eqb : A -> A -> bool) (l : list A) : list A :=
  match l with
  | [] => []
  | x :: t => x :: filter (fun y => negb (eqb x y)) (dedup eqb t)
  end.

Definition text_label (c : cell) : option string :=
  match c with CStr s => Some s | _ => None end.

Fixpoint text_labels (cs : list cell) : option (list string) :=
  match cs with
  | [] => Some []
  | c :: t =>
      match text_label c, text_labels t with
      | Some s, Some l => Some (s :: l)
      | _, _ => None
      end
  end.

(** The outcome of a call into pandas: the value it returns, an
    exception, or a call that this embedding does not describe. *)
Inductive outcome (A : Type) : Type :=
| Returns (a : A)
| Raises
| NotDescribed.

Arguments Returns {A} a.
Arguments Raises {A}.
Arguments NotDescribed {A}.

(** No label occurs twice. *)
Fixpoint distinct (l : list string) : bool :=
  match l with
  | [] => true
  | x :: t => negb (PyStr.mem x t) && distinct t
  end.

(** [df.pivot_table(index=index, columns=columns_, values=values,
    aggfunc="mean").reset_index()] with the defaults of pandas
    ([dropna=True]) on a frame whose column [values] holds numbers or
    missing values: the rows are grouped by the index columns and
    [columns_]; a group without a number is dropped; the remaining groups
    are spread, one output row per index key and one output column per
    value of [columns_], a cell without a group being missing;
    [reset_index] then inserts the index columns in front.

    The call raises for an unknown label ([KeyError]), for an index label
    given twice and for a value of [columns_] that is an index label (the
    [ValueError] "cannot insert ..., already exists" of [reset_index]).

    Not described are the calls in which [index] is empty, [columns_] or
    [values] is one of the index columns, [values] is [columns_], or a
    value of [columns_] is no text: the labels of a frame are strings
    here. *)
Definition pivot_table (df : DataFrame) (index : list string) (columns_ values : string)
  : outcome DataFrame :=
  if negb (has_column df values) then Raises
  else
    match groupby df (index ++ [columns_]) with
    | None => Raises
    | Some gs =>
        if negb (distinct index) then Raises
        else if (List.length index =? 0) || PyStr.mem columns_ index
                || PyStr.mem values (index ++ [columns_]) then NotDescribed
        else
          let agged :=
            flat_map
              (fun g =>
                 match mean (numeric_values (columns df) values (rows (snd g))) with
                 | Some m => [(fst g, m)]
                 | None => []
                 end) gs in
          let index_keys := dedup key_eqb (map (fun a => removelast (fst a)) agged) in
          let column_keys :=
            sort_by cell_leb (dedup cell_eqb (map (fun a => last (fst a) CNaN) agged)) in
          match text_labels column_keys with
          | None => NotDescribed
          | Some labels =>
              if existsb (fun l => PyStr.mem l index) labels then Raises
              else
                Returns
                  (mkDataFrame (index ++ labels)
                     (map (fun ik =>
                             ik ++ map (fun ck =>
                                          match find (fun a => key_eqb (fst a) (ik ++ [ck]))
                                                  agged with
                                          | Some a => CNum (snd a)
                                          | None => CNaN
                                          end) column_keys)
                          index_keys))
          end
    end.

Section Wide.

Context {P : Pandas}.

(** The pivot of the wide branch of [main]: the value column is made
    numeric and rounded, then pivoted on ["Pollutant Name"] over the
    grouping columns and the date. *)
Definition wide_pivot (df : DataFrame) (group_cols : list string) (date_col val_col : string)
  : outcome DataFrame :=
  if negb (has_column df val_col) then Raises
  else
    let df := assign df val_col
                (fun r => to_numeric_round3 (cell_at (columns df) r val_col)) in
    let index_cols := group_cols ++ [date_col] in
    pivot_table df index_cols "Pollutant Name" val_col.

(** ** The per-group sheet split *)

(** The sheet name of one group: the present key values joined by ["-"],
    ["Sheet1"] for none, sanitized. *)
Definition sheet_of_keys (keys : key) : string :=
  let sheet := PyStr.join "-" (map py_str (filter notna keys)) in
  safe_sheet_name (Some (if PyStr.falsy (Some sheet) then "Sheet1" else sheet)).

(** The sheet left by writing the table [sub] over a sheet that holds the
    table [old]: the header and the rows of [sub] from the top and, below
    them, the rows of [old] that [sub] does not reach.  (The tables that
    one loop writes have the same columns.) *)
Definition overwrite (old sub : DataFrame) : DataFrame :=
  mkDataFrame (columns sub) (rows sub ++ skipn (List.length (rows sub)) (rows old)).

(** One call [sub.to_excel(writer, sheet_name=sheet, index=False)] on the
    open workbook, a list of sheets in the order of their creation, each
    under the name it was written to.  A name that the workbook does not
    have yet opens a new sheet; a name that it has already addresses the
    existing sheet, whose cells are written over. *)
Fixpoint to_excel (book : list (string * DataFrame)) (sheet : string) (sub : DataFrame)
  : list (string * DataFrame) :=
  match book with
  | [] => [(sheet, sub)]
  | (name, old) :: rest =>
      if String.eqb name sheet then (name, overwrite old sub) :: rest
      else (name, old) :: to_excel rest sheet sub
  end.

(** The workbook after a sequence of writes. *)
Definition write_sheets (writes : list (string * DataFrame)) : list (string * DataFrame) :=
  fold_left (fun book w => to_excel book (fst w) (snd w)) writes [].

(** The sheets of the workbook that the workbook branch of [main] saves:
    one write per group of [groupby], or the whole table as ["All"] when
    there is no grouping column.  [None] is an exception: the [KeyError]
    of an unknown grouping column, or the [IndexError] with which the
    writer closes a workbook that was given no sheet. *)
Definition sheet_split (df : DataFrame) (group_cols : list string)
  : option (list (string * DataFrame)) :=
  match group_cols with
  | [] => Some [("All", df)]
  | _ :: _ =>
      match groupby df group_cols with
      | None => None
      | Some gs =>
          match write_sheets (map (fun g => (sheet_of_keys (fst g), snd g)) gs) with
          | [] => None
          | book => Some book
          end
      end
  end.

End Wide.

(** ** A concrete instance for worked examples *)

Definition digit (c : ascii) : option Z :=
  let n := nat_of_ascii c in
  if (48 <=? n) && (n <=? 57) then Some (Z.of_nat (n - 48)) else None.

(** The value of a non-empty string of decimal digits. *)
Fixpoint digits (acc : Z) (s : string) : option Z :=
  match s with
  | EmptyString => Some acc
  | String c r =>
      match digit c with
      | Some d => digits (10 * acc + d)%Z r
      | None => None
      end
  end.

(** Dates written [YYYY-MM-DD]. *)
Definition iso_date (s : string) : option Date :=
  if (String.length s =? 10) && String.eqb (substring 4 1 s) "-"
     && String.eqb (substring 7 1 s) "-" then
    match digits 0 (substring 0 4 s), digits 0 (substring 5 2 s), digits 0 (substring 8 2 s) with
    | Some y, Some m, Some d => Some (y * 10000 + m * 100 + d)%Z
    | _, _, _ => None
    end
  else None.

(** Whole numbers written in decimal digits. *)
Definition whole_number (s : string) : option Q :=
  match s with
  | EmptyString => None
  | _ => option_map inject_Z (digits 0 s)
  end.

#[export] Instance sample_pandas : Pandas := {|
  parse_datetime := iso_date;
  epoch_date := fun _ => Some 19700101%Z;
  parse_number := whole_number;
  repr_num := fun q => NilZero.string_of_int (Z.to_int (Qfloor q));
  repr_date := fun d => NilZero.string_of_int (Z.to_int d)
|}.

(** ** Reference descriptions used by the statements *)

(** The label of the pollutant at position [i] of the sorted names. *)
Definition label_at (use_abc : bool) (i : nat) (p : string) : string :=
  if use_abc then
    match String.get i abc with
    | Some letter => letter_label letter p
    | None => p
    end
  else p.

(** The names paired with their labels, positions counted from [i]. *)
Fixpoint labelled (use_abc : bool) (i : nat) (ps : list string) : dict :=
  match ps with
  | [] => []
  | p :: rest => (p, label_at use_abc i p) :: labelled use_abc (S i) rest
  end.

(** Twenty-seven distinct pollutant names. *)
Definition pollutants27 : list string :=
  ["a"; "b"; "c"; "d"; "e"; "f"; "g"; "h"; "i"; "j"; "k"; "l"; "m"; "n";
   "o"; "p"; "q"; "r"; "s"; "t"; "u"; "v"; "w"; "x"; "y"; "z"; "zz"].

(** The rows of a frame that share the index key [ik] and the pollutant
    name [p]. *)
Definition rows_sharing (df : DataFrame) (index : list string) (ik : key) (p : string)
  : list row :=
  filter (fun r => key_eqb (key_of (columns df) index r) ik
                   && cell_eqb (cell_at (columns df) r "Pollutant Name") (CStr p))
         (rows df).

(** The total number of rows of a list of tables. *)
Definition total_rows {K : Type} (tables : list (K * DataFrame)) : nat :=
  list_sum (map (fun t => List.length (rows (snd t))) tables).

(** ** Tables of the worked examples *)

Definition jan10 : cell := CDate 20250110%Z.

(** Two pollutants measured in Maryland on one day, NO2 twice. *)
Definition maryland_df : DataFrame :=
  mkDataFrame ["Pollutant Name"; "Arithmetic Mean"; "Date"; "State"]
    [[CStr "NO2"; CNum (152 # 10); jan10; CStr "Maryland"];
     [CStr "PM2.5"; CNum (981 # 100); jan10; CStr "Maryland"];
     [CStr "NO2"; CNum (16 # 1); jan10; CStr "Maryland"]].

(** The NO2 value could not be read as a number. *)
Definition unmeasured_df : DataFrame :=
  mkDataFrame ["Pollutant Name"; "Arithmetic Mean"; "Date"; "State"]
    [[CStr "NO2"; CNaN; jan10; CStr "Maryland"];
     [CStr "PM2.5"; CNum (981 # 100); jan10; CStr "Maryland"]].

(** The state of the second row is blank. *)
Definition blank_state_df : DataFrame :=
  mkDataFrame ["Pollutant Name"; "Date"; "Arithmetic Mean"; "State"]
    [[CStr "NO2"; jan10; CNum (152 # 10); CStr "Maryland"];
     [CStr "PM2.5"; jan10; CNum (981 # 100); CNaN]].

(** A pollutant that is named like the grouping column. *)
Definition state_named_df : DataFrame :=
  mkDataFrame ["Pollutant Name"; "Arithmetic Mean"; "Date"; "State"]
    [[CStr "State"; CNum (152 # 10); jan10; CStr "Maryland"]].

(** Two sites whose names differ in a character that a sheet name cannot
    hold. *)
Definition two_sites_df : DataFrame :=
  mkDataFrame ["Pollutant Name"; "Date"; "Arithmetic Mean"; "Site"]
    [[CStr "NO2"; jan10; CNum (152 # 10); CStr "A/B"];
     [CStr "PM2.5"; jan10; CNum (981 # 100); CStr "A:B"]].

(** A file as [pd.read_csv] returns it: the dates are text, under the
    label of the EPA files. *)
Definition epa_df : DataFrame :=
  mkDataFrame ["Pollutant Name"; "Arithmetic Mean"; "Date Local"; "State"]
    [[CStr "NO2"; CNum (152 # 10); CStr "2025-01-10"; CStr "Maryland"]].

(** A file without the default value column. *)
Definition max_value_df : DataFrame :=
  mkDataFrame ["Pollutant Name"; "1st Max Value"; "Date"; "State"]
    [[CStr "NO2"; CNum (152 # 10); CStr "2025-01-10"; CStr "Maryland"]].

(** Every dialog cancelled. *)
Definition no_answers : Answers := mkAnswers None None None None.

(** The user asks for a custom grouping by three columns. *)
Definition custom_answers : Answers :=
  mkAnswers None None (Some " Custom ") (Some "State, Foo,Bar").

(** The characters that a sheet name must not contain. *)
Definition forbidden_sheet_char (c : ascii) : bool :=
  existsb (Ascii.eqb c) ["/"; ":"; "\"; "*"; "?"; "["; "]"]%char.

(** The user asks for grouping by state. *)
Definition state_answers : Answers := mkAnswers None None (Some " State ") None.

(** [c in s] for a character. *)
Fixpoint has_char (c : ascii) (s : string) : bool :=
  match s with
  | EmptyString => false
  | String a r => Ascii.eqb a c || has_char c r
  end.

(** [[c] if c else []] *)
Definition opt_list (c : option string) : list string :=
  match c with
  | Some x => [x]
  | None => []
  end.

(** ** The column layout of the wide table *)

(** The new label of a column under a rename map: its entry, or the old
    label when it has none. *)
Definition renamed (m : dict) (c : string) : string :=
  match dict_get m c with
  | Some l => l
  | None => c
  end.

(** [df.rename(columns=m)] *)
Definition rename (df : DataFrame) (m : dict) : DataFrame :=
  mkDataFrame (map (renamed m) (columns df)) (rows df).

(** [[m[p] for p in keys]]; [None] is the [KeyError] of a key without
    entry. *)
Fixpoint lookup_all (m : dict) (keys : list string) : option (list string) :=
  match keys with
  | [] => Some []
  | p :: rest =>
      match dict_get m p, lookup_all m rest with
      | Some l, Some ls => Some (l :: ls)
      | _, _ => None
      end
  end.

(** The relabelling and reordering of the pivoted table in the wide
    branch of [main]: the columns that are no index columns get their
    labels from [label_style_map]; the date column and the labelled
    columns come first, the other columns after them.  [None] is the
    [IndexError] of [label_style_map]. *)
Definition label_columns (wide : DataFrame) (index_cols : list string) (date_col : string)
    (use_abc : bool) : option DataFrame :=
  let pol_cols := filter (fun c => negb (PyStr.mem c index_cols)) (columns wide) in
  match label_style_map pol_cols use_abc with
  | None => None
  | Some rename_map =>
      let wide := rename wide rename_map in
      match lookup_all rename_map pol_cols with
      | None => None
      | Some pol_named =>
          let front :=
            if String.eqb date_col "Date" then "Date" :: pol_named
            else date_col :: pol_named in
          let remaining := filter (fun c => negb (PyStr.mem c front)) (columns wide) in
          let ordered_cols :=
            filter (fun c => PyStr.mem c (columns wide)) front ++ remaining in
          Some (select wide ordered_cols)
      end
  end.

(** The pivoted table of the worked example. *)
Definition maryland_wide : DataFrame :=
  mkDataFrame ["State"; "Date"; "NO2"; "PM2.5"]
    [[CStr "Maryland"; jan10; CNum (156 # 10); CNum (981 # 100)]].

(** ** The optional filter *)

(** A Python [float]: a number, or one of [nan], [inf], [-inf]. *)
Inductive pyfloat : Type :=
| Finite (q : Q)
| NonFinite.

(** The conversions of Python that [filter_df] calls on the text the user
    types. *)
Class PyText : Type := {
  (** [float(text)]; [None] is its [ValueError] *)
  py_float : string -> option pyfloat;
  (** the search of [str.contains(pattern, case=False)], a regular
      expression search that ignores case; [None] is the error of a
      pattern that does not compile *)
  regex_search : string -> option (string -> bool)
}.

(** The answers to the dialogs of [filter_df]; [None] is a cancelled
    dialog. *)
Record FilterAnswers : Type := mkFilterAnswers {
  wants_filter : bool;
  filter_type : option string;
  coordinates_text : option string;
  keyword : option string
}.

Definition FILTER_KEYS (k : string) : list string :=
  if String.eqb k "state" then ["State Name"; "State"]
  else if String.eqb k "city" then ["City Name"; "City"]
  else if String.eqb k "county" then ["County Name"; "County"]
  else if String.eqb k "site" then ["Site Num"; "Site Number"]
  else if String.eqb k "cbsa" then
    ["CBSA Name"; "CBSA"; "CBSA Name (2018)"; "CBSA Code"; "CBSA_Code"]
  else if String.eqb k "coordinates" then
    ["Latitude"; "Site Latitude"; "Lat"; "Longitude"; "Site Longitude"; "Lon"; "Long"]
  else [].

(** [df[mask]] for a mask computed row by row; a row on which the mask
    raises makes the whole selection raise. *)
Fixpoint filter_opt (f : row -> option bool) (rs : list row) : option (list row) :=
  match rs with
  | [] => Some []
  | r :: rest =>
      match f r, filter_opt f rest with
      | Some true, Some l => Some (r :: l)
      | Some false, Some l => Some l
      | _, _ => None
      end
  end.

(** One element of [col.round(3) == round(x, 3)], both roundings taken
    on the exact values: a missing cell equals nothing; [round] on a
    column that holds text or dates raises. *)
Definition coordinate_match (x : pyfloat) (c : cell) : option bool :=
  match c with
  | CNum q =>
      Some (match x with
            | Finite t => Qeq_bool (round3 q) (round3 t)
            | NonFinite => false
            end)
  | CNaN => Some false
  | _ => None
  end.

Section Filter.

Context {P : Pandas} {T : PyText}.

(** The [try] block of the coordinates filter: exactly two pieces around
    one comma, both read as floats; [None] is the caught exception. *)
Definition parse_coordinates (kw : option string) : option (pyfloat * pyfloat) :=
  match kw with
  | None => None
  | Some kw =>
      match map PyStr.strip (PyStr.split_comma kw) with
      | [lat_str; lon_str] =>
          match py_float lat_str with
          | None => None
          | Some lat =>
              match py_float lon_str with
              | None => None
              | Some lon => Some (lat, lon)
              end
          end
      | _ => None
      end
  end.

(** [filter_df]; [None] is an exception that the function does not
    catch. *)
Definition filter_df (a : FilterAnswers) (df : DataFrame) : option DataFrame :=
  if negb (wants_filter a) then Some df
  else
    match ask_choice (filter_type a)
            ["state"; "city"; "county"; "site"; "cbsa"; "coordinates"] with
    | None => Some df
    | Some ftype =>
        if String.eqb ftype "coordinates" then
          match coalesce df (firstn 3 (FILTER_KEYS "coordinates")),
                coalesce df (skipn 3 (FILTER_KEYS "coordinates")) with
          | Some lat_col, Some lon_col =>
              match parse_coordinates (coordinates_text a) with
              | None => Some df
              | Some (lat, lon) =>
                  option_map (mkDataFrame (columns df))
                    (filter_opt
                       (fun r =>
                          match coordinate_match lat (cell_at (columns df) r lat_col),
                                coordinate_match lon (cell_at (columns df) r lon_col) with
                          | Some x, Some y => Some (x && y)
                          | _, _ => None
                          end)
                       (rows df))
              end
          | _, _ => Some df
          end
        else
          match coalesce df (FILTER_KEYS ftype) with
          | None => Some df
          | Some col =>
              match keyword a with
              | None => Some df
              | Some kw =>
                  if PyStr.falsy (Some kw) then Some df
                  else
                    match regex_search kw with
                    | None => None
                    | Some found =>
                        Some (mkDataFrame (columns df)
                                (filter (fun r => found (py_str (cell_at (columns df) r col)))
                                        (rows df)))
                    end
              end
          end
    end.

End Filter.

(** An instance for worked examples: whole numbers as floats, patterns
    without special characters. *)
#[export] Instance sample_text : PyText := {|
  py_float := fun s => option_map Finite (whole_number s);
  regex_search := fun pat =>
    Some (fun s => match String.index 0 (PyStr.lower pat) (PyStr.lower s) with
                   | Some _ => true
                   | None => false
                   end)
|}.

(** Sites with their coordinates. *)
Definition sites_df : DataFrame :=
  mkDataFrame ["State Name"; "Latitude"; "Longitude"]
    [[CStr "Maryland"; CNum (39 # 1); CNum (-76 # 1)];
     [CStr "Iowa"; CNum (42 # 1); CNum (-93 # 1)];
     [CStr "Maryland"; CNaN; CNum (-76 # 1)]].

(** * Properties *)

(** ** Sheet names *)

Lemma replace_map_string (old new : ascii) (s : string) :
  PyStr.replace old new s = map_string (fun c => if Ascii.eqb c old then new else c) s.
Proof. induction s as [|c r IH]; simpl; [reflexivity | now rewrite IH]. Qed.

Lemma map_string_compose (f g : ascii -> ascii) (s : string) :
  map_string g (map_string f s) = map_string (fun c => g (f c)) s.
Proof. induction s as [|c r IH]; simpl; [reflexivity | now rewrite IH]. Qed.

Lemma map_string_ext (f g : ascii -> ascii) (s : string) :
  (forall c, f c = g c) -> map_string f s = map_string g s.
Proof. intros E; induction s as [|c r IH]; simpl; [reflexivity | now rewrite E, IH]. Qed.

Lemma map_string_length (f : ascii -> ascii) (s : string) :
  String.length (map_string f s) = String.length s.
Proof. induction s as [|c r IH]; simpl; [reflexivity | now rewrite IH]. Qed.

Lemma map_string_get (f : ascii -> ascii) (s : string) (i : nat) :
  String.get i (map_string f s) = option_map f (String.get i s).
Proof.
  revert i; induction s as [|c r IH]; intros i; simpl; [reflexivity|].
  destruct i; simpl; [reflexivity | apply IH].
Qed.

Lemma slice_to_length (n : nat) (s : string) :
  String.length (PyStr.slice_to n s) = Nat.min n (String.length s).
Proof.
  unfold PyStr.slice_to; revert s; induction n as [|n IH]; intros s.
  - destruct s; reflexivity.
  - destruct s as [|c r]; simpl; [reflexivity | now rewrite IH].
Qed.

Lemma slice_to_all (n : nat) (s : string) :
  String.length s <= n -> PyStr.slice_to n s = s.
Proof.
  unfold PyStr.slice_to; revert s; induction n as [|n IH]; intros s H.
  - destruct s; simpl in *; [reflexivity | lia].
  - destruct s as [|c r]; simpl in *; [reflexivity|].
    rewrite IH by lia; reflexivity.
Qed.

Lemma slice_to_get (n : nat) (s : string) (i : nat) (c : ascii) :
  String.get i (PyStr.slice_to n s) = Some c -> i < n /\ String.get i s = Some c.
Proof.
  unfold PyStr.slice_to; revert s i; induction n as [|n IH]; intros s i H.
  - destruct s; simpl in H; discriminate.
  - destruct s as [|c0 r]; simpl in H; [discriminate|].
    destruct i as [|i]; simpl in *.
    + split; [lia | exact H].
    + apply IH in H. split; [lia | tauto].
Qed.

(** The seven replacements of [safe_sheet_name], one after the other, are
    the fixed mapping applied to every character. *)
Lemma sanitize_chain (s : string) :
  PyStr.replace "]" ")"
    (PyStr.replace "[" "("
       (PyStr.replace "?" "-"
          (PyStr.replace "*" "-"
             (PyStr.replace "\" "-" (PyStr.replace ":" "-" (PyStr.replace "/" "-" s))))))
  = map_string sheet_char_spec s.
Proof.
  rewrite !replace_map_string, !map_string_compose.
  apply map_string_ext.
  intros c; destruct c as [[] [] [] [] [] [] [] []]; reflexivity.
Qed.

Lemma safe_sheet_name_some (s : string) :
  s <> "" -> safe_sheet_name (Some s) = PyStr.slice_to 31 (map_string sheet_char_spec s).
Proof.
  intros Hne. unfold safe_sheet_name.
  destruct s as [|c r]; [congruence|].
  cbv beta iota delta [PyStr.falsy]. cbv zeta.
  rewrite sanitize_chain.
  destruct (31 <? String.length (map_string sheet_char_spec (String c r))) eqn:E.
  - reflexivity.
  - apply Nat.ltb_ge in E. symmetry. now apply slice_to_all.
Qed.

(** C2.  [safe_sheet_name] answers ["Sheet1"] for [None] and for the empty
    string; for every other string it is the first 31 characters of the
    string in which ['/'], [':'], ['\'], ['*'] and ['?'] are each replaced
    by ['-'], ['['] by ['('] and [']'] by [')'] and nothing else is
    changed: a string longer than 31 characters comes back with exactly
    31, a shorter one with its own length. *)
Theorem safe_sheet_name_sanitizes :
  safe_sheet_name None = "Sheet1" /\
  safe_sheet_name (Some "") = "Sheet1" /\
  forall s : string, s <> "" ->
    safe_sheet_name (Some s) = PyStr.slice_to 31 (map_string sheet_char_spec s) /\
    String.length (safe_sheet_name (Some s)) = Nat.min 31 (String.length s) /\
    (31 < String.length s -> String.length (safe_sheet_name (Some s)) = 31) /\
    (forall i c, String.get i (safe_sheet_name (Some s)) = Some c ->
       i < 31 /\ exists c0, String.get i s = Some c0 /\ c = sheet_char_spec c0).
Proof.
  split; [reflexivity|]. split; [reflexivity|].
  intros s Hne. rewrite (safe_sheet_name_some s Hne).
  split; [reflexivity|].
  rewrite slice_to_length, map_string_length.
  split; [reflexivity|]. split; [lia|].
  intros i c H. apply slice_to_get in H. destruct H as [Hi H].
  split; [exact Hi|].
  rewrite map_string_get in H.
  destruct (String.get i s) as [c0|]; simpl in H; [|discriminate].
  exists c0. split; [reflexivity | congruence].
Qed.

Lemma safe_sheet_name_sanitizes_witness :
  "a/b:c\d*e?f[g]hijklmnopqrstuvwxyz0123456789" <> "" /\
  safe_sheet_name (Some "a/b:c\d*e?f[g]hijklmnopqrstuvwxyz0123456789")
  = "a-b-c-d-e-f(g)hijklmnopqrstuvwx".
Proof.
  split; [discriminate|].
  destruct safe_sheet_name_sanitizes as [_ [_ H]].
  destruct (H "a/b:c\d*e?f[g]hijklmnopqrstuvwxyz0123456789") as [E _]; [discriminate|].
  rewrite E. reflexivity.
Defined.

(** ** Sorting *)

Section SortPerm.

Variable A : Type.
Variable leb : A -> A -> bool.

Lemma insert_by_perm (x : A) (l : list A) : Permutation (insert_by leb x l) (x :: l).
Proof.
  induction l as [|y t IH]; simpl.
  - apply Permutation_refl.
  - destruct (leb x y).
    + apply Permutation_refl.
    + eapply Permutation_trans; [apply perm_skip, IH | apply perm_swap].
Qed.

Lemma sort_by_perm (l : list A) : Permutation (sort_by leb l) l.
Proof.
  induction l as [|x t IH]; simpl.
  - apply perm_nil.
  - eapply Permutation_trans; [apply insert_by_perm | apply perm_skip, IH].
Qed.

Lemma sort_by_length (l : list A) : List.length (sort_by leb l) = List.length l.
Proof. apply Permutation_length, sort_by_perm. Qed.

Lemma sort_by_In (l : list A) (x : A) : In x (sort_by leb l) <-> In x l.
Proof.
  split; apply Permutation_in; [apply sort_by_perm | apply Permutation_sym, sort_by_perm].
Qed.

End SortPerm.

Section SortOrder.

Variable A : Type.
Variable leb : A -> A -> bool.
Hypothesis leb_total : forall a b, leb a b = true \/ leb b a = true.
Hypothesis leb_trans : forall a b c, leb a b = true -> leb b c = true -> leb a c = true.

Lemma insert_by_sorted (x : A) (l : list A) :
  StronglySorted (fun a b => leb a b = true) l -> StronglySorted (fun a b => leb a b = true) (insert_by leb x l).
Proof.
  induction 1 as [|y t Ht IH Hy]; simpl.
  - constructor; [constructor | constructor].
  - destruct (leb x y) eqn:E.
    + constructor.
      * constructor; assumption.
      * constructor; [exact E|].
        eapply Forall_impl; [|exact Hy]. intros z Hz. eapply leb_trans; eauto.
    + constructor; [exact IH|].
      assert (Hyx : leb y x = true) by (destruct (leb_total x y); [congruence | assumption]).
      rewrite Forall_forall. intros z Hz.
      apply (Permutation_in _ (insert_by_perm A leb x t)) in Hz.
      destruct Hz as [<- | Hz]; [exact Hyx|].
      rewrite Forall_forall in Hy. now apply Hy.
Qed.

Lemma sort_by_sorted (l : list A) : StronglySorted (fun a b => leb a b = true) (sort_by leb l).
Proof.
  induction l as [|x t IH]; simpl; [constructor | now apply insert_by_sorted].
Qed.

Hypothesis leb_antisym : forall a b, leb a b = true -> leb b a = true -> a = b.

Lemma sorted_perm_unique (l1 l2 : list A) :
  StronglySorted (fun a b => leb a b = true) l1 -> StronglySorted (fun a b => leb a b = true) l2 -> Permutation l1 l2 -> l1 = l2.
Proof.
  intros H1; revert l2; induction H1 as [|x t1 Ht1 IH Hx]; intros l2 H2 Hp.
  - apply Permutation_nil in Hp. now subst.
  - destruct H2 as [|y t2 Ht2 Hy].
    + apply Permutation_sym, Permutation_nil in Hp. discriminate.
    + assert (x = y) as ->.
      { assert (Hin1 : In x (y :: t2)) by (eapply Permutation_in; [exact Hp | now left]).
        assert (Hin2 : In y (x :: t1))
          by (eapply Permutation_in; [apply Permutation_sym, Hp | now left]).
        destruct Hin1 as [E | Hin1]; [now subst|].
        destruct Hin2 as [E | Hin2]; [now subst|].
        rewrite Forall_forall in Hx, Hy.
        apply leb_antisym; [now apply Hx | now apply Hy]. }
      f_equal. apply IH; [exact Ht2|]. eapply Permutation_cons_inv; exact Hp.
Qed.

Lemma sort_by_perm_eq (l1 l2 : list A) :
  Permutation l1 l2 -> sort_by leb l1 = sort_by leb l2.
Proof.
  intros Hp. apply sorted_perm_unique; try apply sort_by_sorted.
  eapply Permutation_trans; [apply sort_by_perm|].
  eapply Permutation_trans; [exact Hp | apply Permutation_sym, sort_by_perm].
Qed.

End SortOrder.

(** The order of Python on strings is transitive. *)
Lemma string_leb_trans (a b c : string) :
  String.leb a b = true -> String.leb b c = true -> String.leb a c = true.
Proof.
  unfold String.leb.
  revert b c; induction a as [|x a IH]; intros b c Hab Hbc.
  - destruct c; reflexivity.
  - destruct b as [|y b]; [discriminate|].
    destruct c as [|z c]; [discriminate|].
    simpl in *. unfold Ascii.compare in *.
    destruct (N.compare_spec (N_of_ascii x) (N_of_ascii y)) as [Exy|Lxy|Gxy];
      destruct (N.compare_spec (N_of_ascii y) (N_of_ascii z)) as [Eyz|Lyz|Gyz];
      try discriminate;
      destruct (N.compare_spec (N_of_ascii x) (N_of_ascii z)) as [Exz|Lxz|Gxz];
      try reflexivity; try lia.
    apply (IH b c); assumption.
Qed.

Lemma sorted_perm_eq (l1 l2 : list string) :
  Permutation l1 l2 -> PyStr.sorted l1 = PyStr.sorted l2.
Proof.
  apply sort_by_perm_eq.
  - apply String.leb_total.
  - apply string_leb_trans.
  - apply String.leb_antisym.
Qed.

Lemma sorted_strongly (l : list string) :
  StronglySorted (fun a b => String.leb a b = true) (PyStr.sorted l).
Proof. apply sort_by_sorted; [apply String.leb_total | apply string_leb_trans]. Qed.

(** ** Pollutant labels *)

Lemma abc_get_some (i : nat) : i < 26 -> exists c, String.get i abc = Some c.
Proof.
  intros H. do 26 (destruct i as [|i]; [eexists; reflexivity|]). lia.
Qed.

Lemma abc_get_none (i : nat) : 26 <= i -> String.get i abc = None.
Proof.
  intros H. do 26 (destruct i as [|i]; [lia|]). destruct i; reflexivity.
Qed.

Lemma append_paren_inj (p q : string) : (p ++ ")")%string = (q ++ ")")%string -> p = q.
Proof.
  revert q; induction p as [|a p IH]; intros q H; destruct q as [|b q]; simpl in H.
  - reflexivity.
  - injection H as _ H. destruct q; discriminate.
  - injection H as _ H. destruct p; discriminate.
  - injection H as -> H. f_equal. now apply IH.
Qed.

Lemma letter_label_inj (c d : ascii) (p q : string) :
  letter_label c p = letter_label d q -> p = q.
Proof.
  unfold letter_label; simpl. intros H. injection H as _ H. now apply append_paren_inj.
Qed.

Lemma label_at_inj (b : bool) (i j : nat) (p q : string) :
  (b = true -> i < 26 /\ j < 26) -> label_at b i p = label_at b j q -> p = q.
Proof.
  unfold label_at. destruct b; [|trivial].
  intros H. destruct H as [Hi Hj]; [reflexivity|].
  destruct (abc_get_some i Hi) as [c ->], (abc_get_some j Hj) as [d ->].
  apply letter_label_inj.
Qed.

Lemma dict_set_fresh (d : dict) (k v : string) :
  ~ In k (map fst d) -> dict_set d k v = d ++ [(k, v)].
Proof.
  induction d as [|[k' v'] t IH]; simpl; intros H; [reflexivity|].
  destruct (String.eqb_spec k k') as [->|_]; [tauto|].
  rewrite IH by tauto. reflexivity.
Qed.

(** On distinct names not yet in the dictionary, the loop appends the
    name–label pairs in the order of the names. *)
Lemma label_loop_labelled (b : bool) (ps : list string) :
  forall (i : nat) (out : dict),
    NoDup ps ->
    (forall p, In p ps -> ~ In p (map fst out)) ->
    (b = true -> i + List.length ps <= 26) ->
    label_loop b i ps out = Some (out ++ labelled b i ps).
Proof.
  induction ps as [|p rest IH]; intros i out Hnd Hfresh Hlen; cbn [label_loop labelled].
  - now rewrite app_nil_r.
  - inversion Hnd as [|? ? Hp Hrest]; subst.
    assert (Hstep : forall v, label_loop b (S i) rest (dict_set out p v)
                              = Some ((out ++ [(p, v)]) ++ labelled b (S i) rest)).
    { intros v. rewrite dict_set_fresh by (apply Hfresh; now left).
      apply IH; [exact Hrest | |].
      - intros q Hq. rewrite map_app, in_app_iff. simpl.
        intros [Hin | [E | []]].
        + apply (Hfresh q); [now right | exact Hin].
        + subst. contradiction.
      - intros E. specialize (Hlen E). cbn [List.length] in Hlen. lia. }
    unfold label_at. destruct b.
    + destruct (abc_get_some i) as [c Hc];
        [specialize (Hlen eq_refl); cbn [List.length] in Hlen; lia|].
      rewrite Hc, Hstep, <- app_assoc. reflexivity.
    + rewrite Hstep, <- app_assoc. reflexivity.
Qed.

Lemma labelled_keys (b : bool) (ps : list string) (i : nat) :
  map fst (labelled b i ps) = ps.
Proof. revert i; induction ps as [|p r IH]; intros i; simpl; [reflexivity | now rewrite IH]. Qed.

Lemma labelled_nth (b : bool) (ps : list string) (i j : nat) (p : string) :
  nth_error ps j = Some p -> nth_error (labelled b i ps) j = Some (p, label_at b (i + j) p).
Proof.
  revert i j; induction ps as [|q r IH]; intros i j H; destruct j; simpl in *; try discriminate.
  - injection H as ->. now rewrite Nat.add_0_r.
  - replace (i + S j) with (S i + j) by lia. now apply IH.
Qed.

Lemma labelled_values_In (b : bool) (ps : list string) (i : nat) (x : string) :
  In x (map snd (labelled b i ps)) ->
  exists q j, In q ps /\ i <= j < i + List.length ps /\ x = label_at b j q.
Proof.
  revert i; induction ps as [|p r IH]; intros i; simpl; [tauto|].
  intros [E | H].
  - exists p, i. repeat split; auto; lia.
  - destruct (IH (S i) H) as (q & j & Hq & Hj & E).
    exists q, j. repeat split; auto; lia.
Qed.

Lemma labelled_values_NoDup (b : bool) (ps : list string) (i : nat) :
  NoDup ps -> (b = true -> i + List.length ps <= 26) -> NoDup (map snd (labelled b i ps)).
Proof.
  revert i; induction ps as [|p r IH]; intros i Hnd Hlen; simpl; [constructor|].
  inversion Hnd as [|? ? Hp Hr]; subst.
  constructor.
  - intros H. apply labelled_values_In in H. destruct H as (q & j & Hq & Hj & E).
    apply label_at_inj in E.
    + subst. contradiction.
    + intros Eb. specialize (Hlen Eb). simpl in Hlen. lia.
  - apply IH; [exact Hr|]. intros Eb. specialize (Hlen Eb). simpl in Hlen. lia.
Qed.

Lemma label_style_map_labelled (ps : list string) (b : bool) :
  NoDup ps -> (b = true -> List.length ps <= 26) ->
  label_style_map ps b = Some (labelled b 0 (PyStr.sorted ps)).
Proof.
  intros Hnd Hlen. unfold label_style_map.
  rewrite label_loop_labelled; [reflexivity | | tauto |].
  - eapply Permutation_NoDup; [apply Permutation_sym, sort_by_perm | exact Hnd].
  - intros E. unfold PyStr.sorted. rewrite sort_by_length. simpl. auto.
Qed.

(** C5, as amended.  For distinct pollutant names, at most 26 of them
    when letter labels are enabled, [label_style_map] returns a dictionary
    whose keys are the names in ascending order and whose values are, in
    that order, ["Pollutant A (<name>)"], ["Pollutant B (<name>)"], ...
    (the letter at the position of the name) or the raw names; no label
    occurs twice, and the names given in any other order yield the same
    dictionary. *)
Theorem label_style_map_sorted_unique (ps : list string) (use_abc : bool) :
  NoDup ps ->
  (use_abc = true -> List.length ps <= 26) ->
  exists m : dict,
    label_style_map ps use_abc = Some m /\
    map fst m = PyStr.sorted ps /\
    StronglySorted (fun a b => String.leb a b = true) (PyStr.sorted ps) /\
    Permutation (PyStr.sorted ps) ps /\
    (forall i p, nth_error (PyStr.sorted ps) i = Some p ->
       if use_abc
       then exists c, String.get i abc = Some c /\ nth_error m i = Some (p, letter_label c p)
       else nth_error m i = Some (p, p)) /\
    NoDup (map snd m) /\
    (forall ps', Permutation ps ps' -> label_style_map ps' use_abc = Some m).
Proof.
  intros Hnd Hlen. exists (labelled use_abc 0 (PyStr.sorted ps)).
  assert (Hsl : List.length (PyStr.sorted ps) = List.length ps)
    by apply sort_by_length.
  split; [now apply label_style_map_labelled|].
  split; [apply labelled_keys|].
  split; [apply sorted_strongly|].
  split; [apply sort_by_perm|].
  split; [|split].
  - intros i p H. pose proof (labelled_nth use_abc _ 0 i p H) as Hn. simpl in Hn.
    unfold label_at in Hn. destruct use_abc; [|exact Hn].
    assert (Hi : i < 26).
    { specialize (Hlen eq_refl).
      assert (i < List.length (PyStr.sorted ps)) by (apply nth_error_Some; congruence). lia. }
    destruct (abc_get_some i Hi) as [c Hc]. rewrite Hc in Hn. now exists c.
  - apply labelled_values_NoDup.
    + eapply Permutation_NoDup; [apply Permutation_sym, sort_by_perm | exact Hnd].
    + intros E. simpl. rewrite Hsl. auto.
  - intros ps' Hp. rewrite label_style_map_labelled.
    + now rewrite (sorted_perm_eq ps' ps (Permutation_sym Hp)).
    + eapply Permutation_NoDup; eassumption.
    + intros E. rewrite <- (Permutation_length Hp). auto.
Qed.

Lemma label_style_map_sorted_unique_witness :
  exists m : dict,
    label_style_map ["PM2.5"; "NO2"; "PM10"] true = Some m /\
    m = [("NO2", "Pollutant A (NO2)"); ("PM10", "Pollutant B (PM10)");
         ("PM2.5", "Pollutant C (PM2.5)")].
Proof.
  destruct (label_style_map_sorted_unique ["PM2.5"; "NO2"; "PM10"] true) as (m & Hm & _).
  - repeat constructor; simpl; intuition discriminate.
  - intros _. simpl. lia.
  - exists m. split; [exact Hm|].
    vm_compute in Hm. now injection Hm as <-.
Defined.

(** C5 as stated fails: with letter labels, twenty-seven distinct names
    get no labels at all. *)
Lemma label_style_map_27_names_no_labels :
  ~ (forall (ps : list string) (use_abc : bool),
       NoDup ps -> exists m : dict, label_style_map ps use_abc = Some m).
Proof.
  intros H. destruct (H pollutants27 true) as [m Hm].
  - unfold pollutants27. repeat constructor; simpl; intuition discriminate.
  - vm_compute in Hm. discriminate.
Qed.

Lemma label_loop_total (ps : list string) :
  forall (i : nat) (out : dict),
    i + List.length ps <= 26 ->
    exists m, label_loop true i ps out = Some m /\
      forall p, In p ps \/ In p (map fst out) -> dict_get m p <> None.
Proof.
  assert (Hset : forall (d : dict) k v q,
             q = k \/ In q (map fst d) -> In q (map fst (dict_set d k v))).
  { induction d as [|[k' v'] t IH]; simpl; intros k v q Hq.
    - destruct Hq as [-> | []]. now left.
    - destruct (String.eqb_spec k k') as [->|Hne]; simpl.
      + destruct Hq as [-> | [-> | Hq]]; auto.
      + destruct Hq as [-> | [-> | Hq]];
          [right; apply IH; now left | now left | right; apply IH; now right]. }
  assert (Hget : forall (d : dict) q, In q (map fst d) -> dict_get d q <> None).
  { induction d as [|[k' v'] t IH]; simpl; intros q Hq; [tauto|].
    destruct (String.eqb_spec q k') as [->|Hne]; [discriminate|].
    apply IH. destruct Hq as [E | Hq]; [congruence | exact Hq]. }
  induction ps as [|p rest IH]; intros i out Hlen; cbn [label_loop List.length In] in *.
  - exists out. split; [reflexivity|]. intros q [[] | Hq]. now apply Hget.
  - destruct (abc_get_some i) as [c Hc]; [lia|]. rewrite Hc.
    destruct (IH (S i) (dict_set out p (letter_label c p))) as (m & Hm & Hall); [lia|].
    exists m. split; [exact Hm|].
    intros q Hq. apply Hall.
    destruct Hq as [[<- | Hq] | Hq]; [right | now left | right].
    + apply Hset. now left.
    + apply Hset. now right.
Qed.

Lemma label_loop_overflow (ps : list string) :
  forall (i : nat) (out : dict),
    i <= 26 -> 26 < i + List.length ps -> label_loop true i ps out = None.
Proof.
  induction ps as [|p rest IH]; intros i out Hi Hlen; cbn [label_loop List.length] in *.
  - lia.
  - destruct (String.get i abc) eqn:E; [|reflexivity].
    apply IH; [|lia].
    destruct (Nat.eq_dec i 26) as [->|]; [|lia].
    rewrite abc_get_none in E by lia. discriminate.
Qed.

(** C10.  With letter labels, [label_style_map] returns a label for every
    name of any list of at most 26 names, and raises (no result) on the
    twenty-seven distinct names of [pollutants27]; indeed on every list
    of 27 names or more. *)
Theorem label_style_map_total_up_to_26 :
  (forall ps : list string, List.length ps <= 26 ->
     exists m : dict, label_style_map ps true = Some m /\
       forall p, In p ps -> exists l, dict_get m p = Some l) /\
  (exists ps : list string,
     NoDup ps /\ 27 <= List.length ps /\ label_style_map ps true = None) /\
  (forall ps : list string, 27 <= List.length ps -> label_style_map ps true = None).
Proof.
  split; [|split].
  - intros ps Hlen. unfold label_style_map.
    destruct (label_loop_total (PyStr.sorted ps) 0 []) as (m & Hm & Hall).
    + unfold PyStr.sorted. rewrite sort_by_length. simpl. exact Hlen.
    + exists m. split; [exact Hm|].
      intros p Hp. destruct (dict_get m p) as [l|] eqn:E; [now exists l|].
      exfalso. apply (Hall p); [|exact E].
      left. unfold PyStr.sorted. now apply sort_by_In.
  - exists pollutants27. split; [|split].
    + unfold pollutants27. repeat constructor; simpl; intuition discriminate.
    + simpl. lia.
    + reflexivity.
  - intros ps Hlen. unfold label_style_map. apply label_loop_overflow; [lia|].
    unfold PyStr.sorted. rewrite sort_by_length. simpl. lia.
Qed.

Lemma label_style_map_total_up_to_26_witness :
  List.length ["NO2"; "PM2.5"] <= 26 /\
  exists m : dict, label_style_map ["NO2"; "PM2.5"] true = Some m /\
    forall p, In p ["NO2"; "PM2.5"] -> exists l, dict_get m p = Some l.
Proof.
  split; [simpl; lia|].
  destruct label_style_map_total_up_to_26 as [H _].
  apply (H ["NO2"; "PM2.5"]). simpl. lia.
Defined.

(** ** Frames *)

Lemma mem_In (x : string) (l : list string) : PyStr.mem x l = true <-> In x l.
Proof.
  unfold PyStr.mem. rewrite existsb_exists. split.
  - intros (y & Hy & E). apply String.eqb_eq in E. now subst.
  - intros H. exists x. split; [exact H | apply String.eqb_refl].
Qed.

Lemma mem_false (x : string) (l : list string) : PyStr.mem x l = false <-> ~ In x l.
Proof.
  rewrite <- mem_In. destruct (PyStr.mem x l); split; intros; congruence.
Qed.

Lemma has_column_In (df : DataFrame) (c : string) :
  has_column df c = true <-> In c (columns df).
Proof. apply mem_In. Qed.

Lemma index_of_Some (c : string) (cols : list string) (i : nat) :
  index_of c cols = Some i -> nth_error cols i = Some c.
Proof.
  revert i; induction cols as [|x t IH]; intros i; simpl; [discriminate|].
  destruct (String.eqb_spec c x) as [->|Hne].
  - intros [= <-]. reflexivity.
  - destruct (index_of c t) as [j|]; simpl; [|discriminate].
    intros [= <-]. simpl. now apply IH.
Qed.

Lemma index_of_In (c : string) (cols : list string) :
  In c cols -> exists i, index_of c cols = Some i.
Proof.
  induction cols as [|x t IH]; simpl; [tauto|].
  intros H. destruct (String.eqb_spec c x) as [->|Hne]; [now exists 0|].
  destruct IH as [i Hi]; [destruct H; congruence|].
  exists (S i). now rewrite Hi.
Qed.

Lemma index_of_None (c : string) (cols : list string) :
  ~ In c cols -> index_of c cols = None.
Proof.
  induction cols as [|x t IH]; simpl; [reflexivity|].
  intros H. destruct (String.eqb_spec c x) as [->|Hne]; [tauto|].
  rewrite IH by tauto. reflexivity.
Qed.

Lemma index_of_app_new (c : string) (cols : list string) :
  ~ In c cols -> index_of c (cols ++ [c]) = Some (List.length cols).
Proof.
  induction cols as [|x t IH]; simpl; intros H.
  - now rewrite String.eqb_refl.
  - destruct (String.eqb_spec c x) as [->|Hne]; [tauto|].
    rewrite IH by tauto. reflexivity.
Qed.

Lemma index_of_app_old (c c' : string) (cols : list string) :
  c <> c' -> index_of c (cols ++ [c']) = index_of c cols.
Proof.
  intros Hne. induction cols as [|x t IH]; simpl.
  - destruct (String.eqb_spec c c'); [contradiction | reflexivity].
  - destruct (String.eqb_spec c x); [reflexivity | now rewrite IH].
Qed.

Lemma index_of_lt (c : string) (cols : list string) (i : nat) :
  index_of c cols = Some i -> i < List.length cols.
Proof.
  intros H. apply index_of_Some in H. apply nth_error_Some. congruence.
Qed.

Lemma nth_set_nth_same (i : nat) (r : row) (v : cell) :
  i < List.length r -> nth i (set_nth i r v) CNaN = v.
Proof.
  revert i; induction r as [|x t IH]; intros i H; simpl in *; [lia|].
  destruct i; simpl; [reflexivity | apply IH; lia].
Qed.

Lemma nth_set_nth_other (i j : nat) (r : row) (v : cell) :
  i <> j -> nth j (set_nth i r v) CNaN = nth j r CNaN.
Proof.
  revert i j; induction r as [|x t IH]; intros i j H; simpl.
  - reflexivity.
  - destruct i, j; simpl; try reflexivity; [lia | apply IH; lia].
Qed.

Lemma set_nth_length (i : nat) (r : row) (v : cell) :
  List.length (set_nth i r v) = List.length r.
Proof.
  revert i; induction r as [|x t IH]; intros i; simpl; [reflexivity|].
  destruct i; simpl; [reflexivity | now rewrite IH].
Qed.

Lemma assign_cols_old (cols : list string) (c : string) :
  In c cols -> assign_cols cols c = cols.
Proof.
  intros H. unfold assign_cols. destruct (index_of_In _ _ H) as [i ->]. reflexivity.
Qed.

Lemma assign_cols_incl (cols : list string) (c x : string) :
  In x cols -> In x (assign_cols cols c).
Proof.
  intros H. unfold assign_cols. destruct (index_of c cols); [exact H|].
  apply in_or_app. now left.
Qed.

Lemma assign_cols_has (cols : list string) (c : string) : In c (assign_cols cols c).
Proof.
  unfold assign_cols. destruct (index_of c cols) as [i|] eqn:E.
  - apply index_of_Some in E. eapply nth_error_In; eauto.
  - apply in_or_app. right. now left.
Qed.

Lemma assign_cols_In (cols : list string) (c x : string) :
  In x (assign_cols cols c) -> x = c \/ In x cols.
Proof.
  unfold assign_cols. destruct (index_of c cols); [now right|].
  rewrite in_app_iff. simpl. intuition.
Qed.

Lemma assign_cols_NoDup (cols : list string) (c : string) :
  NoDup cols -> NoDup (assign_cols cols c).
Proof.
  intros H. unfold assign_cols. destruct (index_of c cols) as [i|] eqn:E; [exact H|].
  apply NoDup_app; [exact H | repeat constructor; simpl; tauto |].
  intros x Hx [<- | []]. destruct (index_of_In _ _ Hx). congruence.
Qed.

Lemma assign_row_length (cols : list string) (c : string) (f : row -> cell) (r : row) :
  List.length r = List.length cols ->
  List.length (assign_row cols c f r) = List.length (assign_cols cols c).
Proof.
  intros H. unfold assign_row, assign_cols. destruct (index_of c cols).
  - now rewrite set_nth_length.
  - rewrite !length_app. simpl. lia.
Qed.

(** Reading a row after an assignment: the assigned column holds the new
    value, every other column its old one. *)
Lemma cell_at_assign (cols : list string) (c x : string) (f : row -> cell) (r : row) :
  List.length r = List.length cols ->
  cell_at (assign_cols cols c) (assign_row cols c f r) x
  = if String.eqb x c then f r else cell_at cols r x.
Proof.
  intros Hlen. unfold assign_cols, assign_row, cell_at.
  destruct (index_of c cols) as [i|] eqn:Ec.
  - destruct (String.eqb_spec x c) as [->|Hne].
    + rewrite Ec. apply nth_set_nth_same. apply index_of_lt in Ec. lia.
    + destruct (index_of x cols) as [j|] eqn:Ex; [|reflexivity].
      apply nth_set_nth_other. intros ->.
      apply index_of_Some in Ec, Ex. congruence.
  - assert (Hnc : ~ In c cols).
    { intros H. destruct (index_of_In _ _ H). congruence. }
    destruct (String.eqb_spec x c) as [->|Hne].
    + rewrite index_of_app_new by exact Hnc.
      rewrite <- Hlen, nth_middle. reflexivity.
    + rewrite index_of_app_old by exact Hne.
      destruct (index_of x cols) as [j|] eqn:Ex; [|reflexivity].
      apply app_nth1. apply index_of_lt in Ex. lia.
Qed.

Lemma cell_at_assign_old (cols : list string) (c x : string) (f : row -> cell) (r : row) :
  In c cols -> List.length r = List.length cols ->
  cell_at cols (assign_row cols c f r) x
  = if String.eqb x c then f r else cell_at cols r x.
Proof.
  intros Hc Hlen. rewrite <- (cell_at_assign cols c x f r Hlen).
  now rewrite assign_cols_old.
Qed.

Lemma cell_at_map (cols : list string) (h : string -> cell) (c : string) :
  In c cols -> cell_at cols (map h cols) c = h c.
Proof.
  intros H. unfold cell_at. destruct (index_of_In _ _ H) as [i Hi]. rewrite Hi.
  apply index_of_Some in Hi.
  rewrite (nth_error_nth (map h cols) i CNaN (x := h c)); [reflexivity|].
  rewrite nth_error_map, Hi. reflexivity.
Qed.

Lemma pick_first_In (df : DataFrame) (names : list string) (n : string) :
  pick_first df names = Some n -> In n names /\ In n (columns df).
Proof.
  induction names as [|x t IH]; simpl; [discriminate|].
  destruct (has_column df x) eqn:E.
  - intros [= <-]. split; [now left | now apply has_column_In].
  - intros H. destruct (IH H). split; [now right | assumption].
Qed.

(** [pick_first] reads the column labels only, and finds the same name in
    a narrower frame that still has it. *)
Lemma pick_first_narrow (df df' : DataFrame) (names : list string) :
  (forall x, In x (columns df') -> In x (columns df)) ->
  (forall n, pick_first df names = Some n -> In n (columns df')) ->
  pick_first df' names = pick_first df names.
Proof.
  intros Hsub. induction names as [|x t IH]; simpl; [reflexivity|]. intros Hkeep.
  destruct (has_column df x) eqn:E.
  - assert (has_column df' x = true) as -> by (apply has_column_In, Hkeep; reflexivity).
    reflexivity.
  - assert (has_column df' x = false) as ->.
    { apply mem_false. intros H. apply Hsub in H. apply has_column_In in H. congruence. }
    apply IH, Hkeep.
Qed.

(** ** The long projection *)

Lemma rint_whole (q : Q) (z : Z) : (q == inject_Z z)%Q -> rint q = z.
Proof.
  intros E. unfold rint. rewrite (Qfloor_comp _ _ E), Qfloor_Z.
  assert (E0 : (q - inject_Z z == 0)%Q) by (rewrite E; ring).
  rewrite (Qcompare_comp _ _ E0 _ _ (Qeq_refl (1 # 2))). reflexivity.
Qed.

Lemma round3_fixed (q : Q) : round3 (round3 q) = round3 q.
Proof.
  unfold round3. f_equal. apply rint_whole.
  unfold Qeq, Qmult, inject_Z. simpl. lia.
Qed.

Lemma add_group_cols_incl (df : DataFrame) (group_cols ordered : list string) (x : string) :
  In x ordered -> In x (add_group_cols df ordered group_cols).
Proof.
  unfold add_group_cols. revert ordered.
  induction group_cols as [|c g IH]; intros ordered H; simpl; [exact H|].
  apply IH. destruct (negb (PyStr.mem c ordered) && has_column df c); [|exact H].
  apply in_or_app. now left.
Qed.

Lemma add_group_cols_In (df : DataFrame) (group_cols ordered : list string) (x : string) :
  In x (add_group_cols df ordered group_cols) ->
  In x ordered \/ (In x group_cols /\ In x (columns df)).
Proof.
  unfold add_group_cols. revert ordered.
  induction group_cols as [|c g IH]; intros ordered H; simpl in *; [now left|].
  apply IH in H. destruct H as [H | [H1 H2]]; [|right; tauto].
  destruct (negb (PyStr.mem c ordered) && has_column df c) eqn:E; [|now left].
  apply in_app_or in H. destruct H as [H | [<- | []]]; [now left|].
  right. apply andb_prop in E. split; [now left | apply has_column_In; tauto].
Qed.

Lemma add_group_cols_NoDup (df : DataFrame) (group_cols ordered : list string) :
  NoDup ordered -> NoDup (add_group_cols df ordered group_cols).
Proof.
  unfold add_group_cols. revert ordered.
  induction group_cols as [|c g IH]; intros ordered H; simpl; [exact H|].
  apply IH. destruct (PyStr.mem c ordered) eqn:E; simpl; [exact H|].
  destruct (has_column df c); [|exact H].
  apply NoDup_app; [exact H | repeat constructor; simpl; tauto |].
  intros x Hx [<- | []]. apply mem_false in E. contradiction.
Qed.

(** Running the loop again over a frame whose columns are the result of
    the first run appends the same names. *)
Lemma add_group_cols_again (df df' : DataFrame) (group_cols ordered : list string) :
  (forall x, In x (add_group_cols df ordered group_cols) -> In x (columns df')) ->
  (forall x, In x (columns df') -> In x (columns df)) ->
  add_group_cols df' ordered group_cols = add_group_cols df ordered group_cols.
Proof.
  unfold add_group_cols. revert ordered.
  induction group_cols as [|c g IH]; intros ordered Hin Hsub; simpl in *; [reflexivity|].
  destruct (PyStr.mem c ordered) eqn:Em; simpl.
  - now apply IH.
  - destruct (has_column df c) eqn:Ec.
    + assert (has_column df' c = true) as ->.
      { apply has_column_In, Hin.
        apply (add_group_cols_incl df g (ordered ++ [c]) c).
        apply in_or_app. right. now left. }
      now apply IH.
    + assert (has_column df' c = false) as ->.
      { apply mem_false. intros H. apply Hsub, has_column_In in H. congruence. }
      now apply IH.
Qed.

Lemma filter_all {A : Type} (f : A -> bool) (l : list A) :
  (forall x, In x l -> f x = true) -> filter f l = l.
Proof.
  induction l as [|x t IH]; simpl; intros H; [reflexivity|].
  rewrite (H x) by now left. f_equal. apply IH. intros; apply H; now right.
Qed.

Lemma append_if_In (ordered : list string) (col : option string) (x : string) :
  In x (append_if ordered col) <-> In x ordered \/ col = Some x.
Proof.
  destruct col as [c|]; simpl.
  - rewrite in_app_iff. simpl. intuition congruence.
  - intuition discriminate.
Qed.

Section ProjectionFacts.

Context {P : Pandas}.

Lemma to_date_fixed (c : cell) : to_date (to_date c) = to_date c.
Proof.
  destruct c as [s|q|d|]; simpl; try reflexivity.
  - destruct (parse_datetime s); reflexivity.
  - destruct (epoch_date q); reflexivity.
Qed.

Lemma to_numeric_round3_fixed (c : cell) :
  to_numeric_round3 (to_numeric_round3 c) = to_numeric_round3 c.
Proof.
  destruct c as [s|q|d|]; simpl; try reflexivity.
  - destruct (parse_number s); simpl; [now rewrite round3_fixed | reflexivity].
  - now rewrite round3_fixed.
Qed.

(** The column list that [make_long_df] selects, before the final filter. *)
Lemma long_base_in (df : DataFrame) (v x : string) :
  In "Date" (columns df) -> In v (columns df) ->
  In x (append_if (append_if (append_if [] (pick_first df LONG_BASE_sample_id))
                     (pick_first df LONG_BASE_pollutant_name))
          (pick_first df LONG_BASE_sample_duration) ++ ["Date"; v]) ->
  In x (columns df).
Proof.
  intros HD Hv H. apply in_app_or in H. destruct H as [H | [<- | [<- | []]]]; auto.
  repeat (apply append_if_In in H; destruct H as [H | H]);
    try (apply pick_first_In in H; tauto).
  destruct H.
Qed.

(** What [make_long_df] returns when both columns exist. *)
Lemma make_long_df_result (df : DataFrame) (d v : string) (g : list string) :
  In d (columns df) -> In v (assign_cols (columns df) "Date") ->
  let C1 := assign_cols (columns df) "Date" in
  let df1 := assign df "Date" (fun r => to_date (cell_at (columns df) r d)) in
  let df2 := assign df1 v (fun r => to_numeric_round3 (cell_at C1 r v)) in
  let base :=
    append_if (append_if (append_if [] (pick_first df1 LONG_BASE_sample_id))
                 (pick_first df1 LONG_BASE_pollutant_name))
      (pick_first df1 LONG_BASE_sample_duration) ++ ["Date"; v] in
  make_long_df df d v g = Some (select df2 (add_group_cols df2 base g)) /\
  columns df2 = C1 /\
  (forall x, In x (add_group_cols df2 base g) -> In x C1).
Proof.
  intros Hd Hv C1 df1 df2 base.
  assert (HC2 : columns df2 = C1) by (apply assign_cols_old; exact Hv).
  assert (Hbase : forall x, In x base -> In x C1).
  { intros x Hx. apply (long_base_in df1 v x); auto. apply assign_cols_has. }
  assert (Hall : forall x, In x (add_group_cols df2 base g) -> In x C1).
  { intros x Hx. apply add_group_cols_In in Hx. destruct Hx as [Hx | [_ Hx]]; auto.
    now rewrite HC2 in Hx. }
  split; [|split; assumption].
  assert (Ed : has_column df d = true) by now apply has_column_In.
  assert (Ev : has_column df1 v = true) by now apply has_column_In.
  unfold make_long_df. cbv zeta. rewrite Ed. cbn [negb].
  fold df1. rewrite Ev. cbn [negb].
  change (columns df1) with C1. fold df2. fold base.
  f_equal. f_equal.
  apply filter_all. intros x Hx. apply has_column_In.
  rewrite HC2. apply Hall. exact Hx.
Qed.

Lemma make_long_df_Some (df : DataFrame) (d v : string) (g : list string) (out : DataFrame) :
  make_long_df df d v g = Some out ->
  In d (columns df) /\ In v (assign_cols (columns df) "Date").
Proof.
  unfold make_long_df. destruct (has_column df d) eqn:Ed; cbn [negb]; [|discriminate].
  match goal with |- context [has_column ?x v] => destruct (has_column x v) eqn:Ev end;
    cbn [negb]; [|discriminate].
  intros _. split; [now apply has_column_In|].
  apply has_column_In in Ev. exact Ev.
Qed.

(** C6.  For every frame and every date and value column of it,
    [make_long_df] returns a frame with one row for each row of the input,
    built from that row alone and in the same order: the row count is
    unchanged. *)
Theorem make_long_df_preserves_row_count
    (df : DataFrame) (date_col value_col : string) (group_cols : list string) :
  In date_col (columns df) ->
  In value_col (columns df) ->
  exists out : DataFrame,
    make_long_df df date_col value_col group_cols = Some out /\
    List.length (rows out) = List.length (rows df) /\
    exists project : row -> row, rows out = map project (rows df).
Proof.
  intros Hd Hv.
  destruct (make_long_df_result df date_col value_col group_cols Hd) as (E & _ & _).
  { now apply assign_cols_incl. }
  eexists. split; [exact E|].
  cbn [select rows assign]. rewrite !map_map. split.
  - now rewrite length_map.
  - eexists. reflexivity.
Qed.

(** One row, projected and projected again. *)
Lemma reproject_row (C0 L : list string) (d v : string) (r : row) :
  List.length r = List.length C0 ->
  In v (assign_cols C0 "Date") ->
  v <> "Date" -> v <> d ->
  In d L -> In v L -> In "Date" L ->
  let C1 := assign_cols C0 "Date" in
  let r1 := assign_row C0 "Date" (fun r => to_date (cell_at C0 r d)) r in
  let r2 := assign_row C1 v (fun r => to_numeric_round3 (cell_at C1 r v)) r1 in
  let ro := map (cell_at C1 r2) L in
  let r1' := assign_row L "Date" (fun r => to_date (cell_at L r d)) ro in
  let r2' := assign_row L v (fun r => to_numeric_round3 (cell_at L r v)) r1' in
  map (cell_at L r2') L = ro.
Proof.
  intros Hlen Hv HvD Hvd HdL HvL HDL C1 r1 r2 ro r1' r2'.
  assert (Hlen1 : List.length r1 = List.length C1) by now apply assign_row_length.
  assert (Hlo : List.length ro = List.length L) by (unfold ro; apply length_map).
  assert (Hlen1' : List.length r1' = List.length L).
  { unfold r1'. rewrite assign_row_length by exact Hlo. now rewrite assign_cols_old. }
  assert (Hro : forall c, In c L -> cell_at L ro c = cell_at C1 r2 c)
    by (intros c Hc; unfold ro; now apply cell_at_map).
  assert (H2 : forall c, cell_at C1 r2 c
               = if String.eqb c v then to_numeric_round3 (cell_at C1 r1 v)
                 else cell_at C1 r1 c).
  { intros c. unfold r2. now rewrite cell_at_assign_old. }
  assert (H1 : forall c, cell_at C1 r1 c
               = if String.eqb c "Date" then to_date (cell_at C0 r d) else cell_at C0 r c).
  { intros c. unfold r1, C1. now rewrite cell_at_assign. }
  assert (H1' : forall c, cell_at L r1' c
                = if String.eqb c "Date" then to_date (cell_at L ro d) else cell_at L ro c).
  { intros c. unfold r1'. now rewrite cell_at_assign_old. }
  unfold ro. apply map_ext_in. intros c Hc.
  unfold r2'. rewrite cell_at_assign_old by assumption.
  rewrite H2. destruct (String.eqb_spec c v) as [->|Hcv].
  - rewrite H1'. destruct (String.eqb_spec v "Date") as [E|_]; [contradiction|].
    rewrite (Hro v HvL), H2, String.eqb_refl. apply to_numeric_round3_fixed.
  - rewrite H1', H1. destruct (String.eqb_spec c "Date") as [->|HcD].
    + rewrite (Hro d HdL), H2.
      destruct (String.eqb_spec d v) as [E|_]; [congruence|].
      rewrite H1. destruct (String.eqb_spec d "Date"); [apply to_date_fixed | reflexivity].
    + rewrite (Hro c Hc), H2.
      destruct (String.eqb_spec c v) as [E|_]; [contradiction|].
      rewrite H1. destruct (String.eqb_spec c "Date"); [contradiction | reflexivity].
Qed.

Lemma long_base_NoDup (df : DataFrame) (v : string) :
  v <> "Date" ->
  ~ In v (LONG_BASE_sample_id ++ LONG_BASE_pollutant_name ++ LONG_BASE_sample_duration) ->
  NoDup (append_if (append_if (append_if [] (pick_first df LONG_BASE_sample_id))
                      (pick_first df LONG_BASE_pollutant_name))
           (pick_first df LONG_BASE_sample_duration) ++ ["Date"; v]).
Proof.
  intros HvD Hv.
  destruct (pick_first df LONG_BASE_sample_id) as [a|] eqn:Ea;
    [apply pick_first_In in Ea; destruct Ea as [Ea _]|];
    (destruct (pick_first df LONG_BASE_pollutant_name) as [b|] eqn:Eb;
     [apply pick_first_In in Eb; destruct Eb as [Eb _]|]);
    (destruct (pick_first df LONG_BASE_sample_duration) as [c|] eqn:Ec;
     [apply pick_first_In in Ec; destruct Ec as [Ec _]|]);
    cbn [append_if app];
    unfold LONG_BASE_sample_id, LONG_BASE_pollutant_name, LONG_BASE_sample_duration in *;
    repeat (apply NoDup_cons; [cbn [In]; intros Hx|]); try apply NoDup_nil;
    cbn [In app] in *; intuition (subst; solve [discriminate | congruence | tauto]).
Qed.

(** C7, as amended.  Let [make_long_df] succeed on a well-formed frame
    with a value column that is neither the date column, nor ["Date"],
    nor one of the sample-id, pollutant or duration names.  Its output is
    well formed; projecting the output again with the same arguments
    returns the output unchanged when the date column is one of the
    output's columns (it is ["Date"] or was kept as a grouping column),
    and raises otherwise. *)
Theorem make_long_df_reprojection
    (df : DataFrame) (date_col value_col : string) (group_cols : list string)
    (out : DataFrame) :
  wf_frame df ->
  make_long_df df date_col value_col group_cols = Some out ->
  value_col <> "Date" ->
  value_col <> date_col ->
  ~ In value_col
      (LONG_BASE_sample_id ++ LONG_BASE_pollutant_name ++ LONG_BASE_sample_duration) ->
  wf_frame out /\
  (In date_col (columns out) ->
   make_long_df out date_col value_col group_cols = Some out) /\
  (~ In date_col (columns out) ->
   make_long_df out date_col value_col group_cols = None).
Proof.
  intros [Hnd Hrows] Hout HvD Hvd Hvbase.
  destruct (make_long_df_Some _ _ _ _ _ Hout) as [Hd Hv].
  destruct (make_long_df_result df date_col value_col group_cols Hd Hv) as (E & HC2 & Hall).
  cbv zeta in E, HC2, Hall.
  set (C0 := columns df) in *.
  set (C1 := assign_cols C0 "Date") in *.
  set (df1 := assign df "Date" (fun r => to_date (cell_at C0 r date_col))) in *.
  set (df2 := assign df1 value_col (fun r => to_numeric_round3 (cell_at C1 r value_col))) in *.
  set (base := append_if (append_if (append_if [] (pick_first df1 LONG_BASE_sample_id))
                            (pick_first df1 LONG_BASE_pollutant_name))
                 (pick_first df1 LONG_BASE_sample_duration) ++ ["Date"; value_col]) in *.
  set (L := add_group_cols df2 base group_cols) in *.
  rewrite E in Hout. injection Hout as <-.
  assert (HbaseL : forall x, In x base -> In x L)
    by (intros x Hx; now apply add_group_cols_incl).
  assert (HDL : In "Date" L) by (apply HbaseL, in_or_app; right; now left).
  assert (HvL : In value_col L) by (apply HbaseL, in_or_app; right; right; now left).
  assert (Hwf : wf_frame (select df2 L)).
  { split; cbn [select columns rows].
    - apply add_group_cols_NoDup, long_base_NoDup; assumption.
    - rewrite Forall_forall. intros r Hr. apply in_map_iff in Hr.
      destruct Hr as (r0 & <- & _). apply length_map. }
  split; [exact Hwf|]. split.
  - intros HdL. cbn [select columns] in HdL.
    destruct (make_long_df_result (select df2 L) date_col value_col group_cols)
      as (E' & _ & _).
    { exact HdL. }
    { cbn [select columns]. now apply assign_cols_incl. }
    cbv zeta in E'. rewrite E'. clear E'. cbn [select columns].
    rewrite (assign_cols_old L "Date" HDL).
    set (df1' := assign (select df2 L) "Date" (fun r => to_date (cell_at L r date_col))).
    set (df2' := assign df1' value_col (fun r => to_numeric_round3 (cell_at L r value_col))).
    assert (HC1' : columns df1' = L) by (apply assign_cols_old; exact HDL).
    assert (HC2' : columns df2' = L).
    { cbn [df2' assign columns]. rewrite HC1'. now apply assign_cols_old. }
    assert (Hsub : forall x, In x L -> In x (columns df1)) by exact Hall.
    assert (Hpick : forall names, (forall n, pick_first df1 names = Some n -> In n base) ->
                                  pick_first df1' names = pick_first df1 names).
    { intros names Hn. apply pick_first_narrow.
      - rewrite HC1'. exact Hsub.
      - intros n Hp. rewrite HC1'. apply HbaseL, Hn, Hp. }
    rewrite !Hpick.
    + fold base.
      assert (EL : add_group_cols df2' base group_cols = L).
      { apply add_group_cols_again.
        - intros x Hx. now rewrite HC2'.
        - intros x Hx. rewrite HC2' in Hx. rewrite HC2. now apply Hall. }
      rewrite EL. unfold select. f_equal. f_equal.
      rewrite HC2'. cbn [df2' df1' assign rows select columns].
      rewrite (assign_cols_old L "Date" HDL).
      cbn [df2 df1 assign rows columns]. fold C0. fold C1.
      rewrite (assign_cols_old C1 value_col Hv).
      rewrite !map_map. apply map_ext_in. intros r Hr.
      rewrite Forall_forall in Hrows.
      apply (reproject_row C0 L date_col value_col r); auto.
    + intros n Hn. unfold base. apply in_or_app. left.
      apply append_if_In. now right.
    + intros n Hn. unfold base. apply in_or_app. left.
      apply append_if_In. left. apply append_if_In. now right.
    + intros n Hn. unfold base. apply in_or_app. left.
      do 2 (apply append_if_In; left). apply append_if_In. now right.
  - intros HdL. unfold make_long_df.
    assert (has_column (select df2 L) date_col = false) as -> by now apply mem_false.
    reflexivity.
Qed.

End ProjectionFacts.

(** ** The grouping configurator *)

Section ConfiguratorFacts.

Context {P : Pandas}.

Lemma ensure_date_columns (df : DataFrame) (date_col : string) :
  In date_col (columns df) -> columns (ensure_date df date_col) = columns df.
Proof. intros H. unfold ensure_date. cbn [assign columns]. now apply assign_cols_old. Qed.

Lemma detect_date_frame (a : Answers) (df : DataFrame) : snd (detect_date a df) = df.
Proof.
  unfold detect_date, bind, frame, ret, raise.
  destruct (coalesce df _); [reflexivity|].
  destruct (date_answer a) as [d|]; [|reflexivity].
  destruct (PyStr.falsy (Some d) || negb (has_column df d)); reflexivity.
Qed.

Lemma coalesce_In (df : DataFrame) (candidates : list string) (c : string) :
  coalesce df candidates = Some c -> In c candidates /\ In c (columns df).
Proof.
  induction candidates as [|x t IH]; simpl; [discriminate|].
  destruct (has_column df x) eqn:E.
  - intros [= <-]. split; [now left | now apply has_column_In].
  - intros H. destruct (IH H). split; [now right | assumption].
Qed.

Lemma coalesce_columns (df df' : DataFrame) (candidates : list string) :
  columns df' = columns df -> coalesce df' candidates = coalesce df candidates.
Proof.
  intros E. induction candidates as [|x t IH]; simpl; [reflexivity|].
  unfold has_column in *. rewrite E, IH. reflexivity.
Qed.

Lemma detect_date_result (a : Answers) (df : DataFrame) :
  (fst (detect_date a df) = inl DateColumnNotFound) \/
  (exists d, fst (detect_date a df) = inr d /\ In d (columns df)).
Proof.
  unfold detect_date, bind, frame, ret, raise.
  destruct (coalesce df _) as [c|] eqn:E; cbn [fst].
  - right. exists c. split; [reflexivity|]. apply coalesce_In in E. tauto.
  - destruct (date_answer a) as [d|]; [|now left].
    destruct (PyStr.falsy (Some d)); cbn [orb fst]; [now left|].
    destruct (has_column df d) eqn:Ed; cbn [negb fst]; [|now left].
    right. exists d. split; [reflexivity | now apply has_column_In].
Qed.

Lemma detect_value_frame (a : Answers) (df : DataFrame) : snd (detect_value a df) = df.
Proof.
  unfold detect_value, bind, frame, ret, raise.
  destruct (has_column df "Arithmetic Mean"); [reflexivity|].
  destruct (value_answer a) as [v|]; [|reflexivity].
  destruct (PyStr.falsy (Some v) || negb (has_column df v)); reflexivity.
Qed.

Lemma detect_value_result (a : Answers) (df : DataFrame) :
  (fst (detect_value a df) = inl ValueColumnNotFound) \/
  (exists v, fst (detect_value a df) = inr v /\ In v (columns df)).
Proof.
  unfold detect_value, bind, frame, ret, raise.
  destruct (has_column df "Arithmetic Mean") eqn:E; cbn [fst].
  - right. eexists. split; [reflexivity | now apply has_column_In].
  - destruct (value_answer a) as [v|]; [|now left].
    destruct (PyStr.falsy (Some v)); cbn [orb fst]; [now left|].
    destruct (has_column df v) eqn:Ev; cbn [negb fst]; [|now left].
    right. exists v. split; [reflexivity | now apply has_column_In].
Qed.

Lemma detect_value_columns (a : Answers) (df df' : DataFrame) :
  columns df' = columns df -> fst (detect_value a df') = fst (detect_value a df).
Proof.
  intros E. unfold detect_value, bind, frame, ret, raise, has_column. rewrite E.
  destruct (PyStr.mem "Arithmetic Mean" (columns df)); [reflexivity|].
  destruct (value_answer a) as [v|]; [|reflexivity].
  destruct (PyStr.falsy (Some v) || negb (PyStr.mem v (columns df))); reflexivity.
Qed.

Lemma detect_groups_frame (a : Answers) (df : DataFrame) : snd (detect_groups a df) = df.
Proof.
  unfold detect_groups, bind, frame, ret, raise.
  destruct (ask_choice _ _) as [choice|]; [|reflexivity].
  destruct (PyStr.mem choice _).
  { destruct (coalesce df _); reflexivity. }
  destruct (String.eqb choice "coordinates").
  { destruct (coalesce df _); [|reflexivity]. destruct (coalesce df _); reflexivity. }
  destruct (String.eqb choice "custom"); [|reflexivity].
  destruct (custom_answer a) as [cols|]; [|reflexivity].
  destruct (PyStr.falsy (Some cols)); [reflexivity|].
  destruct (filter _ _); reflexivity.
Qed.

Lemma detect_groups_error (a : Answers) (df : DataFrame) (e : ConfigError) :
  fst (detect_groups a df) = inl e -> e <> DateColumnNotFound /\ e <> ValueColumnNotFound.
Proof.
  unfold detect_groups, bind, frame, ret, raise.
  destruct (ask_choice _ _) as [choice|]; cbn [fst]; [|intros [= <-]; split; discriminate].
  destruct (PyStr.mem choice _).
  { destruct (coalesce df _); cbn [fst]; [discriminate|]. intros [= <-]; split; discriminate. }
  destruct (String.eqb choice "coordinates").
  { destruct (coalesce df _); [destruct (coalesce df _)|]; cbn [fst];
      try discriminate; intros [= <-]; split; discriminate. }
  destruct (String.eqb choice "custom"); [|discriminate].
  destruct (custom_answer a) as [cols|]; cbn [fst]; [|intros [= <-]; split; discriminate].
  destruct (PyStr.falsy (Some cols)); cbn [fst]; [intros [= <-]; split; discriminate|].
  destruct (filter _ _); cbn [fst]; [discriminate|]. intros [= <-]; split; discriminate.
Qed.

(** [choose_grouping] step by step. *)
Lemma choose_grouping_steps (a : Answers) (df : DataFrame) :
  choose_grouping a df =
  match fst (detect_date a df) with
  | inl e => (inl e, df)
  | inr date_col =>
      let df' := ensure_date df date_col in
      match fst (detect_value a df') with
      | inl e => (inl e, df')
      | inr val_col =>
          match fst (detect_groups a df') with
          | inl e => (inl e, df')
          | inr group_cols => (inr (date_col, val_col, group_cols), df')
          end
      end
  end.
Proof.
  unfold choose_grouping. unfold bind at 1.
  pose proof (detect_date_frame a df) as Hd.
  destruct (detect_date a df) as [[e|d] s]; cbn [fst snd] in *; subst s; [reflexivity|].
  unfold bind at 1. unfold mutate. cbv zeta. unfold bind at 1.
  pose proof (detect_value_frame a (ensure_date df d)) as Hv.
  destruct (detect_value a (ensure_date df d)) as [[e|v] s]; cbn [fst snd] in *; subst s;
    [reflexivity|].
  unfold bind at 1.
  pose proof (detect_groups_frame a (ensure_date df d)) as Hg.
  destruct (detect_groups a (ensure_date df d)) as [[e|g] s]; cbn [fst snd] in *; subst s;
    reflexivity.
Qed.

(** C8, as amended.  When [choose_grouping] raises, the frame it was
    given is either untouched, which is the case exactly for the missing
    date column, or differs from it only in that the date column has been
    normalized in place: the missing value column, the invalid choice,
    the unknown grouping columns and the missing coordinate columns are
    all raised after [ensure_date] and before anything else is changed. *)
Theorem choose_grouping_error_frame
    (a : Answers) (df df' : DataFrame) (e : ConfigError) :
  choose_grouping a df = (inl e, df') ->
  (e = DateColumnNotFound /\ df' = df) \/
  (e <> DateColumnNotFound /\
   exists date_col, fst (detect_date a df) = inr date_col /\
     In date_col (columns df) /\ df' = ensure_date df date_col).
Proof.
  rewrite choose_grouping_steps.
  destruct (detect_date_result a df) as [Hd | (d & Hd & Hin)]; rewrite Hd.
  - intros [= <- <-]. now left.
  - cbv zeta. intros H. right.
    assert (He : e <> DateColumnNotFound /\ df' = ensure_date df d).
    { destruct (detect_value_result a (ensure_date df d)) as [Hv | (v & Hv & _)];
        rewrite Hv in H.
      - injection H as <- <-. split; [discriminate | reflexivity].
      - destruct (fst (detect_groups a (ensure_date df d))) eqn:Hg; [|discriminate].
        injection H as <- <-. apply detect_groups_error in Hg. tauto. }
    destruct He as [He ->]. split; [exact He|]. exists d. auto.
Qed.

Lemma filter_nil_iff {A : Type} (f : A -> bool) (l : list A) :
  filter f l = [] <-> forall x, In x l -> f x = false.
Proof.
  induction l as [|x t IH]; simpl; [tauto|].
  destruct (f x) eqn:E; split.
  - discriminate.
  - intros H. specialize (H x (or_introl eq_refl)). congruence.
  - intros H y [<- | Hy]; [exact E | now apply IH].
  - intros H. apply IH. intros y Hy. apply H. now right.
Qed.

(** C9.  With the date and value columns resolved and the grouping choice
    "custom", let [parts] be the column names the user listed.  If some of
    them are no columns of the frame, [choose_grouping] raises
    [ColumnsNotFound] with the list of all of them, in the order given;
    if all are columns, the grouping columns are exactly [parts]. *)
Theorem choose_grouping_custom_columns
    (a : Answers) (df : DataFrame) (date_col val_col cols : string) :
  fst (detect_date a df) = inr date_col ->
  fst (detect_value a df) = inr val_col ->
  ask_choice (grouping_answer a)
    ["state"; "city"; "county"; "site"; "cbsa"; "coordinates"; "custom"] = Some "custom" ->
  custom_answer a = Some cols ->
  cols <> "" ->
  let parts := custom_parts cols in
  let missing := filter (fun c => negb (has_column df c)) parts in
  (forall c, In c missing <-> In c parts /\ ~ In c (columns df)) /\
  (missing <> [] -> fst (choose_grouping a df) = inl (ColumnsNotFound missing)) /\
  ((forall c, In c parts -> In c (columns df)) ->
   fst (choose_grouping a df) = inr (date_col, val_col, parts)).
Proof.
  intros Hd Hv Hchoice Hcols Hne parts missing.
  assert (Hin : In date_col (columns df)).
  { destruct (detect_date_result a df) as [H | (d & H & Hi)]; rewrite H in Hd;
      [discriminate | now injection Hd as <-]. }
  pose proof (ensure_date_columns df date_col Hin) as Hcolsame.
  assert (Hg : fst (detect_groups a (ensure_date df date_col))
               = match missing with
                 | [] => inr parts
                 | _ :: _ => inl (ColumnsNotFound missing)
                 end).
  { unfold detect_groups, bind, frame. rewrite Hchoice.
    cbn [PyStr.mem existsb String.eqb Ascii.eqb Bool.eqb orb].
    rewrite Hcols.
    assert (PyStr.falsy (Some cols) = false) as ->
      by (destruct cols; [congruence | reflexivity]).
    unfold missing, has_column. rewrite Hcolsame. fold parts.
    destruct (filter (fun c => negb (PyStr.mem c (columns df))) parts); reflexivity. }
  split; [|split].
  - intros c. unfold missing. rewrite filter_In, negb_true_iff.
    unfold has_column. rewrite mem_false. tauto.
  - intros Hm. rewrite choose_grouping_steps, Hd. cbv zeta.
    rewrite (detect_value_columns a df _ Hcolsame), Hv, Hg.
    destruct missing; [congruence | reflexivity].
  - intros Hall. rewrite choose_grouping_steps, Hd. cbv zeta.
    rewrite (detect_value_columns a df _ Hcolsame), Hv, Hg.
    assert (missing = []) as ->; [|reflexivity].
    apply filter_nil_iff. intros c Hc. apply negb_false_iff, has_column_In, Hall, Hc.
Qed.

End ConfiguratorFacts.

(** ** Keys *)

Lemma Qeq_bool_sym (p q : Q) : Qeq_bool p q = Qeq_bool q p.
Proof.
  destruct (Qeq_bool p q) eqn:E1, (Qeq_bool q p) eqn:E2; try reflexivity.
  - apply Qeq_bool_iff, Qeq_sym, Qeq_bool_iff in E1. congruence.
  - apply Qeq_bool_iff, Qeq_sym, Qeq_bool_iff in E2. congruence.
Qed.

Lemma cell_eqb_sym (a b : cell) : cell_eqb a b = cell_eqb b a.
Proof.
  destruct a, b; simpl; try reflexivity.
  - apply String.eqb_sym.
  - apply Qeq_bool_sym.
  - apply Z.eqb_sym.
Qed.

Lemma cell_eqb_trans (a b c : cell) :
  cell_eqb a b = true -> cell_eqb b c = true -> cell_eqb a c = true.
Proof.
  destruct a, b, c; simpl; try discriminate.
  - intros H1 H2. apply String.eqb_eq in H1, H2. subst. apply String.eqb_refl.
  - intros H1 H2. apply Qeq_bool_iff in H1, H2. apply Qeq_bool_iff.
    eapply Qeq_trans; eassumption.
  - intros H1 H2. apply Z.eqb_eq in H1, H2. subst. apply Z.eqb_refl.
Qed.

Lemma cell_eqb_refl (a : cell) : notna a = true -> cell_eqb a a = true.
Proof.
  destruct a; simpl; intros H; try discriminate.
  - apply String.eqb_refl.
  - apply Qeq_bool_iff, Qeq_refl.
  - apply Z.eqb_refl.
Qed.

Lemma cell_eqb_notna (a b : cell) : cell_eqb a b = true -> notna a = true /\ notna b = true.
Proof. destruct a, b; simpl; intros H; try discriminate; split; reflexivity. Qed.

Lemma key_eqb_sym (k1 k2 : key) : key_eqb k1 k2 = key_eqb k2 k1.
Proof.
  revert k2; induction k1 as [|a k1 IH]; intros [|b k2]; simpl; try reflexivity.
  now rewrite cell_eqb_sym, IH.
Qed.

Lemma key_eqb_trans (k1 k2 k3 : key) :
  key_eqb k1 k2 = true -> key_eqb k2 k3 = true -> key_eqb k1 k3 = true.
Proof.
  revert k2 k3; induction k1 as [|a k1 IH]; intros [|b k2] [|c k3]; simpl;
    try discriminate; try reflexivity.
  intros H1 H2. apply andb_prop in H1, H2. destruct H1, H2.
  apply andb_true_intro. split; [eapply cell_eqb_trans | eapply IH]; eassumption.
Qed.

Lemma key_eqb_refl (k : key) : has_missing k = false -> key_eqb k k = true.
Proof.
  induction k as [|a k IH]; simpl; [reflexivity|].
  intros H. apply orb_false_elim in H. destruct H as [Ha Hk].
  apply negb_false_iff in Ha. now rewrite cell_eqb_refl, IH.
Qed.

(** A key with a missing component matches no key, itself included. *)
Lemma key_eqb_missing (k k' : key) : has_missing k = true -> key_eqb k k' = false.
Proof.
  revert k'; induction k as [|a k IH]; intros k'; simpl; [discriminate|].
  intros H. destruct k' as [|b k']; [reflexivity|].
  apply orb_prop in H. destruct H as [Ha | Hk].
  - destruct a; simpl in Ha; try discriminate. reflexivity.
  - rewrite (IH k' Hk). apply andb_false_r.
Qed.

Lemma key_eqb_present (k k' : key) :
  key_eqb k k' = true -> has_missing k = false /\ has_missing k' = false.
Proof.
  intros H. split.
  - destruct (has_missing k) eqn:E; [|reflexivity].
    rewrite (key_eqb_missing k k' E) in H. discriminate.
  - destruct (has_missing k') eqn:E; [|reflexivity].
    rewrite key_eqb_sym, (key_eqb_missing k' k E) in H. discriminate.
Qed.

Lemma key_eqb_length (k k' : key) : key_eqb k k' = true -> List.length k = List.length k'.
Proof.
  revert k'; induction k as [|a k IH]; intros [|b k']; simpl; try discriminate; auto.
  intros H. apply andb_prop in H. destruct H. f_equal. now apply IH.
Qed.

(** Two matching keys match the same keys. *)
Lemma key_eqb_same (k k' x : key) :
  key_eqb k k' = true -> key_eqb x k = key_eqb x k'.
Proof.
  intros H. destruct (key_eqb x k) eqn:E1, (key_eqb x k') eqn:E2; try reflexivity.
  - rewrite (key_eqb_trans x k k' E1 H) in E2. discriminate.
  - rewrite key_eqb_sym in H. rewrite (key_eqb_trans x k' k E2 H) in E1. discriminate.
Qed.

Lemma key_eqb_app (a b : key) (x y : cell) :
  List.length a = List.length b ->
  key_eqb (a ++ [x]) (b ++ [y]) = key_eqb a b && cell_eqb x y.
Proof.
  revert b; induction a as [|c a IH]; intros [|d b] H; simpl in *; try discriminate.
  - now rewrite andb_true_r.
  - rewrite IH by lia. now rewrite andb_assoc.
Qed.

Lemma key_eqb_app_length (a b : key) (x y : cell) :
  key_eqb (a ++ [x]) (b ++ [y]) = true -> List.length a = List.length b.
Proof.
  intros H. apply key_eqb_length in H. rewrite !length_app in H. simpl in H. lia.
Qed.

Lemma has_missing_app (a b : key) : has_missing (a ++ b) = has_missing a || has_missing b.
Proof. unfold has_missing. apply existsb_app. Qed.

(** ** Groups *)

Lemma add_to_group_cases (k : key) (r : row) (gs : list (key * list row)) :
  (exists g1 k0 l0 g2,
      gs = g1 ++ (k0, l0) :: g2 /\ key_eqb k k0 = true /\
      (forall k' l', In (k', l') g1 -> key_eqb k k' = false) /\
      add_to_group k r gs = g1 ++ (k0, l0 ++ [r]) :: g2) \/
  ((forall k' l', In (k', l') gs -> key_eqb k k' = false) /\
   add_to_group k r gs = gs ++ [(k, [r])]).
Proof.
  induction gs as [|[k' l'] t IH]; simpl.
  - right. split; [tauto | reflexivity].
  - destruct (key_eqb k k') eqn:E.
    + left. exists [], k', l', t. repeat split; auto. intros ? ? [].
    + destruct IH as [(g1 & k0 & l0 & g2 & -> & Hk & Hg1 & ->) | [Hall ->]].
      * left. exists ((k', l') :: g1), k0, l0, g2. repeat split; auto.
        intros k1 l1 [[= <- <-] | Hg]; [exact E | now apply (Hg1 k1 l1)].
      * right. split; [|reflexivity].
        intros k1 l1 [[= <- <-] | Hg]; [exact E | now apply (Hall k1 l1)].
Qed.

Lemma add_to_group_total (k : key) (r : row) (gs : list (key * list row)) :
  list_sum (map (fun g => List.length (snd g)) (add_to_group k r gs))
  = S (list_sum (map (fun g => List.length (snd g)) gs)).
Proof.
  induction gs as [|[k' l'] t IH]; simpl; [reflexivity|].
  destruct (key_eqb k k'); simpl.
  - rewrite length_app. simpl. lia.
  - rewrite IH. lia.
Qed.

Lemma group_rows_snoc (kf : row -> key) (rs : list row) (r : row) :
  group_rows kf (rs ++ [r]) = add_to_group (kf r) r (group_rows kf rs).
Proof. unfold group_rows. now rewrite fold_left_app. Qed.

Lemma group_rows_total (kf : row -> key) (rs : list row) :
  list_sum (map (fun g => List.length (snd g)) (group_rows kf rs)) = List.length rs.
Proof.
  induction rs as [|r rs IH] using rev_ind; [reflexivity|].
  rewrite group_rows_snoc, add_to_group_total, IH, length_app. simpl. lia.
Qed.

Lemma pairwise_tail {A : Type} (R : A -> A -> Prop) (l1 l2 : list A) (a b : A) :
  ForallOrdPairs R (l1 ++ a :: l2) -> In b l2 -> R a b.
Proof.
  induction l1 as [|x l1 IH]; simpl; intros H Hb.
  - inversion H as [|? ? Ha _]; subst. rewrite Forall_forall in Ha. now apply Ha.
  - inversion H; subst. now apply IH.
Qed.

Lemma pairwise_snoc {A : Type} (R : A -> A -> Prop) (l : list A) (a : A) :
  ForallOrdPairs R l -> (forall x, In x l -> R x a) -> ForallOrdPairs R (l ++ [a]).
Proof.
  induction 1 as [|x l Hx Hl IH]; simpl; intros Ha.
  - constructor; constructor.
  - constructor.
    + apply Forall_app. split; [exact Hx|]. constructor; [|constructor]. apply Ha. now left.
    + apply IH. intros y Hy. apply Ha. now right.
Qed.

Lemma filter_snoc {A : Type} (f : A -> bool) (l : list A) (x : A) :
  filter f (l ++ [x]) = filter f l ++ (if f x then [x] else []).
Proof. rewrite filter_app. simpl. destruct (f x); reflexivity. Qed.

(** The groups built from rows whose keys have no missing component:
    their keys are pairwise different keys of rows, every group holds the
    rows matching its key, in order, and every row has its group. *)
Lemma group_rows_spec (kf : row -> key) (rs : list row) :
  (forall r, In r rs -> has_missing (kf r) = false) ->
  let gs := group_rows kf rs in
  ForallOrdPairs (fun a b => key_eqb a b = false) (map fst gs) /\
  (forall k l, In (k, l) gs ->
     l = filter (fun r => key_eqb (kf r) k) rs /\ exists r, In r rs /\ k = kf r) /\
  (forall r, In r rs -> exists k l, In (k, l) gs /\ key_eqb (kf r) k = true).
Proof.
  induction rs as [|r rs IH] using rev_ind; intros Hpres.
  - simpl. split; [constructor|]. split; [intros k l [] | intros r []].
  - cbv zeta. rewrite group_rows_snoc.
    destruct IH as (Hpw & Hgrp & Hcov).
    { intros r0 Hr0. apply Hpres, in_or_app. now left. }
    set (gs := group_rows kf rs) in *.
    assert (Hrefl : key_eqb (kf r) (kf r) = true).
    { apply key_eqb_refl, Hpres, in_or_app. right. now left. }
    destruct (add_to_group_cases (kf r) r gs)
      as [(g1 & k0 & l0 & g2 & Egs & Hk0 & Hg1 & ->) | [Hnone ->]].
    + assert (Hkeys : map fst (g1 ++ (k0, l0 ++ [r]) :: g2) = map fst gs).
      { rewrite Egs, !map_app. reflexivity. }
      split; [now rewrite Hkeys|]. split.
      * intros k l Hin. apply in_app_or in Hin. rewrite filter_snoc.
        destruct Hin as [Hin | [Heq | Hin]].
        -- rewrite (Hg1 k l Hin), app_nil_r.
           destruct (Hgrp k l) as [-> (r0 & Hr0 & ->)].
           { rewrite Egs. apply in_or_app. now left. }
           split; [reflexivity|]. exists r0. split; [apply in_or_app; now left | reflexivity].
        -- injection Heq as <- <-. rewrite Hk0.
           destruct (Hgrp k0 l0) as [-> (r0 & Hr0 & ->)].
           { rewrite Egs. apply in_or_app. right. now left. }
           split; [reflexivity|]. exists r0. split; [apply in_or_app; now left | reflexivity].
        -- assert (Hne : key_eqb (kf r) k = false).
           { destruct (key_eqb (kf r) k) eqn:E; [|reflexivity].
             assert (Hd : key_eqb k0 k = false).
             { apply (pairwise_tail (fun a b => key_eqb a b = false) (map fst g1) (map fst g2) k0 k).
               - rewrite Egs, map_app in Hpw. exact Hpw.
               - apply in_map_iff. exists (k, l). split; [reflexivity | exact Hin]. }
             rewrite key_eqb_sym in Hk0.
             rewrite (key_eqb_trans k0 (kf r) k Hk0 E) in Hd. discriminate. }
           rewrite Hne, app_nil_r.
           destruct (Hgrp k l) as [-> (r0 & Hr0 & ->)].
           { rewrite Egs. apply in_or_app. right. now right. }
           split; [reflexivity|]. exists r0. split; [apply in_or_app; now left | reflexivity].
      * intros r0 Hr0. apply in_app_or in Hr0. destruct Hr0 as [Hr0 | [<- | []]].
        -- destruct (Hcov r0 Hr0) as (k & l & Hin & Hk).
           rewrite Egs in Hin. apply in_app_or in Hin. destruct Hin as [Hin | [Heq | Hin]].
           ++ exists k, l. split; [apply in_or_app; now left | exact Hk].
           ++ injection Heq as <- <-. exists k0, (l0 ++ [r]).
              split; [apply in_or_app; right; now left | exact Hk].
           ++ exists k, l. split; [apply in_or_app; right; now right | exact Hk].
        -- exists k0, (l0 ++ [r]). split; [apply in_or_app; right; now left | exact Hk0].
    + split; [|split].
      * rewrite map_app. simpl. apply pairwise_snoc; [exact Hpw|].
        intros k Hk. apply in_map_iff in Hk. destruct Hk as ([k1 l1] & <- & Hg).
        rewrite key_eqb_sym. now apply (Hnone k1 l1).
      * intros k l Hin. apply in_app_or in Hin. rewrite filter_snoc.
        destruct Hin as [Hin | [Heq | []]].
        -- rewrite (Hnone k l Hin), app_nil_r.
           destruct (Hgrp k l Hin) as [-> (r0 & Hr0 & ->)].
           split; [reflexivity|]. exists r0. split; [apply in_or_app; now left | reflexivity].
        -- injection Heq as <- <-. rewrite Hrefl. split.
           ++ replace (filter (fun r0 => key_eqb (kf r0) (kf r)) rs) with (@nil row);
                [reflexivity|].
              symmetry. apply filter_nil_iff. intros r0 Hr0.
              destruct (Hcov r0 Hr0) as (k & l & Hin & Hk).
              destruct (key_eqb (kf r0) (kf r)) eqn:E; [|reflexivity].
              rewrite key_eqb_sym in E.
              rewrite <- (Hnone k l Hin). symmetry.
              apply (key_eqb_trans (kf r) (kf r0) k E Hk).
           ++ exists r. split; [apply in_or_app; right; now left | reflexivity].
      * intros r0 Hr0. apply in_app_or in Hr0. destruct Hr0 as [Hr0 | [<- | []]].
        -- destruct (Hcov r0 Hr0) as (k & l & Hin & Hk).
           exists k, l. split; [apply in_or_app; now left | exact Hk].
        -- exists (kf r), [r]. split; [apply in_or_app; right; now left | exact Hrefl].
Qed.

Lemma filter_filter_implied {A : Type} (f g : A -> bool) (l : list A) :
  (forall x, f x = true -> g x = true) -> filter f (filter g l) = filter f l.
Proof.
  intros H. induction l as [|x t IH]; simpl; [reflexivity|].
  destruct (g x) eqn:Eg; simpl.
  - destruct (f x); now rewrite IH.
  - destruct (f x) eqn:Ef; [apply H in Ef; congruence | exact IH].
Qed.

Lemma list_sum_perm (l1 l2 : list nat) : Permutation l1 l2 -> list_sum l1 = list_sum l2.
Proof. induction 1; simpl; lia. Qed.

Lemma forallb_has_column (df : DataFrame) (keys : list string) :
  (forall c, In c keys -> In c (columns df)) -> forallb (has_column df) keys = true.
Proof. intros H. apply forallb_forall. intros c Hc. apply has_column_In, H, Hc. Qed.

(** What [groupby] returns on known labels: the groups hold, between
    them, each row without a missing key component once; a group holds
    the rows of the frame that match its key, in order, and is not
    empty; every such row has its group. *)
Lemma groupby_spec (df : DataFrame) (keys : list string) :
  (forall c, In c keys -> In c (columns df)) ->
  let kf := key_of (columns df) keys in
  exists gs, groupby df keys = Some gs /\
    total_rows gs = List.length (filter (fun r => negb (has_missing (kf r))) (rows df)) /\
    (forall k sub, In (k, sub) gs ->
       columns sub = columns df /\
       rows sub = filter (fun r => key_eqb (kf r) k) (rows df) /\
       exists r, In r (rows df) /\ has_missing (kf r) = false /\ k = kf r) /\
    (forall r, In r (rows df) -> has_missing (kf r) = false ->
       exists k sub, In (k, sub) gs /\ key_eqb (kf r) k = true).
Proof.
  intros Hcols kf. unfold groupby. rewrite (forallb_has_column df keys Hcols).
  cbv zeta. fold kf.
  set (kept := filter (fun r => negb (has_missing (kf r))) (rows df)).
  set (leb := fun a b : key * list row => key_leb (fst a) (fst b)).
  eexists. split; [reflexivity|].
  assert (Hkept : forall r, In r kept -> has_missing (kf r) = false).
  { intros r Hr. apply filter_In in Hr. destruct Hr as [_ Hr]. now apply negb_true_iff. }
  destruct (group_rows_spec kf kept Hkept) as (_ & Hgrp & Hcov).
  assert (Hsame : forall k, has_missing k = false ->
            filter (fun r => key_eqb (kf r) k) kept
            = filter (fun r => key_eqb (kf r) k) (rows df)).
  { intros k Hk. apply filter_filter_implied. intros r Hr.
    apply key_eqb_present in Hr. apply negb_true_iff. tauto. }
  split; [|split].
  - unfold total_rows. rewrite map_map. cbn [snd rows].
    rewrite <- (group_rows_total kf kept).
    apply list_sum_perm, Permutation_map, sort_by_perm.
  - intros k sub Hin. apply in_map_iff in Hin. destruct Hin as ([k' l] & [= <- <-] & Hin).
    apply sort_by_In in Hin. cbn [fst snd columns rows].
    destruct (Hgrp k' l Hin) as [-> (r & Hr & ->)].
    split; [reflexivity|]. split.
    + apply Hsame. now apply Hkept.
    + exists r. split; [|split; [now apply Hkept | reflexivity]].
      apply filter_In in Hr. tauto.
  - intros r Hr Hpres.
    destruct (Hcov r) as (k & l & Hin & Hk).
    { apply filter_In. split; [exact Hr | now apply negb_true_iff]. }
    exists k, (mkDataFrame (columns df) l). split; [|exact Hk].
    apply in_map_iff. exists (k, l). split; [reflexivity|]. now apply sort_by_In.
Qed.




Section SplitFacts.

Context {P : Pandas}.




End SplitFacts.

(** ** The wide pivot *)

Lemma dedup_In {A : Type} (eqb : A -> A -> bool) (l : list A) (x : A) :
  In x (dedup eqb l) -> In x l.
Proof.
  induction l as [|y t IH]; simpl; [tauto|].
  intros [-> | H]; [now left|]. apply filter_In in H. right. apply IH. tauto.
Qed.

Lemma dedup_keeps {A : Type} (eqb : A -> A -> bool) (l : list A) (x : A) :
  (forall y, eqb y x = true -> y = x) -> In x l -> In x (dedup eqb l).
Proof.
  intros Hx. induction l as [|y t IH]; simpl; [tauto|].
  intros [-> | H]; [now left|].
  destruct (eqb y x) eqn:E; [left; now apply Hx|].
  right. apply filter_In. split; [now apply IH | now rewrite E].
Qed.

Lemma dedup_covers {A : Type} (eqb : A -> A -> bool) (l : list A) (x : A) :
  (forall a b c, eqb a b = true -> eqb b c = true -> eqb a c = true) ->
  eqb x x = true -> In x l -> exists y, In y (dedup eqb l) /\ eqb y x = true.
Proof.
  intros Htrans Hrefl. induction l as [|z t IH]; simpl; [tauto|].
  intros [-> | H]; [exists x; split; [now left | exact Hrefl]|].
  destruct (IH H) as (y & Hy & Eyx).
  destruct (eqb z y) eqn:E.
  - exists z. split; [now left | eapply Htrans; eassumption].
  - exists y. split; [|exact Eyx]. right. apply filter_In. split; [exact Hy | now rewrite E].
Qed.

Lemma pairwise_filter {A : Type} (R : A -> A -> Prop) (f : A -> bool) (l : list A) :
  ForallOrdPairs R l -> ForallOrdPairs R (filter f l).
Proof.
  induction 1 as [|x l Hx Hl IH]; simpl; [constructor|].
  destruct (f x); [|exact IH]. constructor; [|exact IH].
  rewrite Forall_forall in *. intros y Hy. apply Hx. apply filter_In in Hy. tauto.
Qed.

Lemma dedup_pairwise {A : Type} (eqb : A -> A -> bool) (l : list A) :
  ForallOrdPairs (fun a b => eqb a b = false) (dedup eqb l).
Proof.
  induction l as [|x t IH]; simpl; constructor.
  - rewrite Forall_forall. intros y Hy. apply filter_In in Hy.
    destruct Hy as [_ Hy]. now apply negb_true_iff.
  - now apply pairwise_filter.
Qed.

Lemma dedup_NoDup {A : Type} (eqb : A -> A -> bool) (l : list A) :
  (forall x, In x l -> eqb x x = true) -> NoDup (dedup eqb l).
Proof.
  induction l as [|x t IH]; simpl; intros H; constructor.
  - intros Hin. apply filter_In in Hin. destruct Hin as [_ Hin].
    rewrite (H x) in Hin by now left. discriminate.
  - apply NoDup_filter, IH. intros y Hy. apply H. now right.
Qed.

Lemma text_labels_all (cs : list cell) :
  (forall c, In c cs -> exists s, c = CStr s) ->
  exists labels, text_labels cs = Some labels /\ cs = map CStr labels.
Proof.
  induction cs as [|c t IH]; simpl; intros H.
  - exists []. split; reflexivity.
  - destruct (H c) as [s ->]; [now left|].
    destruct IH as (labels & -> & ->); [intros; apply H; now right|].
    exists (s :: labels). split; reflexivity.
Qed.

Lemma cell_eqb_text (c : cell) (p : string) : cell_eqb c (CStr p) = true -> c = CStr p.
Proof.
  destruct c; simpl; try discriminate. intros H. apply String.eqb_eq in H. now subst.
Qed.

Lemma key_of_app (cols keys : list string) (c : string) (r : row) :
  key_of cols (keys ++ [c]) r = key_of cols keys r ++ [cell_at cols r c].
Proof. unfold key_of. now rewrite map_app. Qed.

Lemma key_of_length (cols keys : list string) (r : row) :
  List.length (key_of cols keys r) = List.length keys.
Proof. unfold key_of. apply length_map. Qed.

Lemma numeric_values_In (cols : list string) (values : string) (rs : list row) (q : Q) :
  In q (numeric_values cols values rs) <->
  exists r, In r rs /\ cell_at cols r values = CNum q.
Proof.
  unfold numeric_values. rewrite in_flat_map. split.
  - intros (r & Hr & Hq). exists r. split; [exact Hr|].
    destruct (cell_at cols r values); simpl in Hq; try tauto.
    destruct Hq as [-> | []]. reflexivity.
  - intros (r & Hr & E). exists r. split; [exact Hr|]. rewrite E. now left.
Qed.

Lemma mean_Some (l : list Q) : (exists m, mean l = Some m) <-> l <> [].
Proof.
  destruct l; simpl; split.
  - intros [m Hm]. discriminate.
  - congruence.
  - discriminate.
  - intros _. eexists. reflexivity.
Qed.

(** The mean is the sum of the numbers over their count. *)
Lemma mean_value (l : list Q) (m : Q) :
  mean l = Some m ->
  (m * inject_Z (Z.of_nat (List.length l)) == fold_right Qplus 0 l)%Q.
Proof.
  assert (Hfold : forall (l : list Q) (a : Q),
             (fold_left Qplus l a == a + fold_right Qplus 0 l)%Q).
  { induction l0 as [|x t IH]; intros a; simpl; [ring|]. rewrite IH. ring. }
  destruct l as [|x t]; [discriminate|]. intros [= <-].
  rewrite Qmult_comm, Qmult_div_r.
  - rewrite Hfold. simpl. ring.
  - intros H. unfold Qeq, inject_Z in H. simpl in H. lia.
Qed.

(** The aggregated groups of [pivot_table]: the groups with a mean. *)
Lemma aggregated_In (cols : list string) (values : string)
    (gs : list (key * DataFrame)) (k : key) (m : Q) :
  In (k, m)
     (flat_map (fun g : key * DataFrame =>
                  match mean (numeric_values cols values (rows (snd g))) with
                  | Some m => [(fst g, m)]
                  | None => []
                  end) gs)
  <-> exists sub, In (k, sub) gs /\ mean (numeric_values cols values (rows sub)) = Some m.
Proof.
  rewrite in_flat_map. split.
  - intros ([k' sub] & Hg & Hin). cbn [fst snd] in Hin.
    destruct (mean (numeric_values cols values (rows sub))) eqn:E; [|destruct Hin].
    destruct Hin as [[= <- <-] | []]. now exists sub.
  - intros (sub & Hg & E). exists (k, sub). split; [exact Hg|].
    cbn [fst snd]. rewrite E. now left.
Qed.

(** One cell of the pivot: looking the key up among the aggregated groups
    gives the mean of the numbers of all rows matching the key, or a
    missing cell when they have none. *)
Lemma pivot_cell (cols : list string) (values : string) (kf : row -> key)
    (R : list row) (gs : list (key * DataFrame)) (target : key) :
  (forall k sub, In (k, sub) gs -> rows sub = filter (fun r => key_eqb (kf r) k) R) ->
  (forall r, In r R -> has_missing (kf r) = false ->
     exists k sub, In (k, sub) gs /\ key_eqb (kf r) k = true) ->
  match find (fun a : key * Q => key_eqb (fst a) target)
          (flat_map (fun g : key * DataFrame =>
                       match mean (numeric_values cols values (rows (snd g))) with
                       | Some m => [(fst g, m)]
                       | None => []
                       end) gs) with
  | Some a => CNum (snd a)
  | None => CNaN
  end
  = mean_cell (numeric_values cols values (filter (fun r => key_eqb (kf r) target) R)).
Proof.
  intros Hgrp Hcov.
  assert (Hsame : forall k sub, In (k, sub) gs -> key_eqb k target = true ->
            rows sub = filter (fun r => key_eqb (kf r) target) R).
  { intros k sub Hg Hk. rewrite (Hgrp k sub Hg). apply filter_ext.
    intros r. now apply key_eqb_same. }
  unfold mean_cell.
  destruct (find _ _) as [[k m]|] eqn:Ef.
  - apply find_some in Ef. destruct Ef as [Hin Hk]. cbn [fst snd] in *.
    apply aggregated_In in Hin. destruct Hin as (sub & Hg & E).
    rewrite <- (Hsame k sub Hg Hk), E. reflexivity.
  - destruct (filter (fun r => key_eqb (kf r) target) R) as [|r F] eqn:EF; [reflexivity|].
    assert (Hr : In r (filter (fun r => key_eqb (kf r) target) R)) by (rewrite EF; now left).
    apply filter_In in Hr. destruct Hr as [Hr Hk].
    destruct (Hcov r Hr) as (k & sub & Hg & Hrk).
    { apply key_eqb_present in Hk. tauto. }
    assert (Hkt : key_eqb k target = true).
    { rewrite key_eqb_sym in Hrk. eapply key_eqb_trans; eassumption. }
    rewrite <- (Hsame k sub Hg Hkt).
    destruct (mean (numeric_values cols values (rows sub))) as [m|] eqn:E; [|reflexivity].
    exfalso.
    assert (Hin : In (k, m)
                     (flat_map (fun g : key * DataFrame =>
                                  match mean (numeric_values cols values (rows (snd g))) with
                                  | Some m => [(fst g, m)]
                                  | None => []
                                  end) gs))
      by (apply aggregated_In; eauto).
    pose proof (find_none _ _ Ef _ Hin) as Hno. cbn [fst] in Hno. congruence.
Qed.

Lemma distinct_NoDup (l : list string) : distinct l = true <-> NoDup l.
Proof.
  induction l as [|x t IH]; simpl.
  - split; [intros _; constructor | reflexivity].
  - rewrite andb_true_iff, negb_true_iff, IH, mem_false. split.
    + intros [H1 H2]. now constructor.
    + intros H. inversion H; subst. tauto.
Qed.

(** What [pivot_table] does on known, pairwise different labels and
    textual column keys: it raises when one of the column keys that get a
    column is an index label, and returns the pivoted table otherwise. *)
Lemma pivot_table_spec (df : DataFrame) (index : list string) (pc values : string) :
  (forall c, In c index -> In c (columns df)) ->
  In pc (columns df) ->
  In values (columns df) ->
  NoDup index ->
  index <> [] ->
  ~ In pc index ->
  ~ In values index ->
  values <> pc ->
  (forall r, In r (rows df) ->
     cell_at (columns df) r pc = CNaN \/ exists p, cell_at (columns df) r pc = CStr p) ->
  let cols := columns df in
  let sharing := fun (ik : key) (p : string) =>
    filter (fun r => key_eqb (key_of cols index r) ik
                     && cell_eqb (cell_at cols r pc) (CStr p)) (rows df) in
  exists (index_keys : list key) (pols : list string),
    pivot_table df index pc values
    = (if existsb (fun p => PyStr.mem p index) pols then Raises
       else Returns (mkDataFrame (index ++ pols)
                       (map (fun ik =>
                               ik ++ map (fun p =>
                                            mean_cell (numeric_values cols values
                                                         (sharing ik p)))
                                         pols)
                            index_keys))) /\
    NoDup pols /\
    (forall p, In p pols <->
       exists r q, In r (rows df) /\ cell_at cols r pc = CStr p /\
                   has_missing (key_of cols index r) = false /\
                   cell_at cols r values = CNum q) /\
    ForallOrdPairs (fun a b => key_eqb a b = false) index_keys /\
    (forall ik, In ik index_keys ->
       List.length ik = List.length index /\ has_missing ik = false /\
       exists r q, In r (rows df) /\ key_eqb (key_of cols index r) ik = true /\
                   notna (cell_at cols r pc) = true /\
                   cell_at cols r values = CNum q) /\
    (forall r q, In r (rows df) ->
       has_missing (key_of cols index r) = false ->
       notna (cell_at cols r pc) = true ->
       cell_at cols r values = CNum q ->
       exists ik, In ik index_keys /\ key_eqb (key_of cols index r) ik = true).
Proof.
  intros Hindex Hpc Hval Hnd Hnonempty Hpc_index Hval_index Hval_pc Htext cols sharing.
  set (K := index ++ [pc]).
  assert (Hdesc : (List.length index =? 0) || PyStr.mem pc index || PyStr.mem values K = false).
  { assert ((List.length index =? 0) = false) as ->
      by (destruct index; [congruence | reflexivity]).
    assert (PyStr.mem pc index = false) as -> by now apply mem_false.
    apply mem_false. intros Hin. apply in_app_or in Hin.
    destruct Hin as [Hin | [Hin | []]]; [tauto | congruence]. }
  set (kf := key_of cols K).
  assert (HK : forall c, In c K -> In c (columns df)).
  { intros c Hc. apply in_app_or in Hc. destruct Hc as [Hc | [<- | []]]; auto. }
  destruct (groupby_spec df K HK) as (gs & Egs & _ & Hgrp & Hcov).
  fold cols in Hgrp, Hcov. fold kf in Hgrp, Hcov.
  assert (Hkf : forall r, kf r = key_of cols index r ++ [cell_at cols r pc])
    by (intros r; apply key_of_app).
  assert (Hsplit : forall r k c,
            key_eqb (kf r) (k ++ [c]) = true ->
            key_eqb (key_of cols index r) k = true /\ cell_eqb (cell_at cols r pc) c = true).
  { intros r k c H. rewrite Hkf in H.
    pose proof (key_eqb_app_length _ _ _ _ H) as Hlen.
    rewrite key_eqb_app in H by exact Hlen. now apply andb_prop in H. }
  assert (Hmiss : forall r, has_missing (kf r) = false ->
            has_missing (key_of cols index r) = false /\ notna (cell_at cols r pc) = true).
  { intros r H. rewrite Hkf, has_missing_app in H. apply orb_false_elim in H.
    destruct H as [H1 H2]. simpl in H2. rewrite orb_false_r in H2.
    split; [exact H1 | now apply negb_false_iff]. }
  unfold pivot_table.
  assert (has_column df values = true) as -> by now apply has_column_In.
  cbn [negb]. fold K. rewrite Egs.
  rewrite (proj2 (distinct_NoDup index) Hnd). cbn [negb]. rewrite Hdesc.
  fold cols. cbv zeta.
  set (agged := flat_map
                  (fun g : key * DataFrame =>
                     match mean (numeric_values cols values (rows (snd g))) with
                     | Some m => [(fst g, m)]
                     | None => []
                     end) gs).
  (* every aggregated key is the key of a row and matches a row with a number *)
  assert (Hagrow : forall k m, In (k, m) agged ->
            exists r0 r q, In r0 (rows df) /\ k = kf r0 /\ has_missing k = false /\
                           In r (rows df) /\ key_eqb (kf r) k = true /\
                           cell_at cols r values = CNum q).
  { intros k m Hin. apply aggregated_In in Hin. destruct Hin as (sub & Hg & E).
    destruct (Hgrp k sub Hg) as (_ & Erows & r0 & Hr0 & Hp0 & Ek).
    assert (Hne : numeric_values cols values (rows sub) <> [])
      by (apply mean_Some; eauto).
    destruct (numeric_values cols values (rows sub)) as [|q l] eqn:Enum; [congruence|].
    assert (Hq : In q (numeric_values cols values (rows sub))) by (rewrite Enum; now left).
    apply numeric_values_In in Hq. destruct Hq as (r & Hr & Hq).
    rewrite Erows in Hr. apply filter_In in Hr. destruct Hr as [Hr Hk].
    exists r0, r, q. subst k. repeat split; auto. }
  (* and a row with a number and a full key has its aggregated group *)
  assert (Hrowag : forall r q, In r (rows df) -> has_missing (kf r) = false ->
            cell_at cols r values = CNum q ->
            exists k m, In (k, m) agged /\ key_eqb (kf r) k = true).
  { intros r q Hr Hp Hq. destruct (Hcov r Hr Hp) as (k & sub & Hg & Hk).
    destruct (Hgrp k sub Hg) as (_ & Erows & _).
    assert (Hin : In q (numeric_values cols values (rows sub))).
    { apply numeric_values_In. exists r. split; [|exact Hq].
      rewrite Erows. apply filter_In. tauto. }
    destruct (proj2 (mean_Some (numeric_values cols values (rows sub)))) as [m Hm].
    { intros E. rewrite E in Hin. destruct Hin. }
    exists k, m. split; [|exact Hk]. apply aggregated_In. eauto. }
  set (index_keys := dedup key_eqb (map (fun a : list cell * Q => removelast (fst a)) agged)).
  set (lasts := map (fun a : list cell * Q => last (fst a) CNaN) agged).
  set (column_keys := sort_by cell_leb (dedup cell_eqb lasts)).
  assert (Hlast : forall c, In c lasts -> exists p, c = CStr p).
  { intros c Hc. apply in_map_iff in Hc. destruct Hc as ([k m] & <- & Hin). cbn [fst].
    destruct (Hagrow k m Hin) as (r0 & _ & _ & Hr0 & Ek & Hp & _).
    rewrite Ek in Hp. apply Hmiss in Hp. destruct Hp as [_ Hp].
    rewrite Ek, Hkf, last_last.
    destruct (Htext r0 Hr0) as [E | [p E]]; fold cols in E; rewrite E in *;
      [discriminate | now exists p]. }
  destruct (text_labels_all column_keys) as (pols & Elab & Ecols).
  { intros c Hc. apply sort_by_In, dedup_In in Hc. now apply Hlast. }
  rewrite Elab.
  assert (Hpols : forall p, In p pols <-> In (CStr p) lasts).
  { intros p. split.
    - intros Hp. apply (dedup_In cell_eqb), (sort_by_In _ cell_leb).
      fold column_keys. rewrite Ecols. now apply in_map.
    - intros Hp.
      assert (Hin : In (CStr p) column_keys).
      { apply sort_by_In, dedup_keeps; [|exact Hp].
        intros y Hy. now apply cell_eqb_text. }
      rewrite Ecols in Hin. apply in_map_iff in Hin.
      destruct Hin as (p' & [= ->] & Hin). exact Hin. }
  assert (Hik : forall ik, In ik index_keys ->
            List.length ik = List.length index /\ has_missing ik = false /\
            exists r q, In r (rows df) /\ key_eqb (key_of cols index r) ik = true /\
                        notna (cell_at cols r pc) = true /\
                        cell_at cols r values = CNum q).
  { intros ik Hin. apply dedup_In, in_map_iff in Hin.
    destruct Hin as ([k m] & <- & Hin). cbn [fst].
    destruct (Hagrow k m Hin) as (r0 & r & q & Hr0 & Ek & Hp & Hr & Hk & Hq).
    rewrite Ek in Hp. apply Hmiss in Hp. destruct Hp as [Hp _].
    rewrite Ek, Hkf, removelast_last.
    split; [apply key_of_length|]. split; [exact Hp|].
    exists r, q. rewrite Ek, (Hkf r0) in Hk. apply Hsplit in Hk. destruct Hk as [Hk Hc].
    repeat split; auto. apply cell_eqb_notna in Hc. tauto. }
  assert (Hsurv : forall p, In p pols <->
            exists r q, In r (rows df) /\ cell_at cols r pc = CStr p /\
                        has_missing (key_of cols index r) = false /\
                        cell_at cols r values = CNum q).
  { intros p. rewrite Hpols. unfold lasts. rewrite in_map_iff. split.
    + intros ([k m] & El & Hin). cbn [fst] in El.
      destruct (Hagrow k m Hin) as (r0 & r & q & Hr0 & Ek & Hp & Hr & Hk & Hq).
      rewrite Ek, Hkf, last_last in El.
      rewrite Ek, (Hkf r0), El in Hk. apply Hsplit in Hk. destruct Hk as [Hk Hc].
      exists r, q. repeat split; auto.
      * now apply cell_eqb_text.
      * apply key_eqb_present in Hk. tauto.
    + intros (r & q & Hr & Ep & Hp & Hq).
      destruct (Hrowag r q Hr) as (k & m & Hin & Hk); auto.
      { rewrite Hkf, has_missing_app, Hp, Ep. reflexivity. }
      exists (k, m). split; [|exact Hin]. cbn [fst].
      destruct (Hagrow k m Hin) as (r0 & _ & _ & _ & Ek & _).
      rewrite Ek, (Hkf r0) in Hk. apply Hsplit in Hk. destruct Hk as [_ Hc].
      rewrite Ek, Hkf, last_last. rewrite Ep, cell_eqb_sym in Hc.
      now apply cell_eqb_text. }
  exists index_keys, pols. split; [|split; [|split; [|split; [|split]]]].
  - destruct (existsb _ pols); [reflexivity|].
    f_equal. f_equal. apply map_ext_in. intros ik Hin. f_equal.
    rewrite Ecols, map_map. apply map_ext. intros p.
    unfold agged.
    rewrite (pivot_cell cols values kf (rows df) gs (ik ++ [CStr p])).
    + f_equal. f_equal. unfold sharing. apply filter_ext. intros r.
      rewrite Hkf. apply key_eqb_app.
      rewrite key_of_length. symmetry. now apply Hik.
    + intros k sub Hg. now destruct (Hgrp k sub Hg) as (_ & E & _).
    + exact Hcov.
  - apply (NoDup_map_inv CStr). rewrite <- Ecols. unfold column_keys.
    eapply Permutation_NoDup; [apply Permutation_sym, sort_by_perm|].
    apply dedup_NoDup. intros c Hc. destruct (Hlast c Hc) as [p ->].
    apply String.eqb_refl.
  - exact Hsurv.
  - apply dedup_pairwise.
  - exact Hik.
  - intros r q Hr Hp Hna Hq.
    destruct (Hrowag r q Hr) as (k & m & Hin & Hk); auto.
    { rewrite Hkf, has_missing_app, Hp. simpl. now rewrite Hna. }
    destruct (Hagrow k m Hin) as (r0 & _ & _ & _ & Ek & Hpk & _).
    rewrite Ek, (Hkf r0) in Hk. apply Hsplit in Hk. destruct Hk as [Hk _].
    destruct (dedup_covers key_eqb (map (fun a : key * Q => removelast (fst a)) agged)
                (key_of cols index r0)) as (ik & Hik_in & Eik).
    + exact key_eqb_trans.
    + apply key_eqb_refl. rewrite Ek in Hpk. apply Hmiss in Hpk. tauto.
    + apply in_map_iff. exists (k, m). split; [|exact Hin]. cbn [fst].
      now rewrite Ek, Hkf, removelast_last.
    + exists ik. split; [exact Hik_in|].
      rewrite key_eqb_sym in Eik. eapply key_eqb_trans; eassumption.
Qed.

Section WideFacts.

Context {P : Pandas}.

(** C3, as amended.  Let the grouping, date, value and pollutant columns
    exist and be pairwise different, let the pollutant names be text or
    missing, and let [df'] be the table with its value column made
    numeric.  The pollutants of the pivot are the names that have a
    number in some row with a complete index key.  [wide_pivot] raises
    when one of them is the name of a grouping or date column.
    Otherwise it returns the index columns followed by one column for
    each of them, and no column for any other name; the output rows have
    pairwise different index keys, one for each index key of such a row;
    the cell of an index key under a pollutant is the mean of the numbers
    of the rows sharing that key and pollutant, and is missing when they
    have none.  In the worked example the NO2 cell of 15.2 and 16.0 is
    15.6.  The pivot also raises when a grouping column is given twice or
    is the date column; the example of a pollutant named like the
    grouping column raises. *)
Theorem wide_pivot_means :
  (forall (df : DataFrame) (group_cols : list string) (date_col val_col : string),
     (forall c, In c group_cols -> In c (columns df)) ->
     In date_col (columns df) ->
     In val_col (columns df) ->
     In "Pollutant Name" (columns df) ->
     let df' := assign df val_col
                  (fun r => to_numeric_round3 (cell_at (columns df) r val_col)) in
     let index := group_cols ++ [date_col] in
     NoDup index ->
     ~ In "Pollutant Name" index ->
     ~ In val_col index ->
     val_col <> "Pollutant Name" ->
     (forall r, In r (rows df') ->
        cell_at (columns df') r "Pollutant Name" = CNaN \/
        exists p, cell_at (columns df') r "Pollutant Name" = CStr p) ->
     exists (index_keys : list key) (pols : list string),
       wide_pivot df group_cols date_col val_col
       = (if existsb (fun p => PyStr.mem p index) pols then Raises
          else Returns (mkDataFrame (index ++ pols)
                          (map (fun ik =>
                                  ik ++ map (fun p =>
                                               mean_cell
                                                 (numeric_values (columns df') val_col
                                                    (rows_sharing df' index ik p)))
                                            pols)
                               index_keys))) /\
       NoDup pols /\
       (forall p, In p pols <->
          exists r q, In r (rows df') /\
                      cell_at (columns df') r "Pollutant Name" = CStr p /\
                      has_missing (key_of (columns df') index r) = false /\
                      cell_at (columns df') r val_col = CNum q) /\
       ForallOrdPairs (fun a b => key_eqb a b = false) index_keys /\
       (forall ik, In ik index_keys ->
          List.length ik = List.length index /\ has_missing ik = false /\
          exists r q, In r (rows df') /\
                      key_eqb (key_of (columns df') index r) ik = true /\
                      notna (cell_at (columns df') r "Pollutant Name") = true /\
                      cell_at (columns df') r val_col = CNum q) /\
       (forall r q, In r (rows df') ->
          has_missing (key_of (columns df') index r) = false ->
          notna (cell_at (columns df') r "Pollutant Name") = true ->
          cell_at (columns df') r val_col = CNum q ->
          exists ik, In ik index_keys /\
                     key_eqb (key_of (columns df') index r) ik = true)) /\
  (exists no2 pm25 : Q,
     wide_pivot maryland_df ["State"] "Date" "Arithmetic Mean"
     = Returns (mkDataFrame ["State"; "Date"; "NO2"; "PM2.5"]
                  [[CStr "Maryland"; jan10; CNum no2; CNum pm25]]) /\
     (no2 == 156 # 10)%Q /\ (pm25 == 981 # 100)%Q) /\
  (forall (df : DataFrame) (group_cols : list string) (date_col val_col : string),
     ~ NoDup (group_cols ++ [date_col]) ->
     wide_pivot df group_cols date_col val_col = Raises) /\
  wide_pivot state_named_df ["State"] "Date" "Arithmetic Mean" = Raises.
Proof.
  split; [|split; [|split]].
  - intros df group_cols date_col val_col Hg Hd Hv Hp df' index
      Hnd Hpi Hvi Hvp Htext.
    assert (Ecols : columns df' = columns df) by (apply assign_cols_old; exact Hv).
    unfold wide_pivot.
    assert (has_column df val_col = true) as -> by now apply has_column_In.
    cbn [negb]. cbv zeta. fold df'. fold index.
    unfold rows_sharing.
    apply (pivot_table_spec df' index "Pollutant Name" val_col).
    + intros c Hc. rewrite Ecols. apply in_app_or in Hc.
      destruct Hc as [Hc | [<- | []]]; auto.
    + now rewrite Ecols.
    + now rewrite Ecols.
    + exact Hnd.
    + unfold index. intros E. now apply app_eq_nil in E as [_ E].
    + exact Hpi.
    + exact Hvi.
    + exact Hvp.
    + exact Htext.
  - eexists. eexists. split; [vm_compute; reflexivity|]. split; reflexivity.
  - intros df group_cols date_col val_col Hdup. unfold wide_pivot.
    destruct (has_column df val_col); cbn [negb]; [|reflexivity].
    cbv zeta. unfold pivot_table.
    destruct (has_column _ val_col); cbn [negb]; [|reflexivity].
    destruct (groupby _ _); [|reflexivity].
    destruct (distinct (group_cols ++ [date_col])) eqn:E; [|reflexivity].
    apply distinct_NoDup in E. contradiction.
  - vm_compute. reflexivity.
Qed.

End WideFacts.

(** * Worked examples *)

Ltac solve_In :=
  simpl; repeat match goal with |- _ \/ _ => first [left; reflexivity | right] end.

Lemma make_long_df_preserves_row_count_witness :
  In "Date" (columns maryland_df) /\
  In "Arithmetic Mean" (columns maryland_df) /\
  exists out : DataFrame,
    make_long_df maryland_df "Date" "Arithmetic Mean" ["State"] = Some out /\
    List.length (rows out) = 3.
Proof.
  split; [solve_In|]. split; [solve_In|].
  destruct (make_long_df_preserves_row_count maryland_df "Date" "Arithmetic Mean" ["State"])
    as (out & E & Hlen & _); [solve_In | solve_In |].
  exists out. split; [exact E | exact Hlen].
Defined.

(** C7 as stated fails: the projection of a file whose dates are under
    ["Date Local"] has no such column any more, and projecting it again
    raises. *)
Lemma make_long_df_reprojection_raises :
  ~ (forall (df : DataFrame) (date_col value_col : string) (group_cols : list string)
            (out : DataFrame),
       make_long_df df date_col value_col group_cols = Some out ->
       make_long_df out date_col value_col group_cols = Some out).
Proof.
  intros H.
  destruct (make_long_df epa_df "Date Local" "Arithmetic Mean" ["State"]) as [out|] eqn:E.
  - specialize (H _ _ _ _ _ E). vm_compute in E. injection E as <-.
    vm_compute in H. discriminate.
  - vm_compute in E. discriminate.
Qed.

Lemma make_long_df_reprojection_witness :
  wf_frame maryland_df /\
  exists out : DataFrame,
    make_long_df maryland_df "Date" "Arithmetic Mean" ["State"] = Some out /\
    make_long_df out "Date" "Arithmetic Mean" ["State"] = Some out.
Proof.
  assert (Hwf : wf_frame maryland_df).
  { split.
    - simpl. repeat constructor; simpl; intuition discriminate.
    - simpl. repeat constructor. }
  split; [exact Hwf|].
  destruct (make_long_df maryland_df "Date" "Arithmetic Mean" ["State"]) as [out|] eqn:E;
    [|vm_compute in E; discriminate].
  exists out. split; [reflexivity|].
  destruct (make_long_df_reprojection maryland_df "Date" "Arithmetic Mean" ["State"] out)
    as (_ & Hagain & _).
  - exact Hwf.
  - exact E.
  - discriminate.
  - discriminate.
  - simpl. intuition discriminate.
  - apply Hagain. vm_compute in E. injection E as <-. solve_In.
Defined.

(** C8 as stated fails: the missing value column is reported after the
    dates of the caller's frame have been overwritten. *)
Lemma choose_grouping_error_after_date_change :
  ~ (forall (a : Answers) (df df' : DataFrame) (e : ConfigError),
       choose_grouping a df = (inl e, df') -> df' = df).
Proof.
  intros H.
  specialize (H no_answers max_value_df (ensure_date max_value_df "Date") ValueColumnNotFound).
  assert (E : ensure_date max_value_df "Date" = max_value_df) by (apply H; reflexivity).
  vm_compute in E. discriminate.
Qed.

Lemma choose_grouping_error_frame_witness :
  choose_grouping no_answers max_value_df
  = (inl ValueColumnNotFound, ensure_date max_value_df "Date") /\
  ((ValueColumnNotFound = DateColumnNotFound /\
    ensure_date max_value_df "Date" = max_value_df) \/
   (ValueColumnNotFound <> DateColumnNotFound /\
    exists date_col, fst (detect_date no_answers max_value_df) = inr date_col /\
      In date_col (columns max_value_df) /\
      ensure_date max_value_df "Date" = ensure_date max_value_df date_col)).
Proof.
  split; [reflexivity|].
  apply (choose_grouping_error_frame no_answers max_value_df). reflexivity.
Defined.

Lemma choose_grouping_custom_columns_witness :
  fst (detect_date custom_answers maryland_df) = inr "Date" /\
  fst (detect_value custom_answers maryland_df) = inr "Arithmetic Mean" /\
  custom_parts "State, Foo,Bar" = ["State"; "Foo"; "Bar"] /\
  fst (choose_grouping custom_answers maryland_df) = inl (ColumnsNotFound ["Foo"; "Bar"]).
Proof.
  split; [reflexivity|]. split; [reflexivity|]. split; [reflexivity|].
  destruct (choose_grouping_custom_columns custom_answers maryland_df
              "Date" "Arithmetic Mean" "State, Foo,Bar") as (_ & Hmissing & _).
  - reflexivity.
  - reflexivity.
  - reflexivity.
  - reflexivity.
  - discriminate.
  - apply Hmissing. discriminate.
Defined.

(** C1 on a table with a blank state: of its two rows only one reaches a
    sheet. *)
Theorem sheet_split_drops_blank_state_row :
  List.length (rows blank_state_df) = 2 /\
  exists sheets,
    sheet_split blank_state_df ["State"] = Some sheets /\
    sheets = [("Maryland",
               mkDataFrame (columns blank_state_df)
                 [[CStr "NO2"; jan10; CNum (152 # 10); CStr "Maryland"]])] /\
    total_rows sheets = 1.
Proof.
  split; [reflexivity|]. eexists. split; [reflexivity|]. split; reflexivity.
Qed.

(** C4 on the table with a blank state: the row whose state is missing
    forms no group.  Its key is the missing value; [groupby] returns the
    one group of Maryland, no group has a key with a missing component,
    and no group holds the row. *)
Theorem blank_state_row_forms_no_group :
  In [CStr "PM2.5"; jan10; CNum (981 # 100); CNaN] (rows blank_state_df) /\
  key_of (columns blank_state_df) ["State"] [CStr "PM2.5"; jan10; CNum (981 # 100); CNaN]
  = [CNaN] /\
  exists gs,
    groupby blank_state_df ["State"] = Some gs /\
    gs = [([CStr "Maryland"],
           mkDataFrame (columns blank_state_df)
             [[CStr "NO2"; jan10; CNum (152 # 10); CStr "Maryland"]])] /\
    forall k sub, In (k, sub) gs ->
      has_missing k = false /\
      ~ In [CStr "PM2.5"; jan10; CNum (981 # 100); CNaN] (rows sub).
Proof.
  split; [right; now left|]. split; [reflexivity|].
  eexists. split; [reflexivity|]. split; [reflexivity|].
  intros k sub [[= <- <-] | []]. split; [reflexivity|].
  simpl. intros [H | []]. discriminate.
Qed.

(** C3 as stated fails: a pollutant whose values are all missing gets no
    column. *)
Lemma wide_pivot_unmeasured_pollutant_no_column :
  ~ (forall (df : DataFrame) (group_cols : list string) (date_col val_col : string)
            (w : DataFrame) (r : row) (p : string),
       wide_pivot df group_cols date_col val_col = Returns w ->
       In r (rows df) ->
       cell_at (columns df) r "Pollutant Name" = CStr p ->
       In p (columns w)).
Proof.
  intros H.
  specialize (H unmeasured_df ["State"] "Date" "Arithmetic Mean"
                (mkDataFrame ["State"; "Date"; "PM2.5"]
                   [[CStr "Maryland"; jan10; CNum (9810 # 1000)]])
                [CStr "NO2"; CNaN; jan10; CStr "Maryland"] "NO2").
  simpl in H.
  assert (Hin : In "NO2" ["State"; "Date"; "PM2.5"]).
  { apply H; [vm_compute; reflexivity | now left | reflexivity]. }
  simpl in Hin. intuition discriminate.
Qed.

Lemma wide_pivot_means_witness :
  exists (index_keys : list key) (pols : list string),
    wide_pivot maryland_df ["State"] "Date" "Arithmetic Mean"
    = Returns (mkDataFrame (["State"; "Date"] ++ pols)
                 (map (fun ik =>
                         ik ++ map (fun p =>
                                      mean_cell
                                        (numeric_values (columns maryland_df) "Arithmetic Mean"
                                           (rows_sharing
                                              (assign maryland_df "Arithmetic Mean"
                                                 (fun r => to_numeric_round3
                                                             (cell_at (columns maryland_df) r
                                                                "Arithmetic Mean")))
                                              ["State"; "Date"] ik p)))
                                   pols)
                      index_keys)) /\
    NoDup pols.
Proof.
  destruct wide_pivot_means as [H _].
  destruct (H maryland_df ["State"] "Date" "Arithmetic Mean")
    as (index_keys & pols & E & Hnd & _).
  - intros c [<- | []]. solve_In.
  - solve_In.
  - solve_In.
  - solve_In.
  - simpl. repeat constructor; simpl; intuition discriminate.
  - simpl. intuition discriminate.
  - simpl. intuition discriminate.
  - discriminate.
  - intros r Hr. vm_compute in Hr.
    destruct Hr as [<- | [<- | [<- | []]]]; right; eexists; vm_compute; reflexivity.
  - exists index_keys, pols. split; [|exact Hnd].
    destruct (existsb _ pols) eqn:Ex; [|exact E].
    exfalso. cbv zeta in E. vm_compute in E. discriminate.
Defined.

(** * Further properties *)

(** ** Sheet names *)

Lemma sheet_char_spec_allowed (c : ascii) : forbidden_sheet_char (sheet_char_spec c) = false.
Proof. destruct c as [[] [] [] [] [] [] [] []]; reflexivity. Qed.

Lemma sheet_char_spec_fixed (c : ascii) :
  forbidden_sheet_char c = false -> sheet_char_spec c = c.
Proof. destruct c as [[] [] [] [] [] [] [] []]; simpl; intros H; try reflexivity; discriminate. Qed.

Lemma map_string_fixed (f : ascii -> ascii) (s : string) :
  (forall i c, String.get i s = Some c -> f c = c) -> map_string f s = s.
Proof.
  induction s as [|a r IH]; simpl; intros H; [reflexivity|].
  rewrite (H 0 a eq_refl). f_equal. apply IH. intros i c Hc. apply (H (S i)). exact Hc.
Qed.

Lemma safe_sheet_name_nonempty (s : option string) : safe_sheet_name s <> "".
Proof.
  destruct s as [[|a r]|]; try discriminate.
  rewrite safe_sheet_name_some by discriminate.
  unfold PyStr.slice_to. simpl. discriminate.
Qed.

Lemma safe_sheet_name_length (s : option string) :
  String.length (safe_sheet_name s) <= 31.
Proof.
  destruct s as [[|a r]|]; try (simpl; lia).
  rewrite safe_sheet_name_some by discriminate. rewrite slice_to_length. lia.
Qed.

Lemma safe_sheet_name_chars (s : option string) (i : nat) (c : ascii) :
  String.get i (safe_sheet_name s) = Some c -> forbidden_sheet_char c = false.
Proof.
  assert (Hdefault : String.get i "Sheet1" = Some c -> forbidden_sheet_char c = false).
  { do 6 (destruct i as [|i]; [intros [= <-]; reflexivity|]). discriminate. }
  destruct s as [[|a r]|]; try exact Hdefault.
  rewrite safe_sheet_name_some by discriminate.
  intros H. apply slice_to_get in H. destruct H as [_ H].
  rewrite map_string_get in H.
  destruct (String.get i (String a r)); [|discriminate].
  injection H as <-. apply sheet_char_spec_allowed.
Qed.

(** X1.  Whatever it is given, [safe_sheet_name] returns a name that a
    spreadsheet accepts: not empty, at most 31 characters, none of them
    one of [/ : \ * ? [ ]]. *)
Theorem safe_sheet_name_valid (s : option string) :
  safe_sheet_name s <> "" /\
  String.length (safe_sheet_name s) <= 31 /\
  forall i c, String.get i (safe_sheet_name s) = Some c -> forbidden_sheet_char c = false.
Proof.
  split; [apply safe_sheet_name_nonempty|].
  split; [apply safe_sheet_name_length|].
  intros i c. apply safe_sheet_name_chars.
Qed.

(** X2.  Sanitizing a sanitized name changes nothing. *)
Theorem safe_sheet_name_idempotent (s : option string) :
  safe_sheet_name (Some (safe_sheet_name s)) = safe_sheet_name s.
Proof.
  rewrite safe_sheet_name_some by apply safe_sheet_name_nonempty.
  rewrite map_string_fixed.
  - apply slice_to_all, safe_sheet_name_length.
  - intros i c Hc. apply sheet_char_spec_fixed. eapply safe_sheet_name_chars; eassumption.
Qed.

Section SheetKeyFacts.

Context {P : Pandas}.

(** X3.  The sheet of a group is named by the present components of its
    key alone: missing components are skipped, and a key with no present
    component is named ["Sheet1"]; the name is always one that a
    spreadsheet accepts. *)
Theorem sheet_of_keys_named (k : key) :
  sheet_of_keys k = sheet_of_keys (filter notna k) /\
  (forallb (fun c => negb (notna c)) k = true -> sheet_of_keys k = "Sheet1") /\
  sheet_of_keys k <> "" /\
  String.length (sheet_of_keys k) <= 31 /\
  (forall i c, String.get i (sheet_of_keys k) = Some c -> forbidden_sheet_char c = false).
Proof.
  split; [|split].
  - unfold sheet_of_keys.
    replace (filter notna (filter notna k)) with (filter notna k); [reflexivity|].
    symmetry. apply filter_all. intros c Hc. apply filter_In in Hc. tauto.
  - intros H. unfold sheet_of_keys.
    replace (filter notna k) with (@nil cell); [reflexivity|].
    symmetry. apply filter_nil_iff. intros c Hc.
    rewrite forallb_forall in H. apply negb_true_iff. now apply H.
  - unfold sheet_of_keys. split; [apply safe_sheet_name_nonempty|].
    split; [apply safe_sheet_name_length|]. intros i c. apply safe_sheet_name_chars.
Qed.

End SheetKeyFacts.

(** ** Column search and choices *)

(** X4.  [coalesce] returns the first candidate, in the order of the list,
    that is a column of the frame: the candidates before it are no
    columns; it returns [None] exactly when no candidate is a column.
    [pick_first] is the same search. *)
Theorem coalesce_first_match (df : DataFrame) (candidates : list string) :
  match coalesce df candidates with
  | Some c =>
      exists before after,
        candidates = before ++ c :: after /\
        In c (columns df) /\
        forall x, In x before -> ~ In x (columns df)
  | None => forall x, In x candidates -> ~ In x (columns df)
  end /\
  pick_first df candidates = coalesce df candidates.
Proof.
  split.
  - induction candidates as [|x t IH]; simpl; [tauto|].
    destruct (has_column df x) eqn:E.
    + exists [], t. split; [reflexivity|]. split; [now apply has_column_In | intros ? []].
    + assert (Hx : ~ In x (columns df)) by now apply mem_false.
      destruct (coalesce df t) as [c|].
      * destruct IH as (before & after & -> & Hc & Hb).
        exists (x :: before), after. split; [reflexivity|]. split; [exact Hc|].
        intros y [<- | Hy]; [exact Hx | now apply Hb].
      * intros y [<- | Hy]; [exact Hx | now apply IH].
  - induction candidates as [|x t IH]; simpl; [reflexivity|]. now rewrite IH.
Qed.

(** ** Date normalization *)

Lemma set_nth_set_nth (i : nat) (r : row) (v w : cell) :
  set_nth i (set_nth i r v) w = set_nth i r w.
Proof.
  revert i; induction r as [|x t IH]; intros i; simpl; [reflexivity|].
  destruct i; simpl; [reflexivity | now rewrite IH].
Qed.

Lemma assign_wf (df : DataFrame) (c : string) (f : row -> cell) :
  wf_frame df -> wf_frame (assign df c f).
Proof.
  intros [Hnd Hrows]. split; cbn [assign columns rows].
  - now apply assign_cols_NoDup.
  - rewrite Forall_forall in *. intros r Hr. apply in_map_iff in Hr.
    destruct Hr as (r0 & <- & Hr0). apply assign_row_length. now apply Hrows.
Qed.

Section DateFacts.

Context {P : Pandas}.

Lemma to_date_kind (c : cell) : to_date c = CNaN \/ exists d, to_date c = CDate d.
Proof.
  destruct c as [s|q|d|]; simpl.
  - destruct (parse_datetime s) as [d|]; [right; now exists d | now left].
  - destruct (epoch_date q) as [d|]; [right; now exists d | now left].
  - right. now exists d.
  - now left.
Qed.

(** X6.  On a well-formed frame, [ensure_date] keeps the columns and the
    number and order of the rows; in every row the cell of the date
    column becomes a date or a missing value and every other cell stays
    as it was. *)
Theorem ensure_date_touches_dates_only (df : DataFrame) (date_col : string) :
  wf_frame df ->
  In date_col (columns df) ->
  let df' := ensure_date df date_col in
  columns df' = columns df /\
  wf_frame df' /\
  List.length (rows df') = List.length (rows df) /\
  forall i r, nth_error (rows df) i = Some r ->
    exists r', nth_error (rows df') i = Some r' /\
      cell_at (columns df') r' date_col = to_date (cell_at (columns df) r date_col) /\
      (cell_at (columns df') r' date_col = CNaN \/
       exists d, cell_at (columns df') r' date_col = CDate d) /\
      forall c, c <> date_col -> cell_at (columns df') r' c = cell_at (columns df) r c.
Proof.
  intros Hwf Hd df'.
  assert (Ecols : columns df' = columns df) by now apply ensure_date_columns.
  split; [exact Ecols|]. split; [now apply assign_wf|].
  split; [unfold df', ensure_date; cbn [assign rows]; apply length_map|].
  intros i r Hr.
  exists (assign_row (columns df) date_col
            (fun r => to_date (cell_at (columns df) r date_col)) r).
  split.
  - unfold df', ensure_date. cbn [assign rows]. rewrite nth_error_map, Hr. reflexivity.
  - destruct Hwf as [_ Hrows]. rewrite Forall_forall in Hrows.
    assert (Hlen : List.length r = List.length (columns df))
      by (apply Hrows; eapply nth_error_In; eassumption).
    rewrite Ecols.
    assert (Hcell : forall c,
              cell_at (columns df)
                (assign_row (columns df) date_col
                   (fun r => to_date (cell_at (columns df) r date_col)) r) c
              = if String.eqb c date_col then to_date (cell_at (columns df) r date_col)
                else cell_at (columns df) r c)
      by (intros c; now apply cell_at_assign_old).
    split; [|split].
    + now rewrite Hcell, String.eqb_refl.
    + rewrite Hcell, String.eqb_refl. apply to_date_kind.
    + intros c Hc. rewrite Hcell.
      destruct (String.eqb_spec c date_col); [contradiction | reflexivity].
Qed.

(** X7.  Normalizing the dates twice is normalizing them once. *)
Theorem ensure_date_idempotent (df : DataFrame) (date_col : string) :
  wf_frame df ->
  In date_col (columns df) ->
  ensure_date (ensure_date df date_col) date_col = ensure_date df date_col.
Proof.
  intros [_ Hrows] Hd.
  destruct (index_of_In _ _ Hd) as [i Hi].
  unfold ensure_date at 1. unfold assign.
  rewrite (ensure_date_columns df date_col Hd).
  unfold ensure_date, assign. cbn [columns rows].
  rewrite (assign_cols_old _ _ Hd). f_equal.
  rewrite map_map. apply map_ext_in. intros r Hr.
  rewrite Forall_forall in Hrows. specialize (Hrows r Hr).
  assert (Hcell : cell_at (columns df)
                    (assign_row (columns df) date_col
                       (fun r0 => to_date (cell_at (columns df) r0 date_col)) r) date_col
                  = to_date (cell_at (columns df) r date_col)).
  { rewrite cell_at_assign_old by assumption. now rewrite String.eqb_refl. }
  unfold assign_row at 1. rewrite Hi, Hcell, to_date_fixed.
  unfold assign_row. rewrite Hi. apply set_nth_set_nth.
Qed.

End DateFacts.

(** ** The configurator on success *)

Section ConfiguratorSuccess.

Context {P : Pandas}.

Lemma detect_groups_columns (a : Answers) (df : DataFrame) (group_cols : list string) :
  fst (detect_groups a df) = inr group_cols ->
  forall c, In c group_cols -> In c (columns df).
Proof.
  unfold detect_groups, bind, frame, ret, raise.
  destruct (ask_choice _ _) as [choice|]; cbn [fst]; [|discriminate].
  destruct (PyStr.mem choice _).
  { destruct (coalesce df _) as [col|] eqn:E; cbn [fst]; [|discriminate].
    intros [= <-] c [<- | []]. apply coalesce_In in E. tauto. }
  destruct (String.eqb choice "coordinates").
  { destruct (coalesce df (firstn _ _)) as [lat|] eqn:E1; cbn [fst]; [|discriminate].
    destruct (coalesce df (skipn _ _)) as [lon|] eqn:E2; cbn [fst]; [|discriminate].
    apply coalesce_In in E1, E2.
    intros [= <-] c [<- | [<- | []]]; tauto. }
  destruct (String.eqb choice "custom"); [|intros [= <-] c []].
  destruct (custom_answer a) as [cols|]; cbn [fst]; [|discriminate].
  destruct (PyStr.falsy (Some cols)); cbn [fst]; [discriminate|].
  destruct (filter _ (custom_parts cols)) eqn:E; cbn [fst]; [|discriminate].
  intros [= <-] c Hc.
  pose proof (proj1 (filter_nil_iff _ _) E c Hc) as Hhas.
  apply negb_false_iff in Hhas. now apply has_column_In.
Qed.

(** X8.  When [choose_grouping] succeeds, the frame it hands back is the
    caller's frame with the date column normalized and the same columns;
    the date column, the value column and every grouping column it
    returns are columns of that frame; the value column is
    ["Arithmetic Mean"] whenever the frame has it, and the date column is
    ["Date"] whenever the frame has it, whatever the user typed. *)
Theorem choose_grouping_success
    (a : Answers) (df df' : DataFrame) (date_col val_col : string)
    (group_cols : list string) :
  choose_grouping a df = (inr (date_col, val_col, group_cols), df') ->
  df' = ensure_date df date_col /\
  columns df' = columns df /\
  In date_col (columns df) /\
  In val_col (columns df) /\
  (forall c, In c group_cols -> In c (columns df)) /\
  (In "Arithmetic Mean" (columns df) -> val_col = "Arithmetic Mean") /\
  (In "Date" (columns df) -> date_col = "Date").
Proof.
  rewrite choose_grouping_steps.
  destruct (detect_date_result a df) as [Hd | (d & Hd & Hin)]; rewrite Hd; [discriminate|].
  cbv zeta.
  pose proof (ensure_date_columns df d Hin) as Ecols.
  destruct (detect_value_result a (ensure_date df d)) as [Hv | (v & Hv & Hvin)];
    rewrite Hv; [discriminate|].
  destruct (fst (detect_groups a (ensure_date df d))) as [e|g] eqn:Hg; [discriminate|].
  intros [= <- <- <- <-].
  rewrite Ecols in Hvin.
  split; [reflexivity|]. split; [exact Ecols|]. split; [exact Hin|]. split; [exact Hvin|].
  split; [|split].
  - intros c Hc. rewrite <- Ecols. eapply detect_groups_columns; eassumption.
  - intros Ham. rewrite (detect_value_columns a df _ Ecols) in Hv.
    unfold detect_value, bind, frame, ret in Hv.
    assert (has_column df "Arithmetic Mean" = true) as E by now apply has_column_In.
    rewrite E in Hv. cbn [fst] in Hv. congruence.
  - intros HD. unfold detect_date, bind, frame, ret in Hd.
    assert (has_column df "Date" = true) as E by now apply has_column_In.
    cbn [coalesce] in Hd. rewrite E in Hd. cbn [fst] in Hd. congruence.
Qed.

End ConfiguratorSuccess.

Lemma choose_grouping_success_witness :
  choose_grouping state_answers epa_df
  = (inr ("Date Local", "Arithmetic Mean", ["State"]), ensure_date epa_df "Date Local") /\
  columns (ensure_date epa_df "Date Local") = columns epa_df /\
  In "State" (columns epa_df).
Proof.
  split; [reflexivity|].
  destruct (choose_grouping_success state_answers epa_df (ensure_date epa_df "Date Local")
              "Date Local" "Arithmetic Mean" ["State"] eq_refl)
    as (_ & Ecols & _ & _ & Hg & _).
  split; [exact Ecols|]. apply Hg. now left.
Defined.

Ltac solve_wf :=
  split; [simpl; repeat constructor; simpl; intuition discriminate | simpl; repeat constructor].

Lemma ensure_date_touches_dates_only_witness :
  wf_frame epa_df /\
  In "Date Local" (columns epa_df) /\
  columns (ensure_date epa_df "Date Local") = columns epa_df /\
  List.length (rows (ensure_date epa_df "Date Local")) = 1.
Proof.
  split; [solve_wf|]. split; [solve_In|].
  destruct (ensure_date_touches_dates_only epa_df "Date Local") as (Ecols & _ & Hlen & _);
    [solve_wf | solve_In |].
  split; [exact Ecols | exact Hlen].
Defined.

Lemma ensure_date_idempotent_witness :
  wf_frame epa_df /\
  In "Date Local" (columns epa_df) /\
  ensure_date (ensure_date epa_df "Date Local") "Date Local" = ensure_date epa_df "Date Local".
Proof.
  split; [solve_wf|]. split; [solve_In|].
  apply (ensure_date_idempotent epa_df "Date Local"); [solve_wf | solve_In].
Defined.

(** ** Custom grouping lists *)

Lemma lstrip_head (s : string) (c : ascii) (r : string) :
  PyStr.lstrip s = String c r -> PyStr.is_space c = false.
Proof.
  induction s as [|a t IH]; simpl; [discriminate|].
  destruct (PyStr.is_space a) eqn:E; [exact IH|]. intros [= <- _]. exact E.
Qed.

Lemma rstrip_keeps_head (c : ascii) (r : string) :
  PyStr.is_space c = false -> exists r', PyStr.rstrip (String c r) = String c r'.
Proof.
  intros H. simpl. destruct (PyStr.rstrip r); [rewrite H|]; eexists; reflexivity.
Qed.

Lemma rstrip_idempotent (s : string) : PyStr.rstrip (PyStr.rstrip s) = PyStr.rstrip s.
Proof.
  induction s as [|c r IH]; simpl; [reflexivity|].
  destruct (PyStr.rstrip r) as [|a r'] eqn:E.
  - destruct (PyStr.is_space c) eqn:Ec; simpl; [reflexivity | now rewrite Ec].
  - simpl in *. rewrite IH. reflexivity.
Qed.

Lemma strip_idempotent (s : string) : PyStr.strip (PyStr.strip s) = PyStr.strip s.
Proof.
  unfold PyStr.strip.
  destruct (PyStr.lstrip s) as [|c r] eqn:E; [reflexivity|].
  apply lstrip_head in E.
  destruct (rstrip_keeps_head c r E) as [r' Er]. rewrite Er.
  cbn [PyStr.lstrip]. rewrite E, <- Er. apply rstrip_idempotent.
Qed.

Lemma lstrip_has_char (c : ascii) (s : string) :
  has_char c s = false -> has_char c (PyStr.lstrip s) = false.
Proof.
  induction s as [|a t IH]; simpl; [reflexivity|]. intros H.
  apply orb_false_elim in H. destruct H as [Ha Ht].
  destruct (PyStr.is_space a); [now apply IH | simpl; now rewrite Ha, Ht].
Qed.

Lemma rstrip_has_char (c : ascii) (s : string) :
  has_char c s = false -> has_char c (PyStr.rstrip s) = false.
Proof.
  induction s as [|a t IH]; simpl; [reflexivity|]. intros H.
  apply orb_false_elim in H. destruct H as [Ha Ht]. specialize (IH Ht).
  destruct (PyStr.rstrip t).
  - destruct (PyStr.is_space a); simpl; [reflexivity | now rewrite Ha].
  - simpl in *. now rewrite Ha, IH.
Qed.

Lemma split_comma_pieces (s : string) :
  Forall (fun p => has_char "," p = false) (PyStr.split_comma s).
Proof.
  induction s as [|a t IH]; simpl; [repeat constructor|].
  destruct (Ascii.eqb a ",") eqn:E.
  - constructor; [reflexivity | exact IH].
  - destruct (PyStr.split_comma t) as [|p ps]; [constructor; [simpl; now rewrite E | constructor]|].
    inversion IH as [|? ? Hp Hps]; subst. constructor; [|exact Hps].
    simpl. now rewrite E, Hp.
Qed.

(** X9.  Every column name read from the comma-separated answer of the
    custom grouping dialog is non-empty, has no blank at either end and
    contains no comma: blank pieces, as in ["State, ,City,"], are
    dropped. *)
Theorem custom_parts_clean (cols : string) :
  Forall (fun p => p <> "" /\ PyStr.strip p = p /\ has_char "," p = false)
         (custom_parts cols).
Proof.
  unfold custom_parts. rewrite Forall_forall. intros p Hp.
  apply in_map_iff in Hp. destruct Hp as (c & <- & Hc).
  apply filter_In in Hc. destruct Hc as [Hc Hne].
  split; [|split].
  - destruct (PyStr.strip c); [discriminate | discriminate].
  - apply strip_idempotent.
  - unfold PyStr.strip. apply rstrip_has_char, lstrip_has_char.
    pose proof (split_comma_pieces cols) as Hall.
    rewrite Forall_forall in Hall. now apply Hall.
Qed.

(** ** The layout and the cells of the long table *)

Lemma append_if_opt_list (a b c : option string) :
  append_if (append_if (append_if [] a) b) c = opt_list a ++ opt_list b ++ opt_list c.
Proof. destruct a, b, c; reflexivity. Qed.

Lemma pick_first_assign (df : DataFrame) (c : string) (f : row -> cell) (names : list string) :
  ~ In c names -> pick_first (assign df c f) names = pick_first df names.
Proof.
  induction names as [|n t IH]; simpl; intros H; [reflexivity|].
  assert (has_column (assign df c f) n = has_column df n) as ->.
  { destruct (has_column df n) eqn:E.
    - apply has_column_In. cbn [assign columns]. apply assign_cols_incl.
      now apply has_column_In.
    - apply mem_false. cbn [assign columns]. intros Hin.
      apply assign_cols_In in Hin. destruct Hin as [-> | Hin]; [tauto|].
      apply has_column_In in Hin. congruence. }
  rewrite IH by tauto. reflexivity.
Qed.

(** The loop over the grouping columns appends, in their order and once
    each, the grouping columns of the frame that are not listed yet. *)
Lemma add_group_cols_app (df : DataFrame) (group_cols ordered : list string) :
  exists rest,
    add_group_cols df ordered group_cols = ordered ++ rest /\
    NoDup rest /\
    (forall c, In c rest -> In c group_cols /\ In c (columns df) /\ ~ In c ordered) /\
    (forall c, In c group_cols -> In c (columns df) -> In c (ordered ++ rest)).
Proof.
  unfold add_group_cols. revert ordered.
  induction group_cols as [|x g IH]; intros ordered; simpl.
  - exists []. rewrite app_nil_r. split; [reflexivity|]. split; [apply NoDup_nil|].
    split; [intros c [] | intros c []].
  - destruct (PyStr.mem x ordered) eqn:Em; simpl.
    + destruct (IH ordered) as (rest & E & Hnd & Hrest & Hcov).
      exists rest. split; [exact E|]. split; [exact Hnd|]. split.
      * intros c Hc. destruct (Hrest c Hc) as (H1 & H2 & H3). tauto.
      * intros c [<- | Hc] Hcol; [|now apply Hcov].
        apply in_or_app. left. now apply mem_In.
    + destruct (has_column df x) eqn:Ec.
      * destruct (IH (ordered ++ [x])) as (rest & E & Hnd & Hrest & Hcov).
        exists (x :: rest). rewrite E, <- app_assoc. split; [reflexivity|].
        split; [|split].
        -- constructor; [|exact Hnd]. intros Hin.
           destruct (Hrest x Hin) as (_ & _ & Hno). apply Hno, in_or_app. right. now left.
        -- intros c [<- | Hc].
           ++ split; [now left|]. split; [now apply has_column_In | now apply mem_false].
           ++ destruct (Hrest c Hc) as (H1 & H2 & H3). split; [now right|].
              split; [exact H2|]. intros Hin. apply H3, in_or_app. now left.
        -- intros c [<- | Hc] Hcol.
           ++ apply in_or_app. right. now left.
           ++ specialize (Hcov c Hc Hcol). rewrite <- app_assoc in Hcov. exact Hcov.
      * destruct (IH ordered) as (rest & E & Hnd & Hrest & Hcov).
        exists rest. split; [exact E|]. split; [exact Hnd|]. split.
        -- intros c Hc. destruct (Hrest c Hc) as (H1 & H2 & H3). tauto.
        -- intros c [<- | Hc] Hcol; [|now apply Hcov].
           apply has_column_In in Hcol. congruence.
Qed.

Lemma filter_andb {A : Type} (f g : A -> bool) (l : list A) :
  filter f (filter g l) = filter (fun x => g x && f x) l.
Proof.
  induction l as [|x t IH]; simpl; [reflexivity|].
  destruct (g x); simpl; [destruct (f x)|]; now rewrite IH.
Qed.

(** Keeping the first occurrences commutes with a selection. *)
Lemma dedup_filter (f : string -> bool) (l : list string) :
  dedup String.eqb (filter f l) = filter f (dedup String.eqb l).
Proof.
  induction l as [|x t IH]; simpl; [reflexivity|].
  destruct (f x) eqn:E; simpl.
  - rewrite IH, !filter_andb. f_equal. apply filter_ext. intros y. apply andb_comm.
  - rewrite IH. symmetry. apply filter_filter_implied.
    intros y Hy. apply negb_true_iff. destruct (String.eqb_spec x y); congruence.
Qed.

(** The loop over the grouping columns in closed form: behind the columns
    listed so far come the first occurrences, in the order given, of the
    grouping columns that are columns of the frame and not listed yet. *)
Lemma add_group_cols_order (df : DataFrame) (group_cols ordered : list string) :
  add_group_cols df ordered group_cols
  = ordered ++ dedup String.eqb
                 (filter (fun c => has_column df c && negb (PyStr.mem c ordered)) group_cols).
Proof.
  unfold add_group_cols. revert ordered.
  induction group_cols as [|x g IH]; intros ordered; simpl.
  - now rewrite app_nil_r.
  - destruct (PyStr.mem x ordered) eqn:Em; simpl.
    + rewrite andb_false_r. apply IH.
    + destruct (has_column df x) eqn:Ec; simpl; [|apply IH].
      rewrite IH, <- app_assoc. simpl. f_equal. f_equal.
      rewrite <- dedup_filter, filter_andb. f_equal. apply filter_ext. intros c.
      unfold PyStr.mem. rewrite existsb_app. simpl.
      rewrite orb_false_r, negb_orb, (String.eqb_sym x c), andb_assoc. reflexivity.
Qed.

Section LongFacts.

Context {P : Pandas}.

(** X10.  The columns of the long table are, in this order: the sample
    id, the pollutant name and the sample duration under the first of
    their names that the input has (each left out when the input has
    none), ["Date"], the value column, and then the grouping columns that
    are columns of the input and not among those before, each once, at
    its first place in the order given.  Every column is ["Date"] or a
    column of the input. *)
Theorem make_long_df_layout
    (df : DataFrame) (date_col value_col : string) (group_cols : list string)
    (out : DataFrame) :
  make_long_df df date_col value_col group_cols = Some out ->
  let front :=
    opt_list (pick_first df LONG_BASE_sample_id)
    ++ opt_list (pick_first df LONG_BASE_pollutant_name)
    ++ opt_list (pick_first df LONG_BASE_sample_duration)
    ++ ["Date"; value_col] in
  let rest :=
    dedup String.eqb
      (filter (fun c => has_column df c && negb (PyStr.mem c front)) group_cols) in
  columns out = front ++ rest /\
  NoDup rest /\
  (forall c, In c rest -> In c group_cols /\ ~ In c front) /\
  (forall c, In c group_cols -> In c (columns df) -> In c (columns out)) /\
  (forall c, In c (columns out) -> c = "Date" \/ In c (columns df)).
Proof.
  intros Hout front rest.
  destruct (make_long_df_Some _ _ _ _ _ Hout) as [Hd Hv].
  destruct (make_long_df_result df date_col value_col group_cols Hd Hv) as (E & HC2 & Hall).
  cbv zeta in E, HC2, Hall.
  set (df1 := assign df "Date" (fun r => to_date (cell_at (columns df) r date_col))) in *.
  set (df2 := assign df1 value_col
                (fun r => to_numeric_round3
                            (cell_at (assign_cols (columns df) "Date") r value_col))) in *.
  assert (Hbase : append_if (append_if (append_if [] (pick_first df1 LONG_BASE_sample_id))
                               (pick_first df1 LONG_BASE_pollutant_name))
                    (pick_first df1 LONG_BASE_sample_duration) ++ ["Date"; value_col]
                  = front).
  { rewrite append_if_opt_list. unfold df1.
    rewrite !pick_first_assign
      by (unfold LONG_BASE_sample_id, LONG_BASE_pollutant_name, LONG_BASE_sample_duration;
          simpl; intuition discriminate).
    unfold front. now rewrite <- !app_assoc. }
  rewrite Hbase in E, Hall.
  rewrite E in Hout. injection Hout as <-.
  change (columns (select df2 (add_group_cols df2 front group_cols)))
    with (add_group_cols df2 front group_cols).
  assert (HDate : In "Date" front).
  { unfold front. apply in_or_app. right. apply in_or_app. right.
    apply in_or_app. right. now left. }
  assert (Erest : dedup String.eqb
                    (filter (fun c => has_column df2 c && negb (PyStr.mem c front)) group_cols)
                  = rest).
  { unfold rest. f_equal. apply filter_ext. intros c.
    destruct (PyStr.mem c front) eqn:Em; [now rewrite !andb_false_r|].
    f_equal. apply mem_false in Em.
    destruct (has_column df c) eqn:Ec.
    - apply has_column_In. rewrite HC2. apply assign_cols_incl. now apply has_column_In.
    - apply mem_false. rewrite HC2. intros Hin. apply assign_cols_In in Hin.
      destruct Hin as [-> | Hin]; [tauto|].
      apply has_column_In in Hin. congruence. }
  destruct (add_group_cols_app df2 group_cols front) as (rest' & Eadd & Hnd & Hrest & Hcov).
  assert (rest' = rest) as ->.
  { rewrite add_group_cols_order, Erest in Eadd. now apply app_inv_head in Eadd. }
  rewrite Eadd in *. split; [reflexivity|]. split; [exact Hnd|].
  split; [|split].
  - intros c Hc. destruct (Hrest c Hc) as (H1 & _ & H3). tauto.
  - intros c Hc Hcol. apply Hcov; [exact Hc|].
    rewrite HC2. now apply assign_cols_incl.
  - intros c Hc. apply Hall, assign_cols_In in Hc. tauto.
Qed.

(** X11.  On a well-formed frame and with a value column other than
    ["Date"], the long table has the rows of the input in their order,
    and in each of them: ["Date"] holds the date cell of the input made
    a date or missing, and every column other than ["Date"] and the value
    column holds the cell of the input unchanged. *)
Theorem make_long_df_cells
    (df : DataFrame) (date_col value_col : string) (group_cols : list string)
    (out : DataFrame) :
  wf_frame df ->
  make_long_df df date_col value_col group_cols = Some out ->
  value_col <> "Date" ->
  List.length (rows out) = List.length (rows df) /\
  forall i r, nth_error (rows df) i = Some r ->
    exists r', nth_error (rows out) i = Some r' /\
      List.length r' = List.length (columns out) /\
      cell_at (columns out) r' "Date" = to_date (cell_at (columns df) r date_col) /\
      forall c, In c (columns out) -> c <> "Date" -> c <> value_col ->
                cell_at (columns out) r' c = cell_at (columns df) r c.
Proof.
  intros [_ Hrows] Hout HvD.
  destruct (make_long_df_Some _ _ _ _ _ Hout) as [Hd Hv].
  destruct (make_long_df_result df date_col value_col group_cols Hd Hv) as (E & HC2 & Hall).
  cbv zeta in E, HC2, Hall. rewrite E in Hout. injection Hout as <-.
  set (C0 := columns df) in *.
  set (C1 := assign_cols C0 "Date") in *.
  match goal with |- context [select _ ?l] => set (L := l) in * end.
  cbn [select columns rows assign]. fold C0. fold C1.
  rewrite (assign_cols_old C1 value_col Hv).
  split; [now rewrite !length_map|].
  intros i r Hr.
  set (r1 := assign_row C0 "Date" (fun r => to_date (cell_at C0 r date_col)) r).
  set (r2 := assign_row C1 value_col (fun r => to_numeric_round3 (cell_at C1 r value_col)) r1).
  exists (map (cell_at C1 r2) L).
  rewrite Forall_forall in Hrows.
  assert (Hlen : List.length r = List.length C0)
    by (apply Hrows; eapply nth_error_In; eassumption).
  assert (Hlen1 : List.length r1 = List.length C1) by now apply assign_row_length.
  assert (H1 : forall c, cell_at C1 r1 c
               = if String.eqb c "Date" then to_date (cell_at C0 r date_col)
                 else cell_at C0 r c)
    by (intros c; unfold r1, C1; now rewrite cell_at_assign).
  assert (H2 : forall c, cell_at C1 r2 c
               = if String.eqb c value_col then to_numeric_round3 (cell_at C1 r1 value_col)
                 else cell_at C1 r1 c)
    by (intros c; unfold r2; now rewrite cell_at_assign_old).
  assert (HDL : In "Date" L).
  { apply add_group_cols_incl, in_or_app. right. now left. }
  split; [now rewrite !nth_error_map, Hr|].
  split; [apply length_map|]. split.
  - rewrite cell_at_map by exact HDL. rewrite H2.
    destruct (String.eqb_spec "Date" value_col) as [Eq|_]; [congruence|].
    now rewrite H1.
  - intros c Hc HcD Hcv. rewrite cell_at_map by exact Hc. rewrite H2.
    destruct (String.eqb_spec c value_col); [contradiction|].
    rewrite H1. destruct (String.eqb_spec c "Date"); [contradiction | reflexivity].
Qed.

End LongFacts.

Lemma make_long_df_layout_witness :
  exists out,
    make_long_df epa_df "Date Local" "Arithmetic Mean" ["State"; "County"; "State"] = Some out /\
    columns out = ["Pollutant Name"; "Date"; "Arithmetic Mean"; "State"].
Proof.
  destruct (make_long_df epa_df "Date Local" "Arithmetic Mean" ["State"; "County"; "State"])
    as [out|] eqn:E; [|vm_compute in E; discriminate].
  exists out. split; [reflexivity|].
  destruct (make_long_df_layout epa_df "Date Local" "Arithmetic Mean"
              ["State"; "County"; "State"] out E) as (Ecols & _).
  rewrite Ecols. reflexivity.
Defined.

Lemma make_long_df_cells_witness :
  wf_frame epa_df /\
  exists out,
    make_long_df epa_df "Date Local" "Arithmetic Mean" ["State"] = Some out /\
    List.length (rows out) = List.length (rows epa_df).
Proof.
  split; [solve_wf|].
  destruct (make_long_df epa_df "Date Local" "Arithmetic Mean" ["State"])
    as [out|] eqn:E; [|vm_compute in E; discriminate].
  exists out. split; [reflexivity|].
  destruct (make_long_df_cells epa_df "Date Local" "Arithmetic Mean" ["State"] out)
    as (Hlen & _); [solve_wf | exact E | discriminate | exact Hlen].
Defined.

(** ** Labels by name *)

Lemma dict_get_set (d : dict) (k v x : string) :
  dict_get (dict_set d k v) x = if String.eqb x k then Some v else dict_get d x.
Proof.
  induction d as [|[k' v'] t IH]; simpl.
  - reflexivity.
  - destruct (String.eqb_spec k k') as [->|Hne]; simpl.
    + destruct (String.eqb_spec x k'); reflexivity.
    + rewrite IH. destruct (String.eqb_spec x k') as [->|]; [|reflexivity].
      destruct (String.eqb_spec k' k); [congruence | reflexivity].
Qed.

Lemma label_loop_raw (ps : list string) :
  forall (i : nat) (out : dict),
  exists m, label_loop false i ps out = Some m /\
    forall x, dict_get m x = if PyStr.mem x ps then Some x else dict_get out x.
Proof.
  induction ps as [|p rest IH]; intros i out; cbn [label_loop].
  - exists out. split; [reflexivity|]. intros x. reflexivity.
  - destruct (IH (S i) (dict_set out p p)) as (m & Em & Hm).
    exists m. split; [exact Em|]. intros x. rewrite Hm, dict_get_set.
    unfold PyStr.mem. cbn [existsb].
    destruct (existsb (String.eqb x) rest); [now rewrite orb_true_r|].
    rewrite orb_false_r. destruct (String.eqb_spec x p) as [->|]; reflexivity.
Qed.

(** X12.  With raw names as labels [label_style_map] never fails,
    however many names it is given and whether or not they repeat: it
    maps every name to itself and nothing else to anything. *)
Theorem label_style_map_raw_names (ps : list string) :
  exists m, label_style_map ps false = Some m /\
    forall x, dict_get m x = if PyStr.mem x ps then Some x else None.
Proof.
  unfold label_style_map.
  destruct (label_loop_raw (PyStr.sorted ps) 0 []) as (m & Em & Hm).
  exists m. split; [exact Em|]. intros x. rewrite Hm. cbn [dict_get].
  destruct (PyStr.mem x ps) eqn:E.
  - assert (PyStr.mem x (PyStr.sorted ps) = true) as ->; [|reflexivity].
    apply mem_In. apply sort_by_In. now apply mem_In.
  - assert (PyStr.mem x (PyStr.sorted ps) = false) as ->; [|reflexivity].
    apply mem_false. intros H. apply sort_by_In in H. apply mem_In in H. congruence.
Qed.

(** ** Groups and sheets *)

(** Two groups of [groupby] with matching keys are one group. *)
Lemma groupby_unique (df : DataFrame) (keys : list string) (gs : list (key * DataFrame))
    (k1 k2 : key) (s1 s2 : DataFrame) :
  groupby df keys = Some gs ->
  In (k1, s1) gs -> In (k2, s2) gs -> key_eqb k1 k2 = true ->
  k1 = k2 /\ s1 = s2.
Proof.
  unfold groupby. destruct (forallb (has_column df) keys); [|discriminate].
  cbv zeta. set (kf := key_of (columns df) keys).
  set (kept := filter (fun r => negb (has_missing (kf r))) (rows df)).
  intros [= <-] H1 H2 Hk.
  apply in_map_iff in H1, H2.
  destruct H1 as ([k1' l1] & [= <- <-] & H1), H2 as ([k2' l2] & [= <- <-] & H2).
  apply sort_by_In in H1, H2. cbn [fst snd] in *.
  destruct (group_rows_spec kf kept) as (Hpw & Hgrp & _).
  { intros r Hr. apply filter_In in Hr. destruct Hr as [_ Hr]. now apply negb_true_iff. }
  assert (E : k1' = k2').
  { destruct (ForallOrdPairs_In Hpw k1' k2') as [E | [E | E]]; auto.
    - apply in_map_iff. now exists (k1', l1).
    - apply in_map_iff. now exists (k2', l2).
    - congruence.
    - rewrite key_eqb_sym in E. congruence. }
  subst k2'. split; [reflexivity|].
  destruct (Hgrp _ _ H1) as [-> _], (Hgrp _ _ H2) as [-> _]. reflexivity.
Qed.

Section SheetFacts.

Context {P : Pandas}.


End SheetFacts.

(** X14.  Every group of [groupby] has the columns of the frame, is not
    empty, and holds exactly the rows of the frame that match its key,
    in the order of the frame; two groups that share a row are the same
    group. *)
Theorem groupby_groups (df : DataFrame) (keys : list string) (gs : list (key * DataFrame)) :
  groupby df keys = Some gs ->
  forall k sub, In (k, sub) gs ->
    columns sub = columns df /\
    rows sub <> [] /\
    rows sub = filter (fun r => key_eqb (key_of (columns df) keys r) k) (rows df) /\
    forall k' sub' r, In (k', sub') gs -> In r (rows sub) -> In r (rows sub') ->
                      k' = k /\ sub' = sub.
Proof.
  intros Egs k sub Hin.
  assert (Hcols : forall c, In c keys -> In c (columns df)).
  { unfold groupby in Egs. destruct (forallb (has_column df) keys) eqn:E; [|discriminate].
    intros c Hc. rewrite forallb_forall in E. now apply has_column_In, E. }
  destruct (groupby_spec df keys Hcols) as (gs' & Egs' & _ & Hgrp & _).
  rewrite Egs in Egs'. injection Egs' as <-.
  destruct (Hgrp k sub Hin) as (Ec & Er & r0 & Hr0 & Hp0 & Ek).
  split; [exact Ec|]. split; [|split; [exact Er|]].
  - rewrite Er. intros E.
    assert (Hr : In r0 (filter (fun r => key_eqb (key_of (columns df) keys r) k) (rows df))).
    { apply filter_In. split; [exact Hr0|]. rewrite Ek. now apply key_eqb_refl. }
    rewrite E in Hr. destruct Hr.
  - intros k' sub' r Hin' Hr Hr'.
    destruct (Hgrp k' sub' Hin') as (_ & Er' & _).
    rewrite Er in Hr. rewrite Er' in Hr'.
    apply filter_In in Hr, Hr'. destruct Hr as [_ Hr], Hr' as [_ Hr'].
    apply (groupby_unique df keys gs k' k sub' sub Egs Hin' Hin).
    rewrite key_eqb_sym in Hr'. eapply key_eqb_trans; eassumption.
Qed.


(** X20.  Groups whose keys differ only in characters that the sanitizer
    replaces are written to one sheet, the later over the earlier.  The
    two rows of the example, of the sites [A/B] and [A:B], have no missing
    value; their groups are both written to the sheet [A-B], and the
    workbook keeps the row of [A:B] alone. *)
Theorem sheet_split_same_name_overwrites :
  List.length (rows two_sites_df) = 2 /\
  (forall r, In r (rows two_sites_df) ->
     has_missing (key_of (columns two_sites_df) ["Site"] r) = false) /\
  (exists gs,
     groupby two_sites_df ["Site"] = Some gs /\
     map fst gs = [[CStr "A/B"]; [CStr "A:B"]] /\
     map (fun g => sheet_of_keys (fst g)) gs = ["A-B"; "A-B"]) /\
  sheet_split two_sites_df ["Site"]
  = Some [("A-B",
           mkDataFrame (columns two_sites_df)
             [[CStr "PM2.5"; jan10; CNum (981 # 100); CStr "A:B"]])].
Proof.
  split; [reflexivity|]. split; [|split].
  - intros r [<- | [<- | []]]; reflexivity.
  - eexists. split; [reflexivity|]. split; reflexivity.
  - reflexivity.
Qed.

Lemma groupby_groups_witness :
  exists gs, groupby maryland_df ["Pollutant Name"] = Some gs /\
    forall k sub, In (k, sub) gs -> columns sub = columns maryland_df /\ rows sub <> [].
Proof.
  destruct (groupby maryland_df ["Pollutant Name"]) as [gs|] eqn:E;
    [|vm_compute in E; discriminate].
  exists gs. split; [reflexivity|]. intros k sub Hin.
  destruct (groupby_groups maryland_df ["Pollutant Name"] gs E k sub Hin) as (H1 & H2 & _).
  split; assumption.
Defined.

(** ** The column layout of the wide table *)

Lemma index_of_map_inj (ren : string -> string) (cols : list string) (c : string) :
  (forall x, In x cols -> ren x = ren c -> x = c) ->
  index_of (ren c) (map ren cols) = index_of c cols.
Proof.
  induction cols as [|x t IH]; simpl; intros Hinj; [reflexivity|].
  destruct (String.eqb_spec c x) as [->|Hne].
  - now rewrite String.eqb_refl.
  - destruct (String.eqb_spec (ren c) (ren x)) as [E|_].
    + exfalso. apply Hne. symmetry. apply Hinj; [now left | now symmetry].
    + rewrite IH; [reflexivity|]. intros y Hy. apply Hinj. now right.
Qed.

Lemma cell_at_relabel (ren : string -> string) (cols : list string) (r : row) (c : string) :
  (forall x, In x cols -> ren x = ren c -> x = c) ->
  cell_at (map ren cols) r (ren c) = cell_at cols r c.
Proof. intros H. unfold cell_at. now rewrite index_of_map_inj. Qed.

Lemma filter_map_commute {A B : Type} (f : B -> bool) (g : A -> B) (l : list A) :
  filter f (map g l) = map g (filter (fun x => f (g x)) l).
Proof.
  induction l as [|x t IH]; simpl; [reflexivity|].
  destruct (f (g x)); simpl; now rewrite IH.
Qed.

Lemma dict_get_In (d : dict) (x v : string) : dict_get d x = Some v -> In (x, v) d.
Proof.
  induction d as [|[k' v'] t IH]; simpl; [discriminate|].
  destruct (String.eqb_spec x k') as [->|Hne].
  - intros [= ->]. now left.
  - intros H. right. now apply IH.
Qed.

Lemma dict_get_keys (d : dict) (x : string) :
  In x (map fst d) <-> exists v, dict_get d x = Some v.
Proof.
  induction d as [|[k' v'] t IH]; simpl.
  - split; [tauto | intros [v Hv]; discriminate].
  - destruct (String.eqb_spec x k') as [->|Hne].
    + split; [intros _; now exists v' | intros _; now left].
    + rewrite <- IH. split; [intros [E | H]; [congruence | exact H] | intros H; now right].
Qed.

Lemma lookup_all_renamed (m : dict) (keys : list string) :
  (forall p, In p keys -> In p (map fst m)) ->
  lookup_all m keys = Some (map (renamed m) keys).
Proof.
  induction keys as [|p rest IH]; simpl; intros H; [reflexivity|].
  destruct (proj1 (dict_get_keys m p) (H p (or_introl eq_refl))) as [v Hv].
  unfold renamed at 1. rewrite Hv, IH by (intros; apply H; now right). reflexivity.
Qed.

Lemma NoDup_snd_inj (m : dict) (p q l : string) :
  NoDup (map snd m) -> In (p, l) m -> In (q, l) m -> p = q.
Proof.
  induction m as [|[k v] t IH]; simpl; intros Hnd Hp Hq; [tauto|].
  inversion Hnd as [|? ? Hv Ht]; subst.
  destruct Hp as [Hp | Hp], Hq as [Hq | Hq].
  - congruence.
  - exfalso. apply Hv. injection Hp as _ ->. apply in_map_iff. now exists (q, l).
  - exfalso. apply Hv. injection Hq as _ ->. apply in_map_iff. now exists (p, l).
  - now apply IH.
Qed.

Lemma NoDup_map_inj_in {A B : Type} (f : A -> B) (l : list A) :
  (forall x y, In x l -> In y l -> f x = f y -> x = y) -> NoDup l -> NoDup (map f l).
Proof.
  induction l as [|a t IH]; simpl; intros Hinj Hnd; [constructor|].
  inversion Hnd as [|? ? Ha Ht]; subst. constructor.
  - intros Hin. apply in_map_iff in Hin. destruct Hin as (y & Ey & Hy).
    apply Ha. rewrite <- (Hinj y a); auto.
  - apply IH; [|exact Ht]. intros x y Hx Hy. apply Hinj; now right.
Qed.

Lemma label_style_map_Some_length (ps : list string) (m : dict) :
  label_style_map ps true = Some m -> List.length ps <= 26.
Proof.
  intros H. destruct (le_lt_dec (List.length ps) 26) as [Hle | Hgt]; [exact Hle|].
  unfold label_style_map in H. rewrite label_loop_overflow in H; [discriminate | lia |].
  unfold PyStr.sorted. rewrite sort_by_length. simpl. lia.
Qed.

(** Relabelling and reordering a table, given the labels. *)
Lemma label_columns_spec
    (wide : DataFrame) (index_cols : list string) (date_col : string) (use_abc : bool)
    (m : dict) :
  wf_frame wide ->
  In date_col index_cols ->
  (forall c, In c index_cols -> In c (columns wide)) ->
  let pol_cols := filter (fun c => negb (PyStr.mem c index_cols)) (columns wide) in
  label_style_map pol_cols use_abc = Some m ->
  (use_abc = true ->
   forall c letter p, In c index_cols -> c <> letter_label letter p) ->
  exists out,
    label_columns wide index_cols date_col use_abc = Some out /\
    columns out
    = date_col :: map (renamed m) pol_cols
      ++ filter (fun c => PyStr.mem c index_cols && negb (String.eqb c date_col))
                (columns wide) /\
    wf_frame out /\
    List.length (rows out) = List.length (rows wide) /\
    forall i r, nth_error (rows wide) i = Some r ->
      exists r', nth_error (rows out) i = Some r' /\
        (forall c, In c index_cols ->
           cell_at (columns out) r' c = cell_at (columns wide) r c) /\
        (forall p, In p pol_cols ->
           cell_at (columns out) r' (renamed m p) = cell_at (columns wide) r p).
Proof.
  intros [Hnd Hrows] Hdate Hidx pol Hm Hfresh.
  assert (Hlen : use_abc = true -> List.length pol <= 26).
  { intros ->. now apply (label_style_map_Some_length pol m). }
  set (cols := columns wide) in *.
  assert (Hpol : forall p, In p pol <-> In p cols /\ ~ In p index_cols).
  { intros p. unfold pol. rewrite filter_In, negb_true_iff, mem_false. tauto. }
  assert (Hpol_nd : NoDup pol) by now apply NoDup_filter.
  assert (Hsplit : forall x, In x cols -> In x index_cols \/ In x pol).
  { intros x Hx. destruct (PyStr.mem x index_cols) eqn:E.
    - left. now apply mem_In.
    - right. apply Hpol. split; [exact Hx | now apply mem_false]. }
  pose proof (label_style_map_labelled pol use_abc Hpol_nd Hlen) as Em.
  assert (m = labelled use_abc 0 (PyStr.sorted pol)) as Edef by congruence.
  subst m. set (m := labelled use_abc 0 (PyStr.sorted pol)) in *.
  assert (Hkeys : forall p, In p (map fst m) <-> In p pol).
  { intros p. unfold m. rewrite labelled_keys. apply sort_by_In. }
  assert (Hvals : NoDup (map snd m)).
  { apply labelled_values_NoDup.
    - eapply Permutation_NoDup; [apply Permutation_sym, sort_by_perm | exact Hpol_nd].
    - intros E. simpl. unfold PyStr.sorted. rewrite sort_by_length. auto. }
  assert (Hren_idx : forall c, In c index_cols -> renamed m c = c).
  { intros c Hc. unfold renamed. destruct (dict_get m c) as [v|] eqn:E; [|reflexivity].
    exfalso. assert (Hin : In c (map fst m)) by (apply dict_get_keys; eauto).
    apply Hkeys, Hpol in Hin. tauto. }
  assert (Hren_pol : forall p, In p pol -> In (p, renamed m p) m).
  { intros p Hp. apply Hkeys, dict_get_keys in Hp. destruct Hp as [v Hv].
    unfold renamed. rewrite Hv. now apply dict_get_In. }
  assert (Hlab_fresh : forall p, In p pol -> ~ In (renamed m p) index_cols).
  { intros p Hp Hin.
    assert (Hl : In (renamed m p) (map snd m)).
    { apply in_map_iff. exists (p, renamed m p). split; [reflexivity | now apply Hren_pol]. }
    apply labelled_values_In in Hl. destruct Hl as (q & j & Hq & Hj & El).
    apply sort_by_In in Hq. unfold label_at in El. destruct use_abc.
    - unfold PyStr.sorted in Hj. rewrite sort_by_length in Hj.
      destruct (abc_get_some j) as [c Hc]; [specialize (Hlen eq_refl); lia|].
      rewrite Hc in El. apply (Hfresh eq_refl _ c q Hin). exact El.
    - rewrite El in Hin. apply Hpol in Hq. tauto. }
  assert (Hinj : forall x c, In x cols -> In c cols -> renamed m x = renamed m c -> x = c).
  { intros x c Hx Hc E.
    destruct (Hsplit x Hx) as [Hxi | Hxp], (Hsplit c Hc) as [Hci | Hcp].
    - now rewrite !Hren_idx in E.
    - exfalso. apply (Hlab_fresh c Hcp). rewrite <- E, Hren_idx; assumption.
    - exfalso. apply (Hlab_fresh x Hxp). rewrite E, Hren_idx; assumption.
    - apply (NoDup_snd_inj m x c (renamed m c) Hvals).
      + rewrite <- E. now apply Hren_pol.
      + now apply Hren_pol. }
  set (labels := map (renamed m) pol).
  set (others := filter (fun c => PyStr.mem c index_cols && negb (String.eqb c date_col)) cols).
  set (ordered := date_col :: labels ++ others).
  assert (Hout : label_columns wide index_cols date_col use_abc
                 = Some (select (rename wide m) ordered)).
  { unfold label_columns. fold cols. fold pol. rewrite Hm.
    rewrite lookup_all_renamed by (intros p Hp; now apply Hkeys).
    fold labels. cbv zeta. f_equal. f_equal.
    assert (Efront : (if String.eqb date_col "Date" then "Date" :: labels
                      else date_col :: labels) = date_col :: labels).
    { destruct (String.eqb_spec date_col "Date") as [->|]; reflexivity. }
    rewrite Efront. cbn [rename columns]. fold cols. unfold ordered.
    rewrite app_comm_cons. f_equal.
    - apply filter_all. intros x Hx. apply mem_In.
      destruct Hx as [<- | Hx].
      + rewrite <- (Hren_idx date_col Hdate). apply in_map. now apply Hidx.
      + unfold labels in Hx. apply in_map_iff in Hx. destruct Hx as (p & <- & Hp).
        apply in_map. apply Hpol in Hp. tauto.
    - rewrite filter_map_commute. unfold others.
      rewrite (filter_ext_in
                 (fun x => negb (PyStr.mem (renamed m x) (date_col :: labels)))
                 (fun c => PyStr.mem c index_cols && negb (String.eqb c date_col))).
      + rewrite <- (map_id (filter _ cols)) at 2. apply map_ext_in.
        intros c Hc. apply filter_In in Hc. destruct Hc as [_ Hc].
        apply andb_prop in Hc. destruct Hc as [Hc _]. apply Hren_idx. now apply mem_In.
      + intros x Hx. destruct (Hsplit x Hx) as [Hxi | Hxp].
        * rewrite (Hren_idx x Hxi), (proj2 (mem_In x index_cols) Hxi). cbn [andb]. f_equal.
          unfold PyStr.mem. cbn [existsb].
          assert (existsb (String.eqb x) labels = false) as ->.
          { apply mem_false. intros Hin. unfold labels in Hin. apply in_map_iff in Hin.
            destruct Hin as (p & Ep & Hp). apply (Hlab_fresh p Hp). now rewrite Ep. }
          now rewrite orb_false_r.
        * assert (PyStr.mem x index_cols = false) as -> by (apply mem_false, Hpol, Hxp).
          cbn [andb]. apply negb_false_iff, mem_In. right. now apply in_map. }
  assert (Hord_nd : NoDup ordered).
  { unfold ordered. constructor.
    - intros Hin. apply in_app_or in Hin. destruct Hin as [Hin | Hin].
      + unfold labels in Hin. apply in_map_iff in Hin. destruct Hin as (p & Ep & Hp).
        apply (Hlab_fresh p Hp). now rewrite Ep.
      + unfold others in Hin. apply filter_In in Hin. destruct Hin as [_ Hin].
        apply andb_prop in Hin. destruct Hin as [_ Hin].
        rewrite String.eqb_refl in Hin. discriminate.
    - apply NoDup_app.
      + unfold labels. apply NoDup_map_inj_in; [|exact Hpol_nd].
        intros x y Hx Hy. apply Hinj; [apply Hpol in Hx | apply Hpol in Hy]; tauto.
      + unfold others. now apply NoDup_filter.
      + intros l Hl Ho. unfold labels in Hl. apply in_map_iff in Hl.
        destruct Hl as (p & Ep & Hp). apply (Hlab_fresh p Hp). rewrite Ep.
        unfold others in Ho. apply filter_In in Ho. destruct Ho as [_ Ho].
        apply andb_prop in Ho. destruct Ho as [Ho _]. now apply mem_In. }
  exists (select (rename wide m) ordered).
  split; [exact Hout|]. split; [reflexivity|].
  split; [|split].
  - split; [exact Hord_nd|]. cbn [select rename columns rows].
    rewrite Forall_forall. intros r Hr. apply in_map_iff in Hr.
    destruct Hr as (r0 & <- & _). apply length_map.
  - cbn [select rename rows]. apply length_map.
  - intros i r Hr. cbn [select rename columns rows]. fold cols.
    exists (map (cell_at (map (renamed m) cols) r) ordered).
    split; [now rewrite nth_error_map, Hr|]. split.
    + intros c Hc.
      assert (Hin : In c ordered).
      { unfold ordered. destruct (String.eqb_spec c date_col) as [->|Hne]; [now left|].
        right. apply in_or_app. right. unfold others. apply filter_In.
        split; [now apply Hidx|]. rewrite (proj2 (mem_In c index_cols) Hc).
        cbn [andb]. apply negb_true_iff. now apply String.eqb_neq. }
      rewrite cell_at_map by exact Hin.
      rewrite <- (Hren_idx c Hc) at 1. apply cell_at_relabel.
      intros x Hx. apply Hinj; [exact Hx | now apply Hidx].
    + intros p Hp.
      assert (Hin : In (renamed m p) ordered).
      { unfold ordered. right. apply in_or_app. left. now apply in_map. }
      rewrite cell_at_map by exact Hin. apply cell_at_relabel.
      intros x Hx. apply Hinj; [exact Hx|]. apply Hpol in Hp. tauto.
Qed.


(** X15.  Relabelling and reordering the pivoted table.  For a
    well-formed table whose index columns include the date column, with
    at most 26 other columns when letter labels are used and no index
    column named like a letter label, [label_columns] returns a
    well-formed table with the same rows whose columns are the date
    column, then the other (pollutant) columns under their labels from
    [label_style_map] in the table's order, then the remaining index
    columns in the table's order; every cell is kept under the new label
    of its column. *)
Theorem label_columns_layout
    (wide : DataFrame) (index_cols : list string) (date_col : string) (use_abc : bool) :
  wf_frame wide ->
  In date_col index_cols ->
  (forall c, In c index_cols -> In c (columns wide)) ->
  let pol_cols := filter (fun c => negb (PyStr.mem c index_cols)) (columns wide) in
  (use_abc = true -> List.length pol_cols <= 26) ->
  (use_abc = true ->
   forall c letter p, In c index_cols -> c <> letter_label letter p) ->
  exists m out,
    label_style_map pol_cols use_abc = Some m /\
    label_columns wide index_cols date_col use_abc = Some out /\
    columns out
    = date_col :: map (renamed m) pol_cols
      ++ filter (fun c => PyStr.mem c index_cols && negb (String.eqb c date_col))
                (columns wide) /\
    wf_frame out /\
    List.length (rows out) = List.length (rows wide) /\
    forall i r, nth_error (rows wide) i = Some r ->
      exists r', nth_error (rows out) i = Some r' /\
        (forall c, In c index_cols ->
           cell_at (columns out) r' c = cell_at (columns wide) r c) /\
        (forall p, In p pol_cols ->
           cell_at (columns out) r' (renamed m p) = cell_at (columns wide) r p).
Proof.
  intros Hwf Hdate Hidx pol Hlen Hfresh.
  assert (Hnd : NoDup pol) by (apply NoDup_filter; apply Hwf).
  pose proof (label_style_map_labelled pol use_abc Hnd Hlen) as Em.
  destruct (label_columns_spec wide index_cols date_col use_abc _ Hwf Hdate Hidx Em Hfresh)
    as (out & Hout).
  eexists. exists out. split; [exact Em | exact Hout].
Qed.

Lemma label_columns_layout_witness :
  exists out,
    label_columns maryland_wide ["State"; "Date"] "Date" true = Some out /\
    columns out = ["Date"; "Pollutant A (NO2)"; "Pollutant B (PM2.5)"; "State"] /\
    rows out = [[jan10; CNum (156 # 10); CNum (981 # 100); CStr "Maryland"]].
Proof.
  destruct (label_columns_layout maryland_wide ["State"; "Date"] "Date" true)
    as (m & out & _ & Eout & _).
  - solve_wf.
  - solve_In.
  - intros c [<- | [<- | []]]; solve_In.
  - intros _. simpl. lia.
  - intros _ c letter p [<- | [<- | []]]; discriminate.
  - exists out. split; [exact Eout|].
    vm_compute in Eout. injection Eout as <-. split; reflexivity.
Defined.

(** ** The sheets of the wide table *)





Section WideSheets.

Context {P : Pandas}.


End WideSheets.


(** ** The optional filter *)

Lemma filter_opt_filter (f : row -> option bool) (rs l : list row) :
  filter_opt f rs = Some l ->
  l = filter (fun r => match f r with Some true => true | _ => false end) rs.
Proof.
  revert l; induction rs as [|r rest IH]; simpl; intros l H.
  - now injection H as <-.
  - destruct (f r) as [[|]|]; [| |discriminate];
      destruct (filter_opt f rest) as [l'|]; try discriminate;
      injection H as <-; now rewrite (IH l' eq_refl).
Qed.

Lemma filter_true {A : Type} (l : list A) : filter (fun _ => true) l = l.
Proof. induction l as [|x t IH]; simpl; [reflexivity | now rewrite IH]. Qed.

Section FilterFacts.

Context {P : Pandas} {T : PyText}.

(** X17.  Whatever the user answers, the table that [filter_df] returns
    has the columns of the input and a selection of its rows, in their
    order: no row is added, changed or moved; a well-formed table stays
    well formed. *)
Theorem filter_df_selects_rows (a : FilterAnswers) (df out : DataFrame) :
  filter_df a df = Some out ->
  columns out = columns df /\
  (exists keep : row -> bool, rows out = filter keep (rows df)) /\
  (wf_frame df -> wf_frame out).
Proof.
  assert (Hsame : forall o, Some df = Some o ->
            columns o = columns df /\
            (exists keep : row -> bool, rows o = filter keep (rows df)) /\
            (wf_frame df -> wf_frame o)).
  { intros o [= <-]. split; [reflexivity|]. split; [|tauto].
    exists (fun _ => true). now rewrite filter_true. }
  assert (Hsel : forall keep,
            columns (mkDataFrame (columns df) (filter keep (rows df))) = columns df /\
            (exists keep' : row -> bool,
                rows (mkDataFrame (columns df) (filter keep (rows df)))
                = filter keep' (rows df)) /\
            (wf_frame df -> wf_frame (mkDataFrame (columns df) (filter keep (rows df))))).
  { intros keep. split; [reflexivity|]. split; [now exists keep|].
    intros [Hnd Hrows]. split; [exact Hnd|]. cbn [columns rows].
    rewrite Forall_forall in *. intros r Hr. apply filter_In in Hr. now apply Hrows. }
  unfold filter_df.
  destruct (wants_filter a); cbn [negb]; [|apply Hsame].
  destruct (ask_choice _ _) as [ftype|]; [|apply Hsame].
  destruct (String.eqb ftype "coordinates").
  - destruct (coalesce df (firstn _ _)) as [lat_col|]; [|apply Hsame].
    destruct (coalesce df (skipn _ _)) as [lon_col|]; [|apply Hsame].
    destruct (parse_coordinates _) as [[lat lon]|]; [|apply Hsame].
    destruct (filter_opt _ _) as [l|] eqn:E; cbn [option_map]; [|discriminate].
    apply filter_opt_filter in E. subst l. intros [= <-]. apply Hsel.
  - destruct (coalesce df _) as [col|]; [|apply Hsame].
    destruct (keyword a) as [kw|]; [|apply Hsame].
    destruct (PyStr.falsy (Some kw)); [apply Hsame|].
    destruct (regex_search kw) as [found|]; [|discriminate].
    intros [= <-]. apply Hsel.
Qed.

End FilterFacts.

Lemma filter_df_selects_rows_witness :
  exists out,
    filter_df (mkFilterAnswers true (Some "State") None (Some "mary")) sites_df = Some out /\
    columns out = columns sites_df /\
    List.length (rows out) = 2.
Proof.
  destruct (filter_df (mkFilterAnswers true (Some "State") None (Some "mary")) sites_df)
    as [out|] eqn:E; [|vm_compute in E; discriminate].
  exists out. split; [reflexivity|].
  destruct (filter_df_selects_rows _ _ _ E) as (Ecols & _ & _).
  split; [exact Ecols|]. vm_compute in E. injection E as <-. reflexivity.
Defined.
